(** * video-summaryzer: a shallow embedding of the transcription scripts

    The repository holds two independent programs around the Whisper
    speech-recognition model:

    - [whisper_cli.py], the batch invoker: it estimates progress on a
      background thread, sanitizes the transcript, saves it and delivers the
      result on standard output between two delimiters;
    - [video_transcriber.py], the Streamlit front-end with its subtitle
      formatters.

    Conventions of the embedding.
    - A Python [str] is a list of Unicode code points ([N]); surrogate code
      points are values of the type, as they are in Python.
    - The Unicode character database ([unicodedata.normalize],
      [str.isprintable]) is external to the repository: it is a parameter of
      the sanitizer, constrained by the facts of the database that the proofs
      use, and instantiated by a Latin-1 table for the closed examples.
    - Python floats are modelled twice.  The schedule of the progress
      thread, the durations of the status texts and the subtitle timestamps
      are stated over exact rationals ([Q]): what is proved of them is proved
      of the arithmetic that the scripts spell out, before rounding.  The
      percentages that the progress thread prints depend on the rounding of
      each operation, so the estimator is also given in IEEE 754 double
      precision, on the primitive floats of the kernel (module [Double]);
      what is said of the printed percentages is said of that model.
    - Effects (standard output, the logger, the calls into Whisper and the
      file system) are recorded as a trace of events; the external calls are
      fields of a [world] record that says what each of them returns or
      raises. *)

From Stdlib Require Import PrimFloat FloatOps Uint63.
From Stdlib Require Import List NArith ZArith QArith Qround Bool Lia Lqa.
From Stdlib Require Import String Ascii Sorted Permutation.
Import ListNotations.

Local Open Scope N_scope.

(** ** Python strings *)

Definition str := list N.

(** A literal of the source, as code points. *)
Definition py (s : string) : str :=
  map N_of_ascii (list_ascii_of_string s).

(** [c in s] for a one-character [c]. *)
Definition str_in (c : N) (s : str) : bool := existsb (N.eqb c) s.

(** [str.isspace] on one character; it is also what [\s] matches in a
    [str] pattern and what [str.strip()] removes. *)
Definition isspace (c : N) : bool :=
  (9 <=? c) && (c <=? 13) || (0x1c <=? c) && (c <=? 0x20)
  || (c =? 0x85) || (c =? 0xa0) || (c =? 0x1680)
  || (0x2000 <=? c) && (c <=? 0x200a)
  || (c =? 0x2028) || (c =? 0x2029) || (c =? 0x202f) || (c =? 0x205f)
  || (c =? 0x3000).

(** [text.replace(old, new)] for a one-character [old]. *)
Definition replace (old : N) (new : str) (text : str) : str :=
  flat_map (fun c => if c =? old then new else [c]) text.

Fixpoint lstrip (s : str) : str :=
  match s with
  | [] => []
  | c :: s' => if isspace c then lstrip s' else s
  end.

Fixpoint rstrip (s : str) : str :=
  match s with
  | [] => []
  | c :: s' =>
      match rstrip s' with
      | [] => if isspace c then [] else [c]
      | r => c :: r
      end
  end.

(** [text.strip()] *)
Definition strip (s : str) : str := rstrip (lstrip s).

(** [re.sub(r'\s+', ' ', text)]: every maximal run of whitespace becomes one
    space.  [in_run] says that the previous character belonged to a run
    that has already been replaced. *)
Fixpoint sub_ws_from (in_run : bool) (text : str) : str :=
  match text with
  | [] => []
  | c :: text' =>
      if isspace c
      then (if in_run then sub_ws_from true text'
            else 0x20 :: sub_ws_from true text')
      else c :: sub_ws_from false text'
  end.

Definition sub_ws (text : str) : str := sub_ws_from false text.

(** ** The text sanitizer ([sanitize_for_json], whisper_cli.py) *)

(** The class [[\x00-\x08\x0b\x0c\x0e-\x1f\x7f-\x9f]]. *)
Definition is_control (c : N) : bool :=
  (c <=? 0x08) || (c =? 0x0b) || (c =? 0x0c)
  || (0x0e <=? c) && (c <=? 0x1f) || (0x7f <=? c) && (c <=? 0x9f).

Definition sub_control (text : str) : str :=
  map (fun c => if is_control c then 0x20 else c) text.

(** The [replacements] dict, in insertion order. *)
Definition replacements : list (N * str) :=
  [ (0x2013, py "-");      (* en dash *)
    (0x2014, py "--");     (* em dash *)
    (0x2018, py "'");      (* left single quotation mark *)
    (0x2019, py "'");      (* right single quotation mark *)
    (0x201c, [0x22]);      (* left double quotation mark *)
    (0x201d, [0x22]);      (* right double quotation mark *)
    (0x2026, py "...");    (* ellipsis *)
    (0x00a0, py " ") ].    (* non-breaking space *)

Definition apply_replacements (text : str) : str :=
  fold_left (fun t r => replace (fst r) (snd r) t) replacements text.

(** The two literals of accented letters: a-grave .. y-acute without
    eth, the division sign, thorn and y-diaeresis, and their capitals. *)
Definition lower_accents : str :=
  [ 0xe0; 0xe1; 0xe2; 0xe3; 0xe4; 0xe5; 0xe6; 0xe7; 0xe8; 0xe9; 0xea; 0xeb;
    0xec; 0xed; 0xee; 0xef; 0xf1; 0xf2; 0xf3; 0xf4; 0xf5; 0xf6; 0xf8; 0xf9;
    0xfa; 0xfb; 0xfc; 0xfd ].

Definition upper_accents : str :=
  [ 0xc0; 0xc1; 0xc2; 0xc3; 0xc4; 0xc5; 0xc6; 0xc7; 0xc8; 0xc9; 0xca; 0xcb;
    0xcc; 0xcd; 0xce; 0xcf; 0xd1; 0xd2; 0xd3; 0xd4; 0xd5; 0xd6; 0xd8; 0xd9;
    0xda; 0xdb; 0xdc; 0xdd ].

(** ['\n\r\t '] *)
Definition plain_whitespace : str := [0x0a; 0x0d; 0x09; 0x20].

(** The accented letters of the two literals that the Unicode database
    decomposes, each with the decomposition it gives: the base letter and
    one combining mark (U+0300 grave, U+0301 acute, U+0302 circumflex,
    U+0303 tilde, U+0308 diaeresis, U+030A ring above, U+0327 cedilla). *)
Definition latin1_decompositions : list (N * (N * N)) :=
  [
    (0xc0, (0x41, 0x300)); (0xc1, (0x41, 0x301)); (0xc2, (0x41, 0x302));
    (0xc3, (0x41, 0x303)); (0xc4, (0x41, 0x308)); (0xc5, (0x41, 0x30a));
    (0xc7, (0x43, 0x327)); (0xc8, (0x45, 0x300)); (0xc9, (0x45, 0x301));
    (0xca, (0x45, 0x302)); (0xcb, (0x45, 0x308)); (0xcc, (0x49, 0x300));
    (0xcd, (0x49, 0x301)); (0xce, (0x49, 0x302)); (0xcf, (0x49, 0x308));
    (0xd1, (0x4e, 0x303)); (0xd2, (0x4f, 0x300)); (0xd3, (0x4f, 0x301));
    (0xd4, (0x4f, 0x302)); (0xd5, (0x4f, 0x303)); (0xd6, (0x4f, 0x308));
    (0xd9, (0x55, 0x300)); (0xda, (0x55, 0x301)); (0xdb, (0x55, 0x302));
    (0xdc, (0x55, 0x308)); (0xdd, (0x59, 0x301)); (0xe0, (0x61, 0x300));
    (0xe1, (0x61, 0x301)); (0xe2, (0x61, 0x302)); (0xe3, (0x61, 0x303));
    (0xe4, (0x61, 0x308)); (0xe5, (0x61, 0x30a)); (0xe7, (0x63, 0x327));
    (0xe8, (0x65, 0x300)); (0xe9, (0x65, 0x301)); (0xea, (0x65, 0x302));
    (0xeb, (0x65, 0x308)); (0xec, (0x69, 0x300)); (0xed, (0x69, 0x301));
    (0xee, (0x69, 0x302)); (0xef, (0x69, 0x308)); (0xf1, (0x6e, 0x303));
    (0xf2, (0x6f, 0x300)); (0xf3, (0x6f, 0x301)); (0xf4, (0x6f, 0x302));
    (0xf5, (0x6f, 0x303)); (0xf6, (0x6f, 0x308)); (0xf9, (0x75, 0x300));
    (0xfa, (0x75, 0x301)); (0xfb, (0x75, 0x302)); (0xfc, (0x75, 0x308));
    (0xfd, (0x79, 0x301)) ].

Fixpoint lookup {A} (k : N) (table : list (N * A)) : option A :=
  match table with
  | [] => None
  | (k', v) :: table' => if k =? k' then Some v else lookup k table'
  end.

Definition latin1_decomposition (c : N) : option (N * N) :=
  lookup c latin1_decompositions.

(** The letters of the two literals without a decomposition. *)
Definition undecomposed_accents : str := [0xe6; 0xf8; 0xc6; 0xd8].

(** Code points that NFKD leaves in place wherever they stand: ASCII and
    the four letters above (no decomposition, combining class 0). *)
Definition nfkd_inert (c : N) : bool :=
  (c <? 0x80) || str_in c undecomposed_accents.

Section Sanitizer.

(** [unicodedata.normalize('NFKD', _)] and [str.isprintable] on one
    character, from the Unicode character database. *)
Variable normalize_NFKD : str -> str.
Variable isprintable : N -> bool.

(** The condition of the generator expression that keeps a character. *)
Definition safe (c : N) : bool :=
  (isprintable c && (c <? 127))
  || str_in c lower_accents
  || str_in c upper_accents
  || str_in c plain_whitespace.

Definition keep_safe (text : str) : str := filter safe text.

Definition sanitize_for_json (text : str) : str :=
  let text := normalize_NFKD text in
  let text := sub_control text in
  let text := apply_replacements text in
  let text := keep_safe text in
  let text := sub_ws text in
  let text := strip text in
  text.

End Sanitizer.

(** A normalizer for the closed examples: the decomposition table of the
    Latin-1 letters above, the two compatibility mappings that the
    replacement table also names (no-break space and ellipsis), and every
    other code point unchanged.  It agrees with NFKD on every string made
    of ASCII characters, the letters of the two literals, U+00A0 and
    U+2026. *)
Definition latin1_decompose (c : N) : str :=
  match latin1_decomposition c with
  | Some (b, m) => [b; m]
  | None =>
      if c =? 0xa0 then [0x20]
      else if c =? 0x2026 then py "..."
      else [c]
  end.

Definition latin1_NFKD (text : str) : str := flat_map latin1_decompose text.

(** Latin letters outside Latin-1 that the Unicode database decomposes
    into a base letter that is not an ASCII letter: ae with macron or acute
    and o-slash with acute, whose base letter is in the two literals, and
    ezh with caron, whose base letter is not (U+0301 acute, U+0304 macron,
    U+030C caron). *)
Definition extended_decompositions : list (N * (N * N)) :=
  [ (0x1e2, (0xc6, 0x304)); (0x1e3, (0xe6, 0x304));
    (0x1ee, (0x1b7, 0x30c)); (0x1ef, (0x292, 0x30c));
    (0x1fc, (0xc6, 0x301)); (0x1fd, (0xe6, 0x301));
    (0x1fe, (0xd8, 0x301)); (0x1ff, (0xf8, 0x301)) ].

(** The normalizer of the closed examples with these eight letters added:
    it agrees with NFKD on them as well. *)
Definition extended_decompose (c : N) : str :=
  match lookup c extended_decompositions with
  | Some (b, m) => [b; m]
  | None => latin1_decompose c
  end.

Definition extended_NFKD (text : str) : str :=
  flat_map extended_decompose text.

(** [isprintable] restricted to what the sanitizer asks of it: below 127 the
    printable characters are U+0020..U+007E. *)
Definition ascii_isprintable (c : N) : bool := (0x20 <=? c) && (c <? 0x7f).

(** ** Python numbers *)

(** [int(x)] for a float [x]: truncation toward zero. *)
Definition py_int (x : Q) : Z := Z.quot (Qnum x) (Zpos (Qden x)).

(** ** Python dicts with [str] keys, in insertion order *)

Fixpoint str_eqb (a b : str) : bool :=
  match a, b with
  | [], [] => true
  | c :: a', d :: b' => (c =? d) && str_eqb a' b'
  | _, _ => false
  end.

(** [d.get(key, default)] *)
Fixpoint dict_get {V} (d : list (str * V)) (key : str) (default : V) : V :=
  match d with
  | [] => default
  | (k, v) :: d' => if str_eqb key k then v else dict_get d' key default
  end.

(** ** The progress estimator ([simulate_progress], whisper_cli.py)

    The audio is represented by its number of samples, which is all the
    estimator reads of it ([len(audio)]).  The definitions of this section
    compute with exact rationals: they give the schedule that the source
    spells out.  The interpreter rounds every operation; the number of
    steps it computes can exceed the exact one by one from about 3e15
    samples on, and the percentages it prints are those of [Double]
    below. *)

Definition time_multipliers : list (str * Q) :=
  [ (py "tiny", 0.1%Q); (py "base", 0.2%Q); (py "small", 0.4%Q);
    (py "medium", 0.8%Q); (py "large", 1.5%Q) ].

(** [len(audio) / 16000] *)
Definition total_duration (audio_len : N) : Q :=
  (inject_Z (Z.of_N audio_len) / 16000)%Q.

(** [time_multipliers.get(model_name, 0.5)] *)
Definition multiplier (model_name : str) : Q :=
  dict_get time_multipliers model_name 0.5%Q.

(** [total_duration * time_multipliers.get(model_name, 0.5)] *)
Definition expected_time (audio_len : N) (model_name : str) : Q :=
  (total_duration audio_len * multiplier model_name)%Q.

(** [max(10, int(expected_time / 5))] *)
Definition steps (audio_len : N) (model_name : str) : Z :=
  Z.max 10 (py_int (expected_time audio_len model_name / 5)%Q).

(** [i / steps] *)
Definition raw_progress (i : nat) (steps : Z) : Q :=
  (inject_Z (Z.of_nat i) / inject_Z steps)%Q.

(** The ease-out curve [raw_progress * (2 - raw_progress)]. *)
Definition ease_out (raw : Q) : Q := (raw * (2 - raw))%Q.

(** The ["progress"] field of the record that [progress_callback] prints:
    [50 + int(progress * 40)], on the exact value of [progress].  The status
    text of the record depends on the wall clock and is left out. *)
Definition progress_callback (progress : Q) : Z :=
  (50 + py_int (progress * 40)%Q)%Z.

(** The loop [for i in range(steps)]: [todo] iterations remain, the next
    index is [i], and [transcription_done i] is the value of the flag that
    iteration [i] reads (the main thread sets it). *)
Fixpoint simulate_loop (transcription_done : nat -> bool) (steps : Z)
    (i todo : nat) : list Z :=
  match todo with
  | O => []
  | S todo' =>
      if transcription_done i then []
      else progress_callback (ease_out (raw_progress i steps))
           :: simulate_loop transcription_done steps (S i) todo'
  end.

(** The percentages one run of the progress thread emits, in order. *)
Definition simulate_progress (transcription_done : nat -> bool)
    (audio_len : N) (model_name : str) : list Z :=
  let steps := steps audio_len model_name in
  simulate_loop transcription_done steps 0 (Z.to_nat steps).

(** The value emitted at index [i] of a run with [s] steps. *)
Definition emitted_at (s : Z) (i : nat) : Z :=
  progress_callback (ease_out (raw_progress i s)).

(** The completion flag of a run that is never interrupted. *)
Definition never_done : nat -> bool := fun _ => false.

(** [expected_time / steps], the time the progress thread sleeps after each
    record. *)
Definition step_time (audio_len : N) (model_name : str) : Q :=
  (expected_time audio_len model_name
   / inject_Z (steps audio_len model_name))%Q.

(** ** The progress estimator in double precision

    A Python float is an IEEE 754 binary64 number and each operation on it
    rounds to nearest, ties to even: so do the primitive floats.  The
    definitions below repeat the estimator with every intermediate result
    rounded as the interpreter rounds it. *)

Module Double.

(** [float(n)] for an int below 2^63.  The true division [a / b] of two
    ints below 2^53 is the quotient of their conversions, both of which are
    exact. *)
Definition of_int (n : Z) : float := PrimFloat.of_uint63 (Uint63.of_Z n).

(** [int(x)] for a finite float: truncation toward zero.  [frexp] writes
    [x] as [f * 2^e] with [0.5 <= |f| < 1], and the mantissa of [f] is the
    integer [|f| * 2^53]; shifting by a negative amount is a shift to the
    right. *)
Definition py_int (x : float) : Z :=
  let (f, e) := FloatOps.Z.frexp x in
  let magnitude := Z.shiftl (Uint63.to_Z (normfr_mantissa f)) (e - 53) in
  if (x <? 0)%float then (- magnitude)%Z else magnitude.

(** The literals 0.1, 0.2, 0.4, 0.8 and 1.5, as the doubles that the
    interpreter reads them to. *)
Definition time_multipliers : list (str * float) :=
  [ (py "tiny", 0x1.999999999999ap-4%float);
    (py "base", 0x1.999999999999ap-3%float);
    (py "small", 0x1.999999999999ap-2%float);
    (py "medium", 0x1.999999999999ap-1%float);
    (py "large", 0x1.8p+0%float) ].

(** [len(audio) / 16000] *)
Definition total_duration (audio_len : N) : float :=
  (of_int (Z.of_N audio_len) / 16000)%float.

(** [time_multipliers.get(model_name, 0.5)] *)
Definition multiplier (model_name : str) : float :=
  dict_get time_multipliers model_name 0x1p-1%float.

(** [total_duration * time_multipliers.get(model_name, 0.5)] *)
Definition expected_time (audio_len : N) (model_name : str) : float :=
  (total_duration audio_len * multiplier model_name)%float.

(** [max(10, int(expected_time / 5))] *)
Definition steps (audio_len : N) (model_name : str) : Z :=
  Z.max 10 (py_int (expected_time audio_len model_name / 5)%float).

(** [i / steps] *)
Definition raw_progress (i steps : Z) : float :=
  (of_int i / of_int steps)%float.

(** [raw_progress * (2 - raw_progress)] *)
Definition ease_out (raw : float) : float := (raw * (2 - raw))%float.

(** The ["progress"] field that [progress_callback] prints:
    [50 + int(progress * 40)]. *)
Definition progress_callback (progress : float) : Z :=
  (50 + py_int (progress * 40)%float)%Z.

(** The loop [for i in range(steps)], with the next index [i], [todo]
    iterations left and the flag that iteration [i] reads. *)
Fixpoint simulate_loop (transcription_done : Z -> bool) (steps i : Z)
    (todo : nat) : list Z :=
  match todo with
  | O => []
  | S todo' =>
      if transcription_done i then []
      else progress_callback (ease_out (raw_progress i steps))
           :: simulate_loop transcription_done steps (i + 1) todo'
  end.

(** The percentages that one run of the progress thread prints, in
    order. *)
Definition simulate_progress (transcription_done : Z -> bool)
    (audio_len : N) (model_name : str) : list Z :=
  let steps := steps audio_len model_name in
  simulate_loop transcription_done steps 0 (Z.to_nat steps).

(** The percentage printed at index [i] of a run with [s] steps. *)
Definition emitted_at (s i : Z) : Z :=
  progress_callback (ease_out (raw_progress i s)).

(** The completion flag of a run that is never interrupted. *)
Definition never_done : Z -> bool := fun _ => false.

End Double.

(** ** Formatting numbers *)

(** [x // y] and [x % y] on floats, for a positive [y]. *)
Definition py_floordiv (x y : Q) : Q := inject_Z (Qfloor (x / y)).
Definition py_mod (x y : Q) : Q := (x - y * py_floordiv x y)%Q.

Fixpoint digits_of_uint (u : Decimal.uint) : str :=
  match u with
  | Decimal.Nil => []
  | Decimal.D0 u => 0x30 :: digits_of_uint u
  | Decimal.D1 u => 0x31 :: digits_of_uint u
  | Decimal.D2 u => 0x32 :: digits_of_uint u
  | Decimal.D3 u => 0x33 :: digits_of_uint u
  | Decimal.D4 u => 0x34 :: digits_of_uint u
  | Decimal.D5 u => 0x35 :: digits_of_uint u
  | Decimal.D6 u => 0x36 :: digits_of_uint u
  | Decimal.D7 u => 0x37 :: digits_of_uint u
  | Decimal.D8 u => 0x38 :: digits_of_uint u
  | Decimal.D9 u => 0x39 :: digits_of_uint u
  end.

(** The decimal digits of a natural number. *)
Definition digits (n : N) : str := digits_of_uint (N.to_uint n).

(** [s.zfill(width)] for a string of digits. *)
Definition zfill (width : nat) (s : str) : str :=
  repeat 0x30 (width - List.length s) ++ s.

(** The format specification [{n:0<width>d}] of an f-string: the sign
    counts in the width. *)
Definition format_d (width : nat) (n : Z) : str :=
  if (n <? 0)%Z
  then 0x2d :: zfill (width - 1) (digits (Z.to_N (- n)))
  else zfill width (digits (Z.to_N n)).

(** [{n}] for an integer: [str(n)]. *)
Definition str_of_int (n : Z) : str := format_d 0 n.

(** ** The subtitle formatters (video_transcriber.py) *)

Record segment := {
  seg_start : Q;
  seg_end : Q;
  seg_text : str
}.

(** The result of [model.transcribe], as far as the formatters read it. *)
Record transcription := {
  result_text : str;
  result_segments : list segment;
  result_language : option str
}.

Definition nl : str := [0x0a].

(** [format_time]: HH:MM:SS,mmm for SubRip.  The fields are computed on the
    exact value of [seconds].  The interpreter rounds the product
    [(seconds % 1) * 1000] before it truncates it, so the milliseconds that
    it prints can differ by one from the ones below: for the double nearest
    to 0.009 it prints 009, and the exact arithmetic gives 008.  The two
    agree when the product is exact, as it is for the times 0 and 1.5 of
    the examples. *)
Definition format_time (seconds : Q) : str :=
  let hours := py_int (py_floordiv seconds 3600) in
  let minutes := py_int (py_floordiv (py_mod seconds 3600) 60) in
  let secs := py_int (py_mod seconds 60) in
  let millis := py_int (py_mod seconds 1 * 1000)%Q in
  format_d 2 hours ++ py ":" ++ format_d 2 minutes ++ py ":"
  ++ format_d 2 secs ++ py "," ++ format_d 3 millis.

(** [format_time_vtt]: HH:MM:SS.mmm for WebVTT, with the same arithmetic. *)
Definition format_time_vtt (seconds : Q) : str :=
  let hours := py_int (py_floordiv seconds 3600) in
  let minutes := py_int (py_floordiv (py_mod seconds 3600) 60) in
  let secs := py_int (py_mod seconds 60) in
  let millis := py_int (py_mod seconds 1 * 1000)%Q in
  format_d 2 hours ++ py ":" ++ format_d 2 minutes ++ py ":"
  ++ format_d 2 secs ++ py "." ++ format_d 3 millis.

(** The files that have been written: path and content, latest first.
    The content is the text handed to [f.write]; the translation of line
    ends by the text layer of the platform is not modelled. *)
Definition filesystem := list (str * str).

(** [with open(path, 'w', encoding='utf-8') as f] and the writes of its
    body, whose concatenation is [content], when all of them succeed.  A
    file is named by the spelling of its path: two spellings of one file
    are two entries.  The failures of [open] and of the writes are part of
    the front-end model ([Gui.write_file_outcome]). *)
Definition write_file (path content : str) (fs : filesystem) : filesystem :=
  (path, content) :: fs.

Fixpoint read_file (path : str) (fs : filesystem) : option str :=
  match fs with
  | [] => None
  | (p, content) :: fs' =>
      if str_eqb path p then Some content else read_file path fs'
  end.

(** The loop [for i, segment in enumerate(result['segments'], 1)] of the
    SubRip branch: the text written from index [i] on. *)
Fixpoint srt_body (i : nat) (segments : list segment) : str :=
  match segments with
  | [] => []
  | segment :: segments' =>
      let start_time := format_time (seg_start segment) in
      let end_time := format_time (seg_end segment) in
      let text := strip (seg_text segment) in
      (str_of_int (Z.of_nat i) ++ nl ++ start_time ++ py " --> " ++ end_time
       ++ nl ++ text ++ nl ++ nl)
      ++ srt_body (S i) segments'
  end.

(** The loop [for segment in result['segments']] of the WebVTT branch. *)
Fixpoint vtt_body (segments : list segment) : str :=
  match segments with
  | [] => []
  | segment :: segments' =>
      let start_time := format_time_vtt (seg_start segment) in
      let end_time := format_time_vtt (seg_end segment) in
      let text := strip (seg_text segment) in
      (start_time ++ py " --> " ++ end_time ++ nl ++ text ++ nl ++ nl)
      ++ vtt_body segments'
  end.

Section SaveTranscription.

(** [json.dump(result, f, indent=2, ensure_ascii=False)]: the text of the
    whole Whisper result, from the json library. *)
Variable json_dump_indent : transcription -> str.

(** [save_transcription]: the file system after the call. *)
Definition save_transcription (result : transcription)
    (output_path format_type : str) (fs : filesystem) : filesystem :=
  if str_eqb format_type (py "txt") then
    write_file output_path (result_text result) fs
  else if str_eqb format_type (py "srt") then
    write_file output_path (srt_body 1 (result_segments result)) fs
  else if str_eqb format_type (py "vtt") then
    write_file output_path
      (py "WEBVTT" ++ nl ++ nl ++ vtt_body (result_segments result)) fs
  else if str_eqb format_type (py "json") then
    write_file output_path (json_dump_indent result) fs
  else fs.

End SaveTranscription.

(** ** The codecs of the delivery channel

    Bytes are numbers below 256. *)

(** [c.encode('utf-8')] for one character, with the default strict error
    handling: surrogate code points are refused. *)
Definition utf8_encode_char (c : N) : option (list N) :=
  if c <? 0x80 then Some [c]
  else if c <? 0x800 then Some [0xC0 + c / 64; 0x80 + c mod 64]
  else if c <? 0x10000 then
    if (0xD800 <=? c) && (c <=? 0xDFFF) then None
    else Some [0xE0 + c / 4096; 0x80 + (c / 64) mod 64; 0x80 + c mod 64]
  else if c <? 0x110000 then
    Some [0xF0 + c / 262144; 0x80 + (c / 4096) mod 64;
          0x80 + (c / 64) mod 64; 0x80 + c mod 64]
  else None.

(** [s.encode('utf-8')]; [None] stands for [UnicodeEncodeError]. *)
Fixpoint utf8_encode (s : str) : option (list N) :=
  match s with
  | [] => Some []
  | c :: s' =>
      match utf8_encode_char c, utf8_encode s' with
      | Some b, Some bs => Some (b ++ bs)
      | _, _ => None
      end
  end.

(** The base64 alphabet: A-Z, a-z, 0-9, plus, slash. *)
Definition b64_char (i : N) : N :=
  if i <? 26 then 0x41 + i
  else if i <? 52 then 0x61 + (i - 26)
  else if i <? 62 then 0x30 + (i - 52)
  else if i =? 62 then 0x2b
  else 0x2f.

(** The padding character, the equals sign. *)
Definition b64_pad : N := 0x3d.

(** [base64.b64encode(bs).decode('ascii')] *)
Fixpoint b64encode (bs : list N) : str :=
  match bs with
  | [] => []
  | [b0] =>
      [b64_char (b0 / 4); b64_char ((b0 mod 4) * 16); b64_pad; b64_pad]
  | [b0; b1] =>
      [b64_char (b0 / 4); b64_char ((b0 mod 4) * 16 + b1 / 16);
       b64_char ((b1 mod 16) * 4); b64_pad]
  | b0 :: b1 :: b2 :: rest =>
      [b64_char (b0 / 4); b64_char ((b0 mod 4) * 16 + b1 / 16);
       b64_char ((b1 mod 16) * 4 + b2 / 64); b64_char (b2 mod 64)]
      ++ b64encode rest
  end.

(** Modelled from the spec: the receiving side of the delivery channel
    (the parent process) is not among the sources; section 4.3 says that it
    extracts the base64 span between the delimiters, decodes it and parses
    the inner text.  The decoders below are the standard inverses of the
    encoders above: base64 with padding, strict UTF-8, and JSON. *)
Definition b64_index (c : N) : option N :=
  if (0x41 <=? c) && (c <=? 0x5a) then Some (c - 0x41)
  else if (0x61 <=? c) && (c <=? 0x7a) then Some (c - 0x61 + 26)
  else if (0x30 <=? c) && (c <=? 0x39) then Some (c - 0x30 + 52)
  else if c =? 0x2b then Some 62
  else if c =? 0x2f then Some 63
  else None.

(** Modelled from the spec: base64 decoding on the receiving side, four
    characters at a time, padding only in the last group. *)
Fixpoint b64decode (s : str) : option (list N) :=
  match s with
  | [] => Some []
  | c0 :: c1 :: c2 :: c3 :: rest =>
      match b64_index c0, b64_index c1 with
      | Some i0, Some i1 =>
          let b0 := i0 * 4 + i1 / 16 in
          if c2 =? b64_pad then
            match rest with
            | [] => if c3 =? b64_pad then Some [b0] else None
            | _ => None
            end
          else
            match b64_index c2 with
            | Some i2 =>
                let b1 := (i1 mod 16) * 16 + i2 / 4 in
                if c3 =? b64_pad then
                  match rest with
                  | [] => Some [b0; b1]
                  | _ => None
                  end
                else
                  match b64_index c3, b64decode rest with
                  | Some i3, Some bs =>
                      Some (b0 :: b1 :: (i2 mod 4) * 64 + i3 :: bs)
                  | _, _ => None
                  end
            | None => None
            end
      | _, _ => None
      end
  | _ => None
  end.

Definition is_continuation (b : N) : bool := (0x80 <=? b) && (b <? 0xC0).

(** Modelled from the spec: strict UTF-8 decoding on the receiving side;
    overlong forms, surrogates and values above U+10FFFF are refused. *)
Fixpoint utf8_decode (bs : list N) : option str :=
  match bs with
  | [] => Some []
  | b0 :: t0 =>
      if b0 <? 0x80 then option_map (cons b0) (utf8_decode t0)
      else if b0 <? 0xC0 then None
      else if b0 <? 0xE0 then
        match t0 with
        | b1 :: t1 =>
            let c := (b0 - 0xC0) * 64 + (b1 - 0x80) in
            if is_continuation b1 && (0x80 <=? c)
            then option_map (cons c) (utf8_decode t1) else None
        | _ => None
        end
      else if b0 <? 0xF0 then
        match t0 with
        | b1 :: b2 :: t2 =>
            let c := ((b0 - 0xE0) * 64 + (b1 - 0x80)) * 64 + (b2 - 0x80) in
            if is_continuation b1 && is_continuation b2 && (0x800 <=? c)
               && negb ((0xD800 <=? c) && (c <=? 0xDFFF))
            then option_map (cons c) (utf8_decode t2) else None
        | _ => None
        end
      else if b0 <? 0xF8 then
        match t0 with
        | b1 :: b2 :: b3 :: t3 =>
            let c := (((b0 - 0xF0) * 64 + (b1 - 0x80)) * 64 + (b2 - 0x80)) * 64
                     + (b3 - 0x80) in
            if is_continuation b1 && is_continuation b2 && is_continuation b3
               && (0x10000 <=? c) && (c <? 0x110000)
            then option_map (cons c) (utf8_decode t3) else None
        | _ => None
        end
      else None
  end.

(** ** JSON text of a flat dict ([json.dumps])

    The dicts that the batch script serializes hold strings and one float.
    A float is represented by the text that [float.__repr__] gives for it,
    which is what [json.dumps] writes; on finite floats the text determines
    the value. *)

Inductive jvalue :=
| JStr (s : str)
| JFloat (repr : str).

(** A dict with [str] keys, in insertion order. *)
Definition pydict := list (str * jvalue).

(** One lower-case hexadecimal digit, as in the format [{0:04x}]. *)
Definition hex_digit (d : N) : N :=
  if d <? 10 then 0x30 + d else 0x61 + (d - 10).

(** The replacement of one character inside a JSON string when
    [ensure_ascii] is false: the quote, the backslash and the control
    characters below U+0020 are escaped, everything else is kept. *)
Definition json_escape_char (c : N) : str :=
  if c =? 0x22 then [0x5c; 0x22]
  else if c =? 0x5c then [0x5c; 0x5c]
  else if c =? 0x0a then [0x5c; 0x6e]
  else if c =? 0x0d then [0x5c; 0x72]
  else if c =? 0x09 then [0x5c; 0x74]
  else if c =? 0x08 then [0x5c; 0x62]
  else if c =? 0x0c then [0x5c; 0x66]
  else if c <? 0x20 then
    [0x5c; 0x75; 0x30; 0x30; hex_digit (c / 16); hex_digit (c mod 16)]
  else [c].

Definition json_string (s : str) : str :=
  [0x22] ++ flat_map json_escape_char s ++ [0x22].

Definition json_value (v : jvalue) : str :=
  match v with
  | JStr s => json_string s
  | JFloat repr => repr
  end.

Definition json_item (kv : str * jvalue) : str :=
  json_string (fst kv) ++ py ": " ++ json_value (snd kv).

(** [sep.join(parts)] *)
Fixpoint join (sep : str) (parts : list str) : str :=
  match parts with
  | [] => []
  | [part] => part
  | part :: parts' => part ++ sep ++ join sep parts'
  end.

(** [json.dumps(d, ensure_ascii=False)] *)
Definition json_dumps (d : pydict) : str :=
  match d with
  | [] => py "{}"
  | _ => py "{" ++ join (py ", ") (map json_item d) ++ py "}"
  end.

(** [json.dumps(d, ensure_ascii=False, indent=2)], the text that
    [json.dump] writes to the file. *)
Definition json_dumps_indent (d : pydict) : str :=
  match d with
  | [] => py "{}"
  | _ =>
      py "{" ++ nl ++ py "  "
      ++ join (py "," ++ nl ++ py "  ") (map json_item d)
      ++ nl ++ py "}"
  end.

(** ** The result delivery channel (whisper_cli.py, the last [try]) *)

Definition delimiter : str := py "===TRANSCRIPTION_RESULT_B64===".

(** The line that is printed for a result: the JSON text, encoded as UTF-8,
    encoded as base64, between two delimiters.  [None] when the encoding
    raises. *)
Definition delivery_line (final_result : pydict) : option str :=
  let json_str := json_dumps final_result in
  match utf8_encode json_str with
  | Some json_bytes =>
      let json_base64 := b64encode json_bytes in
      Some (delimiter ++ json_base64 ++ delimiter)
  | None => None
  end.

(** Modelled from the spec: the JSON reader of the receiving side, for a
    flat object of strings and numbers.  A number is kept as its token. *)
Definition json_ws (c : N) : bool :=
  (c =? 0x20) || (c =? 0x09) || (c =? 0x0a) || (c =? 0x0d).

Fixpoint skip_ws (s : str) : str :=
  match s with
  | c :: s' => if json_ws c then skip_ws s' else s
  | [] => []
  end.

Definition hex_value (c : N) : option N :=
  if (0x30 <=? c) && (c <=? 0x39) then Some (c - 0x30)
  else if (0x61 <=? c) && (c <=? 0x66) then Some (c - 0x61 + 10)
  else if (0x41 <=? c) && (c <=? 0x46) then Some (c - 0x41 + 10)
  else None.

(** What a one-letter escape stands for. *)
Definition unescape (e : N) : option N :=
  if e =? 0x22 then Some 0x22
  else if e =? 0x5c then Some 0x5c
  else if e =? 0x2f then Some 0x2f
  else if e =? 0x6e then Some 0x0a
  else if e =? 0x72 then Some 0x0d
  else if e =? 0x74 then Some 0x09
  else if e =? 0x62 then Some 0x08
  else if e =? 0x66 then Some 0x0c
  else None.

Definition prepend (c : N) (r : option (str * str)) : option (str * str) :=
  match r with
  | Some (content, rest) => Some (c :: content, rest)
  | None => None
  end.

(** Modelled from the spec: the body of a JSON string, read after its
    opening quote: the content and the text after the closing quote.  An
    escape [\uXXXX] gives the code point XXXX. *)
Fixpoint parse_string_body (s : str) : option (str * str) :=
  match s with
  | [] => None
  | c :: s' =>
      if c =? 0x22 then Some ([], s')
      else if c =? 0x5c then
        match s' with
        | [] => None
        | e :: s'' =>
            if e =? 0x75 then
              match s'' with
              | h0 :: h1 :: h2 :: h3 :: s3 =>
                  match hex_value h0, hex_value h1, hex_value h2, hex_value h3 with
                  | Some v0, Some v1, Some v2, Some v3 =>
                      prepend (((v0 * 16 + v1) * 16 + v2) * 16 + v3)
                              (parse_string_body s3)
                  | _, _, _, _ => None
                  end
              | _ => None
              end
            else
              match unescape e with
              | Some v => prepend v (parse_string_body s'')
              | None => None
              end
        end
      else if c <? 0x20 then None
      else prepend c (parse_string_body s')
  end.

(** The characters of a number token. *)
Definition is_number_char (c : N) : bool :=
  (0x30 <=? c) && (c <=? 0x39)
  || (c =? 0x2d) || (c =? 0x2b) || (c =? 0x2e) || (c =? 0x65) || (c =? 0x45).

(** The longest prefix of number characters, and what follows it. *)
Fixpoint span_number (s : str) : str * str :=
  match s with
  | c :: s' =>
      if is_number_char c
      then let (token, rest) := span_number s' in (c :: token, rest)
      else ([], s)
  | [] => ([], [])
  end.

(** Modelled from the spec: one JSON value of the receiving side, a string
    or a number. *)
Definition parse_value (s : str) : option (jvalue * str) :=
  match s with
  | [] => None
  | c :: s' =>
      if c =? 0x22 then
        match parse_string_body s' with
        | Some (content, rest) => Some (JStr content, rest)
        | None => None
        end
      else
        match span_number s with
        | ([], _) => None
        | (token, rest) => Some (JFloat token, rest)
        end
  end.

(** Modelled from the spec: the members of a JSON object up to its closing
    brace, on the receiving side.  Every member uses up one unit of
    [fuel]; [json_loads] gives more fuel than the text has characters. *)
Fixpoint parse_members (fuel : nat) (s : str) : option (pydict * str) :=
  match fuel with
  | O => None
  | S fuel' =>
      match skip_ws s with
      | [] => None
      | q :: s1 =>
          if q =? 0x22 then
            match parse_string_body s1 with
            | None => None
            | Some (key, s2) =>
                match skip_ws s2 with
                | [] => None
                | colon :: s3 =>
                    if colon =? 0x3a then
                      match parse_value (skip_ws s3) with
                      | None => None
                      | Some (v, s4) =>
                          match skip_ws s4 with
                          | [] => None
                          | sep :: s5 =>
                              if sep =? 0x2c then
                                match parse_members fuel' s5 with
                                | Some (d, rest) => Some ((key, v) :: d, rest)
                                | None => None
                                end
                              else if sep =? 0x7d then Some ([(key, v)], s5)
                              else None
                          end
                      end
                    else None
                end
            end
          else None
      end
  end.

(** Modelled from the spec: parsing the inner text as the structured
    result, on the receiving side. *)
Definition json_loads (s : str) : option pydict :=
  match skip_ws s with
  | [] => None
  | open :: s1 =>
      if open =? 0x7b then
        match skip_ws s1 with
        | [] => None
        | c :: s2 =>
            if c =? 0x7d then
              match skip_ws s2 with [] => Some [] | _ => None end
            else
              match parse_members (S (List.length s1)) s1 with
              | Some (d, rest) =>
                  match skip_ws rest with [] => Some d | _ => None end
              | None => None
              end
        end
      else None
  end.

Fixpoint starts_with (prefix s : str) : bool :=
  match prefix, s with
  | [], _ => true
  | p :: prefix', c :: s' => (p =? c) && starts_with prefix' s'
  | _ :: _, [] => false
  end.

(** [s.partition(sep)] when [sep] occurs in [s]: the text before its first
    occurrence and the text after it. *)
Fixpoint partition (sep s : str) : option (str * str) :=
  if starts_with sep s then Some ([], skipn (List.length sep) s)
  else
    match s with
    | [] => None
    | c :: s' =>
        match partition sep s' with
        | Some (before, after) => Some (c :: before, after)
        | None => None
        end
    end.

(** Modelled from the spec: the receiving side scans the stream for the
    delimiter and extracts the span up to the next delimiter. *)
Definition extract_span (stream : str) : option str :=
  match partition delimiter stream with
  | Some (_, after) =>
      match partition delimiter after with
      | Some (span, _) => Some span
      | None => None
      end
  | None => None
  end.

(** Modelled from the spec: the receiving side of the delivery channel. *)
Definition receive (stream : str) : option pydict :=
  match extract_span stream with
  | Some span =>
      match b64decode span with
      | Some bytes =>
          match utf8_decode bytes with
          | Some text => json_loads text
          | None => None
          end
      | None => None
      end
  | None => None
  end.

(** ** Effects: exceptions and traces *)

(** An exception that [except Exception] catches, with its [str(e)]. *)
Record exn := { exn_message : str }.

Inductive outcome (A : Type) :=
| Returns (a : A)
| Raises (e : exn).

Arguments Returns {A} a.
Arguments Raises {A} e.

(** Computations that append events to a trace and may raise. *)
Definition M (E A : Type) : Type := list E * outcome A.

Definition ret {E A} (a : A) : M E A := ([], Returns a).

Definition bind {E A B} (m : M E A) (k : A -> M E B) : M E B :=
  match m with
  | (t, Returns a) => let (t', r) := k a in (t ++ t', r)
  | (t, Raises e) => (t, Raises e)
  end.

Definition raise {E A} (e : exn) : M E A := ([], Raises e).

Definition emit {E} (ev : E) : M E unit := ([ev], Returns tt).

(** An external call: the event, then what the world answers. *)
Definition call {E A} (ev : E) (answer : outcome A) : M E A := ([ev], answer).

(** [try: body / except Exception as e: handler e] *)
Definition try_except {E A} (body : M E A) (handler : exn -> M E A) : M E A :=
  match body with
  | (t, Returns a) => (t, Returns a)
  | (t, Raises e) => let (t', r) := handler e in (t ++ t', r)
  end.

Notation "x <- m ;; k" := (bind m (fun x => k))
  (at level 61, m at next level, right associativity).
Notation "m ;;; k" := (bind m (fun _ => k))
  (at level 61, right associativity).

(** ** The batch invoker (whisper_cli.py) *)

Module Cli.

(** What a run does that can be observed, in order.  The records on
    standard output are kept structured: [Progress p s] is the line
    [json.dumps({"progress": p, "status": s})]. *)
Inductive event :=
| Progress (progress : Z) (status : str)
| Payload (line : str)
| LogError (message : str)
| LogInfo (message : str)
| LoadModel (model_name : str)
| LoadAudio (video_path : str)
| Transcribe (audio_len : N) (language : option str)
| MakeDirs (path : str)
| OpenForWriting (path : str)
| WriteBytes (path : str) (content : list N).

(** The environment of a run: what the calls into Whisper, the operating
    system and the interpreter's libraries return or raise. *)
Record world := {
  device : str;
  (** the text ["GPU: <name> (<memory> GB)"] *)
  gpu_status : str;
  (** [whisper.load_model(model_name, device=device)] *)
  load_model : str -> outcome unit;
  (** [whisper.load_audio(video_path)]: the number of samples *)
  load_audio : str -> outcome N;
  (** [model.transcribe(audio, **options, verbose=False)]: the string
      entries of the result dict *)
  transcribe : N -> option str -> outcome (list (str * str));
  (** [os.path.exists] *)
  path_exists : str -> bool;
  (** the Unicode character database *)
  normalize_NFKD : str -> str;
  isprintable : N -> bool;
  (** [float.__repr__], the text that [json.dumps] writes for a float *)
  float_repr : Q -> str;
  (** [datetime.now().isoformat()], [datetime.now().strftime(...)] *)
  now_isoformat : str;
  now_strftime : str;
  (** [os.getcwd()], [os.path.join],
      [os.path.splitext(os.path.basename(p))[0]] *)
  getcwd : str;
  path_join : str -> str -> str;
  video_basename : str -> str;
  (** [os.makedirs(path, exist_ok=True)], [open(path, 'w')] and the write
      of the encoded text with the close of the file *)
  makedirs : str -> outcome unit;
  open_w : str -> outcome unit;
  write_bytes : str -> list N -> outcome unit;
  (** the [UnicodeEncodeError] that encoding a text raises *)
  utf8_error : str -> exn
}.

(** [print(json.dumps({"progress": p, "status": s}), flush=True)] *)
Definition print_progress (p : Z) (status : str) : M event unit :=
  emit (Progress p status).

(** The format [{x:.0f}]: rounding to the nearest integer, ties to even. *)
Definition round_half_even (x : Q) : Z :=
  let f := Qfloor x in
  let d := (x - inject_Z f)%Q in
  match (d ?= 1 # 2)%Q with
  | Lt => f
  | Gt => (f + 1)%Z
  | Eq => if Z.even f then f else (f + 1)%Z
  end.

Definition format_0f (x : Q) : str :=
  let r := round_half_even x in
  if (r =? 0)%Z && negb (Qle_bool 0 x) then py "-0" else str_of_int r.

(** The inner [format_time]: a duration for the status texts. *)
Definition format_time (seconds : Q) : str :=
  if negb (Qle_bool 60 seconds) then format_0f seconds ++ py "s"
  else if negb (Qle_bool 3600 seconds) then
    let minutes := py_floordiv seconds 60 in
    let secs := py_mod seconds 60 in
    format_0f minutes ++ py "m " ++ format_0f secs ++ py "s"
  else
    let hours := py_floordiv seconds 3600 in
    let minutes := py_floordiv (py_mod seconds 3600) 60 in
    let secs := py_mod seconds 60 in
    format_0f hours ++ py "h " ++ format_0f minutes ++ py "m "
    ++ format_0f secs ++ py "s".

(** [{'language': language} if language else {}]: the language hint that
    reaches the model. *)
Definition options (language : option str) : option str :=
  match language with
  | Some (c :: l) => Some (c :: l)
  | _ => None
  end.

(** The dict [final_result] as it is first built. *)
Definition initial_result (w : world) (text : str)
    (result : list (str * str)) (model_name : str) (duration : Q) : pydict :=
  [ (py "text", JStr text);
    (py "language", JStr (dict_get result (py "language") (py "unknown")));
    (py "timestamp", JStr (now_isoformat w));
    (py "model", JStr model_name);
    (py "duration", JFloat (float_repr w duration)) ].

(** The body of the [try] that saves the result under ./transcriptions/:
    it returns the result with its ["saved_file"] entry.  The text is
    encoded as a whole here.  [json.dump] hands it to the file in pieces, so
    when a piece cannot be encoded the pieces before it are already in the
    file: of that case the model keeps the exception and the trace up to
    the opening of the file, not the truncated content. *)
Definition save_result (w : world) (video_path : str) (final_result : pydict)
    : M event pydict :=
  let transcriptions_dir := path_join w (getcwd w) (py "transcriptions") in
  call (MakeDirs transcriptions_dir) (makedirs w transcriptions_dir) ;;;
  let timestamp := now_strftime w in
  let video_basename := video_basename w video_path in
  let json_filename := video_basename ++ py "_" ++ timestamp ++ py ".json" in
  let json_filepath := path_join w transcriptions_dir json_filename in
  call (OpenForWriting json_filepath) (open_w w json_filepath) ;;;
  let content := json_dumps_indent final_result in
  match utf8_encode content with
  | None => raise (utf8_error w content)
  | Some bytes =>
      call (WriteBytes json_filepath bytes)
           (write_bytes w json_filepath bytes) ;;;
      let final_result := final_result ++ [(py "saved_file", JStr json_filepath)] in
      print_progress 95 (py "Saved transcription to " ++ json_filename) ;;;
      ret final_result
  end.

(** The body of the [try] that sends the result. *)
Definition send_result (w : world) (text : str) (final_result : pydict)
    : M event unit :=
  let json_str := json_dumps final_result in
  match utf8_encode json_str with
  | None => raise (utf8_error w json_str)
  | Some json_bytes =>
      let json_base64 := b64encode json_bytes in
      emit (LogInfo (py "Sending transcription result (length: "
                     ++ str_of_int (Z.of_nat (List.length text))
                     ++ py " chars)")) ;;;
      emit (LogInfo (py "Base64 JSON length: "
                     ++ str_of_int (Z.of_nat (List.length json_base64))
                     ++ py " chars")) ;;;
      emit (Payload (delimiter ++ json_base64 ++ delimiter))
  end.

(** The [except] clause of the [try] that saves the result: the result
    is kept without a ["saved_file"] entry. *)
Definition save_handler (final_result : pydict) (e : exn) : M event pydict :=
  emit (LogError (py "Error saving transcription file: " ++ exn_message e)) ;;;
  print_progress 0 (py "Error saving file: " ++ exn_message e) ;;;
  ret final_result.

(** The [except] clause of the [try] that sends the result. *)
Definition send_handler (e : exn) : M event unit :=
  emit (LogError (py "Error formatting result: " ++ exn_message e)) ;;;
  print_progress 0 (py "Error formatting result: " ++ exn_message e).

(** What follows the inference call, from the record "Finalizing" on. *)
Definition finalize (w : world) (video_path model_name : str)
    (duration : Q) (result : list (str * str)) : M event (option pydict) :=
  print_progress 90 (py "Finalizing transcription...") ;;;
  match result with
  | [] =>
      print_progress 0 (py "Error: No transcription result") ;;;
      ret None
  | _ =>
      match strip (dict_get result (py "text") []) with
      | [] =>
          print_progress 0 (py "Error: Empty transcription result") ;;;
          ret None
      | text =>
          let text := sanitize_for_json (normalize_NFKD w) (isprintable w) text in
          let final_result := initial_result w text result model_name duration in
          final_result <-
            try_except (save_result w video_path final_result)
              (save_handler final_result) ;;
          try_except (send_result w text final_result) send_handler ;;;
          ret (Some final_result)
      end
  end.

(** [transcribe_video(video_path, model_name, language)] on the main
    thread.  The progress thread runs between the record "Audio loaded" and
    the return of the inference call; what it prints is
    [simulate_progress]. *)
Definition transcribe_video (w : world) (video_path model_name : str)
    (language : option str) : M event (option pydict) :=
  try_except
    (print_progress 10 (py "Starting transcription: " ++ model_name
                        ++ py " model") ;;;
     print_progress 10 (py "Loading model...") ;;;
     call (LoadModel model_name) (load_model w model_name) ;;;
     print_progress 30 (py "Model loaded, detecting audio...") ;;;
     audio <- call (LoadAudio video_path) (load_audio w video_path) ;;
     let duration := total_duration audio in
     let estimated_time := (duration * multiplier model_name)%Q in
     print_progress 50 (py "Audio loaded (" ++ format_time duration
                        ++ py "), estimated time: "
                        ++ format_time estimated_time) ;;;
     result <-
       try_except
         (call (Transcribe audio (options language))
               (transcribe w audio (options language)))
         (fun e => raise e) ;;
     finalize w video_path model_name duration result)
    (fun e =>
       emit (LogError (py "Error during transcription: " ++ exn_message e)) ;;;
       print_progress 0 (py "Error: " ++ exn_message e) ;;;
       raise e).

(** The records that the module prints when it is loaded. *)
Definition startup (w : world) : list event :=
  Progress 5 (py "Using device: " ++ device w)
  :: (if str_eqb (device w) (py "cuda")
      then [Progress 8 (gpu_status w)] else []).

(** The script, from its first line to the end of [main], after the
    arguments are parsed: the trace and the exit status of the process. *)
Definition main (w : world) (video_path model : str)
    (language : option str) : list event * Z :=
  match transcribe_video w video_path model language with
  | (t, Returns _) => (startup w ++ t, 0%Z)
  | (t, Raises e) =>
      (startup w ++ t
       ++ [LogError (py "Transcription failed: " ++ exn_message e)], 1%Z)
  end.

Definition is_payload (ev : event) : bool :=
  match ev with Payload _ => true | _ => false end.

Definition is_transcribe (ev : event) : bool :=
  match ev with Transcribe _ _ => true | _ => false end.

(** The number of delivery lines in a trace. *)
Definition deliveries (t : list event) : nat :=
  List.length (filter is_payload t).

End Cli.

(** ** The interactive front-end (video_transcriber.py) *)

Module Gui.

Definition SUPPORTED_FORMATS : list str :=
  [ py ".mp4"; py ".avi"; py ".mkv"; py ".mov"; py ".wmv"; py ".flv";
    py ".webm"; py ".m4v" ].

(** What one run of the Streamlit script shows and calls, in order. *)
Inductive event :=
| St_success (message : str)
| St_warning (message : str)
| St_error (message : str)
| St_info (message : str)
| St_download (file_name : str)
| Log (level message : str)
| UpdateProgress (progress : Z) (status : str)
| ClearLogs
| LoadModel (model_name : str)
| Transcribe (video_path : str) (language : option str)
| SaveFile (output_path : str) (content : option str).

Record world := {
  (** [os.path.exists], [os.listdir], [str.lower] *)
  path_exists : str -> bool;
  listdir : str -> outcome (list str);
  str_lower : str -> str;
  (** [whisper.load_model(model_name)] and
      [model.transcribe(video_path, **transcribe_options)] *)
  load_model : str -> outcome unit;
  transcribe : str -> option str -> outcome transcription;
  (** [os.path.join], [os.path.basename], [Path(p).stem] *)
  path_join : str -> str -> str;
  path_basename : str -> str;
  path_stem : str -> str;
  (** what opening and writing the output file answers *)
  write_file_outcome : str -> outcome unit;
  (** [json.dump(result, f, indent=2, ensure_ascii=False)] *)
  json_dump_indent : transcription -> str
}.

(** The widgets of one run: the texts entered, the choices made (already
    looked up in [WHISPER_MODELS], [LANGUAGES] and [OUTPUT_FORMATS]) and
    the buttons pressed. *)
Record inputs := {
  folder_path : str;
  video_choice : nat;
  model_name : str;
  language : option str;
  output_format : str;
  output_folder : str;
  clear_logs_clicked : bool;
  start_clicked : bool
}.

(** [s.endswith(suffix)] *)
Definition ends_with (suffix s : str) : bool :=
  starts_with (rev suffix) (rev s).

(** The order of [str] values: by code points, a prefix first. *)
Fixpoint str_leb (a b : str) : bool :=
  match a, b with
  | [], _ => true
  | _ :: _, [] => false
  | c :: a', d :: b' => (c <? d) || (c =? d) && str_leb a' b'
  end.

Fixpoint insert_sorted (x : str) (l : list str) : list str :=
  match l with
  | [] => [x]
  | y :: l' => if str_leb x y then x :: l else y :: insert_sorted x l'
  end.

(** [sorted(l)] *)
Definition sorted (l : list str) : list str :=
  fold_right insert_sorted [] l.

(** [get_video_files(folder_path)] *)
Definition get_video_files (w : world) (folder_path : str)
    : M event (list str) :=
  match folder_path with
  | [] => ret []
  | _ =>
      if negb (path_exists w folder_path) then ret []
      else
        match listdir w folder_path with
        | Raises e => raise e
        | Returns files =>
            ret (sorted
                   (filter
                      (fun file =>
                         existsb (fun ext => ends_with ext (str_lower w file))
                                 SUPPORTED_FORMATS)
                      files))
        end
  end.

(** [transcription_logger.log(message, level)] *)
Definition log (message level : str) : M event unit :=
  emit (Log level message).

(** [transcribe_video(video_path, model_name, language, output_format,
    output_folder, transcription_logger)]: the output path, or [None]. *)
Definition transcribe_video (w : world) (video_path model_name : str)
    (language : option str) (output_format output_folder : str)
    : M event (option str) :=
  try_except
    (log (py "Starting transcription of: " ++ path_basename w video_path)
         (py "INFO") ;;;
     emit (UpdateProgress 10 (py "Loading Whisper model...")) ;;;
     call (LoadModel model_name) (load_model w model_name) ;;;
     log (py "Loaded Whisper model: " ++ model_name) (py "INFO") ;;;
     emit (UpdateProgress 20 (py "Model loaded, processing audio...")) ;;;
     let transcribe_options := Cli.options language in
     result <- call (Transcribe video_path transcribe_options)
                    (transcribe w video_path transcribe_options) ;;
     emit (UpdateProgress 80 (py "Transcription complete, saving file...")) ;;;
     log (py "Transcription completed. Detected language: "
          ++ match result_language result with
             | Some l => l
             | None => py "unknown"
             end) (py "INFO") ;;;
     let video_name := path_stem w video_path in
     let output_filename :=
       video_name ++ py "_transcription." ++ output_format in
     let output_path := path_join w output_folder output_filename in
     let written :=
       read_file output_path
         (save_transcription (json_dump_indent w) result output_path
            output_format []) in
     match written with
     | Some content =>
         call (SaveFile output_path written) (write_file_outcome w output_path)
     | None => ret tt
     end ;;;
     emit (UpdateProgress 100 (py "Completed!")) ;;;
     log (py "Transcription saved to: " ++ output_path) (py "INFO") ;;;
     ret (Some output_path))
    (fun e =>
       log (py "Error during transcription: " ++ exn_message e) (py "ERROR") ;;;
       emit (UpdateProgress 0 (py "Error occurred")) ;;;
       ret None).

(** The first column of [main]: the folder, and the video that is
    selected in it. *)
Definition select_video (w : world) (ui : inputs) : M event (option str) :=
  match folder_path ui with
  | [] => ret None
  | _ =>
      if path_exists w (folder_path ui) then
        video_files <- get_video_files w (folder_path ui) ;;
        match video_files with
        | [] =>
            emit (St_warning (py "No video files found in the selected folder")) ;;;
            ret None
        | first :: _ =>
            emit (St_success
                    (py "Found "
                     ++ str_of_int (Z.of_nat (List.length video_files))
                     ++ py " video file(s)")) ;;;
            ret (Some (nth (video_choice ui) video_files first))
        end
      else
        emit (St_error (py "Folder path does not exist")) ;;;
        ret None
  end.

(** The handler of the button "Start Transcription". *)
Definition start_transcription (w : world) (ui : inputs)
    (selected_video : option str) : M event unit :=
  match selected_video with
  | None | Some [] => emit (St_error (py "Please select a video file"))
  | Some selected_video =>
      match output_folder ui with
      | [] => emit (St_error (py "Please specify a valid output folder"))
      | _ =>
          if negb (path_exists w (output_folder ui)) then
            emit (St_error (py "Please specify a valid output folder"))
          else
            let video_path := path_join w (folder_path ui) selected_video in
            emit ClearLogs ;;;
            output_path <-
              transcribe_video w video_path (model_name ui) (language ui)
                (output_format ui) (output_folder ui) ;;
            match output_path with
            | Some (c :: p) =>
                emit (St_success
                        (0x2705 :: py " Transcription completed successfully!")) ;;;
                emit (St_info (0x1f4c1 :: py " Output saved to: " ++ c :: p)) ;;;
                if path_exists w (c :: p)
                then emit (St_download (path_basename w (c :: p)))
                else ret tt
            | _ =>
                emit (St_error
                        (0x274c :: py " Transcription failed. Check the logs for details."))
            end
      end
  end.

(** One run of the script [main]: the messages it shows and the calls it
    makes.  The drawing of the widgets, of the progress bar and of the log
    area is left out.  A pressed "Clear Logs" button ends the run at once
    ([st.rerun()]). *)
Definition main (w : world) (ui : inputs) : M event unit :=
  selected_video <- select_video w ui ;;
  if clear_logs_clicked ui then emit ClearLogs
  else if start_clicked ui then start_transcription w ui selected_video
  else ret tt.

Definition is_model_call (ev : event) : bool :=
  match ev with
  | LoadModel _ | Transcribe _ _ => true
  | _ => false
  end.

End Gui.

(** ** The menus and the logger of the front-end *)

(** [OUTPUT_FORMATS]: the labels of the format menu and their tags. *)
Definition OUTPUT_FORMATS : list (str * str) :=
  [ (py "Plain Text (.txt)", py "txt");
    (py "SubRip (.srt)", py "srt");
    (py "WebVTT (.vtt)", py "vtt");
    (py "JSON (.json)", py "json") ].

(** The attributes and methods of [TranscriptionLogger]. *)

Module TranscriptionLogger.

(** The attributes of the object. *)
Record t := {
  logs : list str;
  progress : Z;
  status : str
}.

(** [__init__] *)
Definition init : t :=
  {| logs := []; progress := 0; status := py "Ready" |}.

(** [log(message, level)]; [timestamp] is the text of
    [datetime.now().strftime("%H:%M:%S")] at the call. *)
Definition log (timestamp message level : str) (self : t) : t :=
  let log_entry :=
    py "[" ++ timestamp ++ py "] " ++ level ++ py ": " ++ message in
  {| logs := logs self ++ [log_entry];
     progress := progress self;
     status := status self |}.

Definition update_progress (progress : Z) (status : str) (self : t) : t :=
  {| logs := logs self; progress := progress; status := status |}.

Definition get_logs (self : t) : list str := logs self.

Definition clear_logs (self : t) : t :=
  {| logs := []; progress := 0; status := py "Ready" |}.

End TranscriptionLogger.

(** What one event of a run does to the logger of the session; the clock
    is read at every call of [log]. *)
Definition logger_event (clock : nat -> str) (n : nat)
    (self : TranscriptionLogger.t) (ev : Gui.event) : TranscriptionLogger.t :=
  match ev with
  | Gui.Log level message => TranscriptionLogger.log (clock n) message level self
  | Gui.UpdateProgress progress status =>
      TranscriptionLogger.update_progress progress status self
  | Gui.ClearLogs => TranscriptionLogger.clear_logs self
  | _ => self
  end.

(** The logger after the events of a trace, the first of which is the
    [n]-th event of the session. *)
Fixpoint logger_after (clock : nat -> str) (n : nat) (trace : list Gui.event)
    (self : TranscriptionLogger.t) : TranscriptionLogger.t :=
  match trace with
  | [] => self
  | ev :: trace' =>
      logger_after clock (S n) trace' (logger_event clock n self ev)
  end.

(** One run of the script in a session: its world, its widgets and its
    clock. *)
Record run := {
  run_world : Gui.world;
  run_inputs : Gui.inputs;
  run_clock : nat -> str
}.

(** The logger of the session ([st.session_state.transcription_logger])
    after the runs of the script, the first of which finds the logger
    [self]. *)
Definition logger_session (runs : list run) (self : TranscriptionLogger.t)
    : TranscriptionLogger.t :=
  fold_left
    (fun logger r =>
       logger_after (run_clock r) 0
         (fst (Gui.main (run_world r) (run_inputs r))) logger)
    runs self.

(** The events that only show a message. *)
Definition is_message (ev : Gui.event) : bool :=
  match ev with
  | Gui.St_success _ | Gui.St_warning _ | Gui.St_error _ | Gui.St_info _
  | Gui.St_download _ => true
  | _ => false
  end.

(** [logs[-20:]], the entries that [main] joins for the log area. *)
Definition shown_logs (self : TranscriptionLogger.t) : list str :=
  let logs := TranscriptionLogger.get_logs self in
  skipn (List.length logs - 20) logs.

(** The condition of [get_video_files] on one file name. *)
Definition is_video_file (w : Gui.world) (file : str) : bool :=
  existsb (fun ext => Gui.ends_with ext (Gui.str_lower w file))
    Gui.SUPPORTED_FORMATS.

(** ** Worlds for the closed examples *)

(** A world on the Latin-1 tables whose calls answer as given: the model
    load, the audio load, the inference and the opening of the output
    file.  Paths are joined with a slash, the clock stands still, and the
    one float that the examples print is 2.5, the duration of their audio of
    40000 samples. *)
Definition example_world (exists_ : bool) (model_answer : outcome unit)
    (audio_answer : outcome N)
    (inference_answer : outcome (list (str * str)))
    (open_answer : outcome unit) : Cli.world :=
  {| Cli.device := py "cpu";
     Cli.gpu_status := [];
     Cli.load_model := fun _ => model_answer;
     Cli.load_audio := fun _ => audio_answer;
     Cli.transcribe := fun _ _ => inference_answer;
     Cli.path_exists := fun _ => exists_;
     Cli.normalize_NFKD := latin1_NFKD;
     Cli.isprintable := ascii_isprintable;
     Cli.float_repr := fun _ => py "2.5";
     Cli.now_isoformat := py "2025-01-01T00:00:00";
     Cli.now_strftime := py "20250101_000000";
     Cli.getcwd := py "/work";
     Cli.path_join := fun a b => a ++ py "/" ++ b;
     Cli.video_basename := fun p => p;
     Cli.makedirs := fun _ => Returns tt;
     Cli.open_w := fun _ => open_answer;
     Cli.write_bytes := fun _ _ => Returns tt;
     Cli.utf8_error :=
       fun _ => {| exn_message := py "surrogates not allowed" |} |}.

Definition disk_full : exn :=
  {| exn_message := py "No space left on device" |}.

Definition out_of_memory : exn :=
  {| exn_message := py "CUDA out of memory" |}.

Definition no_such_file : exn :=
  {| exn_message := py "Failed to load audio" |}.

(** The path of a checkpoint whose file name is not valid UTF-8: the
    interpreter decodes the offending byte 0xFF to the lone surrogate
    U+DCFF. *)
Definition surrogate_model : str := 0xdcff :: py ".pt".

(** A world of the front-end in which no path exists. *)
Definition empty_gui_world : Gui.world :=
  {| Gui.path_exists := fun _ => false;
     Gui.listdir := fun _ => Raises no_such_file;
     Gui.str_lower := fun s => s;
     Gui.load_model := fun _ => Returns tt;
     Gui.transcribe := fun _ _ => Raises no_such_file;
     Gui.path_join := fun a b => a ++ py "/" ++ b;
     Gui.path_basename := fun p => p;
     Gui.path_stem := fun p => p;
     Gui.write_file_outcome := fun _ => Returns tt;
     Gui.json_dump_indent := fun _ => [] |}.

(** The folder is entered and the transcription is started. *)
Definition example_inputs (folder : str) : Gui.inputs :=
  {| Gui.folder_path := folder;
     Gui.video_choice := 0;
     Gui.model_name := py "base";
     Gui.language := Some (py "pt");
     Gui.output_format := py "txt";
     Gui.output_folder := folder;
     Gui.clear_logs_clicked := false;
     Gui.start_clicked := true |}.

(** What Whisper answers in the examples. *)
Definition example_result : list (str * str) :=
  [ (py "text", py " hi "); (py "language", py "en") ].

(** The events of a run up to the inference call, when the model and the
    audio load. *)
Definition prelude (model_name video_path : str) (audio : N)
    (language : option str) : list Cli.event :=
  [ Cli.Progress 10 (py "Starting transcription: " ++ model_name
                     ++ py " model");
    Cli.Progress 10 (py "Loading model...");
    Cli.LoadModel model_name;
    Cli.Progress 30 (py "Model loaded, detecting audio...");
    Cli.LoadAudio video_path;
    Cli.Progress 50
      (py "Audio loaded (" ++ Cli.format_time (total_duration audio)
       ++ py "), estimated time: "
       ++ Cli.format_time (total_duration audio * multiplier model_name)%Q);
    Cli.Transcribe audio (Cli.options language) ].

(** [str.lower] on ASCII letters. *)
Definition ascii_lower (s : str) : str :=
  map (fun c => if (0x41 <=? c) && (c <=? 0x5a) then c + 32 else c) s.

(** A world of the front-end in which every path exists, the folder holds
    two videos and a note, and every call returns. *)
Definition example_gui_world : Gui.world :=
  {| Gui.path_exists := fun _ => true;
     Gui.listdir :=
       fun _ => Returns [py "talk.MP4"; py "notes.txt"; py "demo.mkv"];
     Gui.str_lower := ascii_lower;
     Gui.load_model := fun _ => Returns tt;
     Gui.transcribe :=
       fun _ _ =>
         Returns {| result_text := py "hi";
                    result_segments :=
                      [ {| seg_start := 0; seg_end := 1.5;
                           seg_text := py " hi" |} ];
                    result_language := Some (py "en") |};
     Gui.path_join := fun a b => a ++ py "/" ++ b;
     Gui.path_basename := fun p => p;
     Gui.path_stem := fun p => p;
     Gui.write_file_outcome := fun _ => Returns tt;
     Gui.json_dump_indent := fun _ => [] |}.

(** *** Specification predicates for the sanitizer *)

(** What a character of the sanitizer's output can be: printable ASCII or
    one of the four letters without a decomposition. *)
Definition clean_char (c : N) : bool :=
  ascii_isprintable c || str_in c undecomposed_accents.

(** Whitespace in normal form: every whitespace character is a single
    U+0020 that does not follow another one ([after_space] tells whether
    the character before the text was one). *)
Fixpoint ws_normal (after_space : bool) (text : str) : bool :=
  match text with
  | [] => true
  | c :: text' =>
      if isspace c
      then (c =? 0x20) && negb after_space && ws_normal true text'
      else ws_normal false text'
  end.

(** The first character of a text, when it has one, is not whitespace. *)
Definition no_leading_space (y : str) : Prop :=
  match y with [] => True | c :: _ => isspace c = false end.

(** The shape of every output of the sanitizer. *)
Definition clean (y : str) : Prop :=
  Forall (fun c => clean_char c = true) y
  /\ ws_normal false y = true
  /\ strip y = y.

(** The combining diacritical marks U+0300..U+036F. *)
Definition is_combining_mark (c : N) : bool :=
  (0x300 <=? c) && (c <=? 0x36f).

(** The unaccented letters A-Z and a-z. *)
Definition is_ascii_letter (c : N) : bool :=
  (0x41 <=? c) && (c <=? 0x5a) || (0x61 <=? c) && (c <=? 0x7a).

(** The declared allow-list, as the filter of the source spells it. *)
Definition allow_list (isprintable : N -> bool) (c : N) : Prop :=
  (isprintable c = true /\ c < 127)
  \/ In c lower_accents \/ In c upper_accents \/ In c plain_whitespace.

(** *** Specification predicates for the delivery channel *)

(** The characters of a base64 text: the alphabet and the padding. *)
Definition b64_text_char (c : N) : bool :=
  (0x41 <=? c) && (c <=? 0x5a) || (0x61 <=? c) && (c <=? 0x7a)
  || (0x30 <=? c) && (c <=? 0x39) || (c =? 0x2b) || (c =? 0x2f)
  || (c =? b64_pad).

(** A float token: a non-empty text of number characters, as
    [float.__repr__] gives for a finite float. *)
Definition number_text (repr : str) : Prop :=
  repr <> [] /\ Forall (fun c => is_number_char c = true) repr.

Definition wf_value (v : jvalue) : Prop :=
  match v with
  | JStr _ => True
  | JFloat repr => number_text repr
  end.

(** The floats of a dict are float tokens. *)
Definition wf_dict (d : pydict) : Prop :=
  Forall (fun kv => wf_value (snd kv)) d.

(** A Unicode scalar value: a code point that is not a surrogate. *)
Definition is_scalar (c : N) : bool :=
  (c <? 0x110000) && negb ((0xD800 <=? c) && (c <=? 0xDFFF)).

Definition value_text (v : jvalue) : str :=
  match v with JStr s => s | JFloat repr => repr end.

(** Every key and every value of a dict is made of scalar values. *)
Definition scalar_dict (d : pydict) : Prop :=
  Forall (fun kv => Forall (fun c => is_scalar c = true) (fst kv)
                    /\ Forall (fun c => is_scalar c = true)
                         (value_text (snd kv))) d.

(** *** Specification of a batch trace *)

(** The percentages of the progress records of a trace, in order. *)
Definition progress_values (t : list Cli.event) : list Z :=
  flat_map (fun ev => match ev with Cli.Progress p _ => [p] | _ => [] end) t.

(** *** Specification of the timestamps *)

(** The character of one decimal digit. *)
Definition digit (d : Z) : N := 0x30 + Z.to_N d.

(** A number below 100 on two digits, a number below 1000 on three. *)
Definition two_digits (n : Z) : str := [digit (n / 10); digit (n mod 10)].

Definition three_digits (n : Z) : str :=
  [digit (n / 100); digit ((n / 10) mod 10); digit (n mod 10)].

(** *** A decision procedure for the runs of the estimator

    The percentages of a run in double precision, computed on machine
    integers so that every run of a given number of steps can be
    examined. *)

(** The iteration at index [i] of a run with [s] steps: its percentage,
    when that is at least [prev] and at most 89. *)
Definition check_step (s i prev : int) : option int :=
  let x := (Double.ease_out (PrimFloat.of_uint63 i / PrimFloat.of_uint63 s)
            * 40)%float in
  let (f, e) := frshiftexp x in
  if (x <? 0)%float then None
  else if (e <=? 2154)%uint63 then
    let w := (normfr_mantissa f >> (2154 - e))%uint63 in
    if (w <=? 39)%uint63 then
      let v := (50 + w)%uint63 in
      if (prev <=? v)%uint63 then Some v else None
    else None
  else None.

Fixpoint check_from (s i prev : int) (todo : nat) : bool :=
  match todo with
  | O => true
  | S todo' =>
      match check_step s i prev with
      | Some v => check_from s (i + 1)%uint63 v todo'
      | None => false
      end
  end.

(** A whole run of [s] steps begins at 50, never decreases and stays at
    most 89. *)
Definition check_run (s : nat) : bool :=
  let s63 := Uint63.of_Z (Z.of_nat s) in
  match check_step s63 0 50 with
  | Some v => (v =? 50)%uint63 && check_from s63 0 50 s
  | None => false
  end.

(** The runs of [s], [s + 1], ..., [s + count - 1] steps. *)
Fixpoint check_runs (s count : nat) : bool :=
  match count with
  | O => true
  | S count' => check_run s && check_runs (S s) count'
  end.

(** * Properties *)

(** ** Characters *)

Ltac char_arith :=
  unfold clean_char, ascii_isprintable, nfkd_inert, is_control, isspace,
    is_ascii_letter, is_combining_mark, str_in, lower_accents, upper_accents,
    plain_whitespace, undecomposed_accents in *;
  cbn [existsb In app] in *;
  rewrite ?orb_false_r in *;
  rewrite ?orb_true_iff, ?andb_true_iff, ?orb_false_iff, ?andb_false_iff,
    ?N.eqb_eq, ?N.eqb_neq, ?N.leb_le, ?N.leb_gt, ?N.ltb_lt, ?N.ltb_ge in *;
  lia.

Lemma clean_char_inert c : clean_char c = true -> nfkd_inert c = true.
Proof. intros H. char_arith. Qed.

Lemma clean_char_not_control c : clean_char c = true -> is_control c = false.
Proof. intros H. char_arith. Qed.


Lemma plain_whitespace_isspace c :
  str_in c plain_whitespace = true -> isspace c = true.
Proof. intros H. char_arith. Qed.


Lemma lookup_In {A} k (v : A) table :
  lookup k table = Some v -> In (k, v) table.
Proof.
  induction table as [|[k' v'] table IH]; simpl; [discriminate|].
  destruct (N.eqb_spec k k') as [->|_].
  - intros [= ->]. now left.
  - intros H. right. now apply IH.
Qed.

Lemma lookup_None_notin {A} k (table : list (N * A)) :
  lookup k table = None -> ~ In k (map fst table).
Proof.
  induction table as [|[k' v'] table IH]; simpl; [tauto|].
  destruct (N.eqb_spec k k') as [->|Hne]; [discriminate|].
  intros H [E|HIn]; [congruence | now apply IH].
Qed.

(** An accented letter of the literals that has no decomposition is one of
    the four. *)
Lemma accent_undecomposed c :
  str_in c lower_accents || str_in c upper_accents = true ->
  latin1_decomposition c = None ->
  str_in c undecomposed_accents = true.
Proof.
  intros Hin Hnone. apply lookup_None_notin in Hnone.
  cbn [map fst latin1_decompositions In] in Hnone.
  char_arith.
Qed.

(** ** Whitespace normalisation and stripping *)

Lemma ws_normal_sub_ws b t : ws_normal b (sub_ws_from b t) = true.
Proof.
  revert b; induction t as [|c t IH]; intros b; simpl; [reflexivity|].
  destruct (isspace c) eqn:Hc.
  - destruct b; [apply IH|]. simpl. apply IH.
  - simpl. rewrite Hc. apply IH.
Qed.

Lemma sub_ws_normal b y : ws_normal b y = true -> sub_ws_from b y = y.
Proof.
  revert b; induction y as [|c y IH]; intros b; simpl; [reflexivity|].
  destruct (isspace c) eqn:Hc.
  - rewrite !andb_true_iff, N.eqb_eq, negb_true_iff.
    intros [[-> ->] H]. f_equal. now apply IH.
  - intros H. f_equal. now apply IH.
Qed.

Lemma ws_normal_weaken b y : ws_normal b y = true -> ws_normal false y = true.
Proof.
  destruct y as [|c y]; simpl; [reflexivity|].
  destruct (isspace c); [|tauto].
  intros H. apply andb_prop in H as [H1 H2]. apply andb_prop in H1 as [H1 _].
  now rewrite H1, H2.
Qed.

Lemma ws_normal_lstrip y :
  ws_normal false y = true -> ws_normal false (lstrip y) = true.
Proof.
  induction y as [|c y IH]; simpl; [reflexivity|].
  destruct (isspace c) eqn:Hc; simpl; rewrite ?Hc; [|tauto].
  rewrite !andb_true_iff. intros [_ H]. apply IH.
  now apply ws_normal_weaken with (b := true).
Qed.

Lemma ws_normal_rstrip b y :
  ws_normal b y = true -> ws_normal b (rstrip y) = true.
Proof.
  revert b; induction y as [|c y IH]; intros b; simpl; [reflexivity|].
  destruct (isspace c) eqn:Hc.
  - rewrite !andb_true_iff. intros [[H1 H2] H3].
    specialize (IH true H3).
    destruct (rstrip y) as [|d r]; [reflexivity|].
    cbn [ws_normal]. rewrite Hc, H1, H2. exact IH.
  - intros H. specialize (IH false H).
    destruct (rstrip y) as [|d r]; cbn [ws_normal]; rewrite Hc; auto.
Qed.

Lemma Forall_lstrip (P : N -> Prop) y : Forall P y -> Forall P (lstrip y).
Proof.
  induction 1 as [|c y Hc Hy IH]; simpl; [constructor|].
  destruct (isspace c); [exact IH | now constructor].
Qed.

Lemma Forall_rstrip (P : N -> Prop) y : Forall P y -> Forall P (rstrip y).
Proof.
  induction 1 as [|c y Hc Hy IH]; simpl; [constructor|].
  destruct (rstrip y) as [|d r].
  - destruct (isspace c); [constructor | now repeat constructor].
  - now constructor.
Qed.

Lemma rstrip_idem y : rstrip (rstrip y) = rstrip y.
Proof.
  induction y as [|c y IH]; simpl; [reflexivity|].
  destruct (rstrip y) as [|d r] eqn:Hr.
  - destruct (isspace c) eqn:Hc; simpl; [reflexivity|]. now rewrite Hc.
  - cbn [rstrip] in *. cbn [rstrip]. now rewrite IH.
Qed.

Lemma lstrip_no_leading y : no_leading_space (lstrip y).
Proof.
  induction y as [|c y IH]; simpl; [exact I|].
  destruct (isspace c) eqn:Hc; [exact IH | exact Hc].
Qed.

Lemma lstrip_fixed y : no_leading_space y -> lstrip y = y.
Proof. destruct y as [|c y]; simpl; [reflexivity|]. now intros ->. Qed.

Lemma rstrip_no_leading y : no_leading_space y -> no_leading_space (rstrip y).
Proof.
  destruct y as [|c y]; simpl; [tauto|]. intros Hc.
  destruct (rstrip y); [rewrite Hc|]; exact Hc.
Qed.

Lemma strip_idem y : strip (strip y) = strip y.
Proof.
  unfold strip.
  rewrite (lstrip_fixed (rstrip (lstrip y))).
  - apply rstrip_idem.
  - apply rstrip_no_leading, lstrip_no_leading.
Qed.

(** ** The sanitizer *)

Lemma Forall_replace (P : N -> Prop) old new t :
  Forall P new -> Forall P t -> Forall P (replace old new t).
Proof.
  intros Hnew. induction 1 as [|c t Hc Ht IH]; simpl; [constructor|].
  apply Forall_app. split; [|exact IH].
  destruct (c =? old); [exact Hnew | now repeat constructor].
Qed.

Lemma Forall_apply_replacements (P : N -> Prop) t :
  Forall P (py "-'." ++ [0x22; 0x20]) ->
  Forall P t -> Forall P (apply_replacements t).
Proof.
  intros Hnew Ht. unfold apply_replacements, replacements. cbn [fold_left fst snd].
  repeat apply Forall_replace; try exact Ht;
    repeat constructor;
    repeat (apply Forall_cons_iff in Hnew as [? Hnew]); assumption.
Qed.

Lemma Forall_sub_control (P : N -> Prop) t :
  P 0x20 -> Forall P t -> Forall P (sub_control t).
Proof.
  intros Hsp. induction 1 as [|c t Hc Ht IH]; simpl; constructor; [|exact IH].
  now destruct (is_control c).
Qed.

Lemma replace_absent old new y :
  Forall (fun c => c <> old) y -> replace old new y = y.
Proof.
  induction 1 as [|c y Hc Hy IH]; simpl; [reflexivity|].
  apply N.eqb_neq in Hc. now rewrite Hc, IH.
Qed.

Lemma clean_not_replaced c :
  clean_char c = true -> ~ In c (map fst replacements).
Proof. intros H. cbn [map fst replacements In]. char_arith. Qed.

Lemma apply_replacements_clean y :
  Forall (fun c => clean_char c = true) y -> apply_replacements y = y.
Proof.
  intros Hy.
  assert (Hne : forall old, In old (map fst replacements) ->
                            Forall (fun c => c <> old) y).
  { intros old Hin. eapply Forall_impl; [|exact Hy].
    intros c Hc ->. exact (clean_not_replaced _ Hc Hin). }
  unfold apply_replacements, replacements in *. cbn [fold_left fst snd].
  repeat (rewrite (replace_absent _ _ y); [|apply Hne; cbn; tauto]).
  reflexivity.
Qed.

Lemma sub_control_clean y :
  Forall (fun c => clean_char c = true) y -> sub_control y = y.
Proof.
  induction 1 as [|c y Hc Hy IH]; simpl; [reflexivity|].
  now rewrite (clean_char_not_control c Hc), IH.
Qed.

Lemma Forall_sub_ws (P Q : N -> Prop) b t :
  Q 0x20 -> (forall c, P c -> isspace c = false -> Q c) ->
  Forall P t -> Forall Q (sub_ws_from b t).
Proof.
  intros Hsp HPQ Ht. revert b.
  induction Ht as [|c t Hc Ht IH]; intros b; simpl; [constructor|].
  destruct (isspace c) eqn:E.
  - destruct b; [apply IH | constructor; [exact Hsp | apply IH]].
  - constructor; [now apply HPQ | apply IH].
Qed.

Section SanitizerFacts.

Variable normalize_NFKD : str -> str.
Variable isprintable : N -> bool.

Local Notation "'sanitize'" :=
  (sanitize_for_json normalize_NFKD isprintable) (at level 0).

(** C4 holds for every normalizer and every printability table. *)
Lemma safe_allow_list c : safe isprintable c = true -> allow_list isprintable c.
Proof.
  unfold safe, allow_list, str_in.
  rewrite !orb_true_iff, andb_true_iff, N.ltb_lt, !existsb_exists.
  intros [[[H|[d [H E]]]|[d [H E]]]|[d [H E]]];
    try (apply N.eqb_eq in E; subst d); tauto.
Qed.

Lemma sanitize_safe x :
  Forall (fun c => safe isprintable c = true) (sanitize x).
Proof.
  unfold sanitize_for_json, strip.
  apply Forall_rstrip, Forall_lstrip.
  apply Forall_sub_ws with (P := fun c => safe isprintable c = true).
  - unfold safe. now rewrite orb_true_iff; right.
  - auto.
  - unfold keep_safe. apply Forall_forall. intros c Hc.
    now apply filter_In in Hc.
Qed.

(** The facts of the Unicode character database that the remaining
    properties rest on. *)
Hypothesis isprintable_ascii :
  forall c, c < 127 -> isprintable c = ascii_isprintable c.
Hypothesis NFKD_inert :
  forall s, Forall (fun c => nfkd_inert c = true) s -> normalize_NFKD s = s.
Hypothesis NFKD_decomposed :
  forall s, Forall (fun c => latin1_decomposition c = None) (normalize_NFKD s).
Hypothesis NFKD_latin1 :
  forall c b m, latin1_decomposition c = Some (b, m) ->
                normalize_NFKD [c] = [b; m].

Lemma clean_char_safe c : clean_char c = true -> safe isprintable c = true.
Proof.
  intros H. unfold safe.
  destruct (N.ltb_spec c 127) as [Hlt|Hge].
  - rewrite (isprintable_ascii c Hlt).
    assert (ascii_isprintable c = true) as -> by char_arith.
    reflexivity.
  - rewrite andb_false_r. simpl.
    rewrite !orb_true_iff. char_arith.
Qed.

Lemma safe_clean_or_space c :
  safe isprintable c = true -> latin1_decomposition c = None ->
  isspace c = false -> clean_char c = true.
Proof.
  intros Hs Hd Hsp. unfold safe in Hs.
  rewrite !orb_true_iff, andb_true_iff in Hs.
  destruct Hs as [[[[Hp Hlt]|Hl]|Hu]|Hw].
  - apply N.ltb_lt in Hlt. rewrite (isprintable_ascii c Hlt) in Hp.
    unfold clean_char. now rewrite Hp.
  - unfold clean_char. rewrite (accent_undecomposed c), orb_true_r; auto.
    now rewrite Hl.
  - unfold clean_char. rewrite (accent_undecomposed c), orb_true_r; auto.
    now rewrite Hu, orb_true_r.
  - apply plain_whitespace_isspace in Hw. congruence.
Qed.

Lemma sanitize_clean x : clean (sanitize x).
Proof.
  unfold sanitize_for_json. repeat split.
  - unfold strip. apply Forall_rstrip, Forall_lstrip.
    apply Forall_sub_ws with
      (P := fun c => safe isprintable c = true /\ latin1_decomposition c = None).
    + reflexivity.
    + intros c [Hs Hd] Hsp. now apply safe_clean_or_space.
    + unfold keep_safe. apply Forall_forall. intros c Hc.
      apply filter_In in Hc as [Hc Hs]. split; [exact Hs|].
      clear Hs. revert c Hc. apply Forall_forall.
      apply Forall_apply_replacements; [repeat constructor|].
      apply Forall_sub_control; [reflexivity|].
      apply NFKD_decomposed.
  - unfold strip. apply ws_normal_rstrip, ws_normal_lstrip, ws_normal_sub_ws.
  - apply strip_idem.
Qed.

Lemma sanitize_fixes_clean y : clean y -> sanitize y = y.
Proof.
  intros (Hc & Hw & Hs). unfold sanitize_for_json.
  rewrite NFKD_inert.
  2:{ eapply Forall_impl; [|exact Hc]. apply clean_char_inert. }
  rewrite sub_control_clean, apply_replacements_clean by exact Hc.
  unfold keep_safe. rewrite forallb_filter_id.
  2:{ apply forallb_forall. apply Forall_forall.
      eapply Forall_impl; [|exact Hc]. apply clean_char_safe. }
  unfold sub_ws. rewrite (sub_ws_normal _ _ Hw). exact Hs.
Qed.

(** The filter on a base letter followed by combining marks: the marks
    go, and the base letter stays when the filter accepts it. *)
Lemma keep_safe_base_and_marks b marks :
  is_control b = false ->
  ~ In b (map fst replacements) ->
  Forall (fun m => is_combining_mark m = true) marks ->
  keep_safe isprintable (apply_replacements (sub_control (b :: marks)))
  = if safe isprintable b then [b] else [].
Proof.
  intros Hctl Hrep Hmarks.
  assert (sub_control (b :: marks) = b :: marks) as ->.
  { unfold sub_control. cbn [map]. rewrite Hctl. f_equal.
    induction Hmarks as [|m marks Hm Hmarks IH]; [reflexivity|].
    cbn [map]. assert (is_control m = false) as -> by char_arith.
    now rewrite IH. }
  assert (apply_replacements (b :: marks) = b :: marks) as ->.
  { assert (Hne : forall old, In old (map fst replacements) ->
                              Forall (fun c => c <> old) (b :: marks)).
    { intros old Hold. constructor.
      - intros ->. exact (Hrep Hold).
      - eapply Forall_impl; [|exact Hmarks]. intros m Hm ->.
        cbn [map fst replacements In] in Hold. char_arith. }
    unfold apply_replacements, replacements in *. cbn [fold_left fst snd].
    repeat (rewrite (replace_absent _ _ (b :: marks));
            [|apply Hne; cbn; tauto]).
    reflexivity. }
  assert (keep_safe isprintable marks = []) as Hdrop.
  { unfold keep_safe.
    induction Hmarks as [|m marks Hm Hmarks IH]; [reflexivity|].
    cbn [filter].
    assert (safe isprintable m = false) as ->; [|exact IH].
    unfold safe. assert ((m <? 127) = false) as E by char_arith.
    rewrite E, andb_false_r. char_arith. }
  unfold keep_safe in *. cbn [filter]. rewrite Hdrop.
  now destruct (safe isprintable b).
Qed.

Lemma sanitize_base_and_marks b marks :
  clean_char b = true ->
  isspace b = false ->
  Forall (fun m => is_combining_mark m = true) marks ->
  strip (sub_ws (keep_safe isprintable
                   (apply_replacements (sub_control (b :: marks))))) = [b].
Proof.
  intros Hcb Sb Hmarks.
  rewrite keep_safe_base_and_marks.
  - rewrite (clean_char_safe b Hcb).
    unfold sub_ws, strip. repeat (simpl; rewrite Sb). reflexivity.
  - now apply clean_char_not_control.
  - exact (clean_not_replaced _ Hcb).
  - exact Hmarks.
Qed.

Lemma sanitize_rejected_base b marks :
  safe isprintable b = false ->
  is_control b = false ->
  ~ In b (map fst replacements) ->
  Forall (fun m => is_combining_mark m = true) marks ->
  strip (sub_ws (keep_safe isprintable
                   (apply_replacements (sub_control (b :: marks))))) = [].
Proof.
  intros Hb Hctl Hrep Hmarks.
  rewrite keep_safe_base_and_marks by assumption.
  rewrite Hb. reflexivity.
Qed.

(** C4: for every input string, every character of the sanitizer's output
    belongs to the declared allow-list: printable ASCII (code point below
    127), the two literals of accented letters, and whitespace.  This holds
    whatever the Unicode tables are. *)
Theorem sanitize_output_in_allow_list (x : str) :
  Forall (allow_list isprintable) (sanitize x).
Proof.
  eapply Forall_impl; [|apply sanitize_safe]. apply safe_allow_list.
Qed.

(** C1: the sanitizer is idempotent: sanitizing an output of the sanitizer
    gives it back, for every input string. *)
Theorem sanitize_idempotent (x : str) :
  sanitize (sanitize x) = sanitize x.
Proof. apply sanitize_fixes_clean, sanitize_clean. Qed.

(** C10, as amended: of an accented letter that NFKD decomposes into a base
    letter followed by combining marks, the sanitizer drops the marks and
    keeps the base letter exactly when the filter accepts it.  An ASCII base
    letter is kept (e-acute gives e), and so is a base letter ae or o-slash
    (ae-acute gives ae, which is not an ASCII letter); a base letter that
    the filter rejects goes with its marks, and nothing is left (ezh with
    caron).  Every accented letter of the allow-list that the Unicode
    database decomposes has an ASCII base letter, so the only accented
    letters of the allow-list that occur in an output of the sanitizer are
    the four without a decomposition (ae, o-slash and their capitals), and
    those four do pass through unchanged. *)
Theorem sanitize_accented_letters :
  (forall c b marks,
      normalize_NFKD [c] = b :: marks ->
      Forall (fun m => is_combining_mark m = true) marks ->
      (is_ascii_letter b = true \/ In b undecomposed_accents ->
       sanitize [c] = [b])
      /\ (safe isprintable b = false ->
          is_control b = false ->
          ~ In b (map fst replacements) ->
          sanitize [c] = []))
  /\ (forall c, In c (lower_accents ++ upper_accents) ->
                ~ In c undecomposed_accents ->
                exists b m, latin1_decomposition c = Some (b, m)
                            /\ is_ascii_letter b = true
                            /\ sanitize [c] = [b])
  /\ (forall x c, In c (sanitize x) ->
                  In c (lower_accents ++ upper_accents) ->
                  In c undecomposed_accents)
  /\ (forall c, In c undecomposed_accents -> sanitize [c] = [c]).
Proof.
  split; [|split; [|split]].
  - intros c b marks Hc Hmarks. unfold sanitize_for_json. rewrite Hc. split.
    + intros Hb. apply sanitize_base_and_marks; [| |exact Hmarks];
        destruct Hb as [Hb|Hb]; char_arith.
    + intros Hb Hctl Hrep. now apply sanitize_rejected_base.
  - intros c Hin Hnot.
    destruct (latin1_decomposition c) as [[b m]|] eqn:Hd.
    + exists b, m. split; [reflexivity|].
      assert (is_ascii_letter b = true /\ is_combining_mark m = true)
        as [Hb Hm].
      { apply lookup_In in Hd. unfold latin1_decompositions in Hd.
        cbn [In] in Hd.
        repeat (destruct Hd as [Hd|Hd];
                [injection Hd as <- <- <-; split; reflexivity|]).
        destruct Hd. }
      split; [exact Hb|].
      unfold sanitize_for_json. rewrite (NFKD_latin1 c b m Hd).
      apply sanitize_base_and_marks; [| |now constructor]; char_arith.
    + exfalso. apply Hnot.
      assert (str_in c undecomposed_accents = true) as H.
      { apply accent_undecomposed; [|exact Hd]. char_arith. }
      char_arith.
  - intros x c Hc Hacc.
    destruct (sanitize_clean x) as (Hcl & _ & _).
    rewrite Forall_forall in Hcl. specialize (Hcl c Hc). char_arith.
  - intros c Hc. apply sanitize_fixes_clean. repeat split.
    + repeat constructor. char_arith.
    + assert (isspace c = false) as E by char_arith. simpl. now rewrite E.
    + assert (isspace c = false) as E by char_arith.
      unfold strip. repeat (simpl; rewrite E). reflexivity.
Qed.

End SanitizerFacts.

(** *** The Latin-1 normalizer satisfies the assumed facts *)

Lemma latin1_decomposition_range c b m :
  latin1_decomposition c = Some (b, m) ->
  0xc0 <= c <= 0xfd /\ is_ascii_letter b = true /\ 0x300 <= m <= 0x36f.
Proof.
  intros Hd. apply lookup_In in Hd. unfold latin1_decompositions in Hd.
  cbn [In] in Hd.
  repeat (destruct Hd as [Hd|Hd];
          [injection Hd as <- <- <-; repeat split; (reflexivity || lia)|]).
  destruct Hd.
Qed.

Lemma latin1_decomposition_outside c :
  c < 0xc0 \/ 0xfd < c -> latin1_decomposition c = None.
Proof.
  intros Hc. destruct (latin1_decomposition c) as [[b m]|] eqn:Hd; [|reflexivity].
  apply latin1_decomposition_range in Hd. lia.
Qed.

Lemma latin1_decompose_inert c :
  nfkd_inert c = true -> latin1_decompose c = [c].
Proof.
  intros Hc. unfold latin1_decompose.
  destruct (latin1_decomposition c) as [[b m]|] eqn:Hd.
  - exfalso. apply lookup_In in Hd. unfold latin1_decompositions in Hd.
    cbn [In] in Hd.
    repeat (destruct Hd as [Hd|Hd]; [injection Hd as <- <- <-; discriminate|]).
    destruct Hd.
  - assert ((c =? 0xa0) = false) as -> by char_arith.
    assert ((c =? 0x2026) = false) as -> by char_arith.
    reflexivity.
Qed.

Lemma latin1_NFKD_inert s :
  Forall (fun c => nfkd_inert c = true) s -> latin1_NFKD s = s.
Proof.
  induction 1 as [|c s Hc Hs IH]; [reflexivity|].
  unfold latin1_NFKD in *. cbn [flat_map].
  now rewrite (latin1_decompose_inert c Hc), IH.
Qed.

Lemma latin1_NFKD_decomposed s :
  Forall (fun c => latin1_decomposition c = None) (latin1_NFKD s).
Proof.
  induction s as [|c s IH]; [constructor|].
  unfold latin1_NFKD in *. cbn [flat_map]. apply Forall_app. split; [|exact IH].
  unfold latin1_decompose.
  destruct (latin1_decomposition c) as [[b m]|] eqn:Hd.
  - apply latin1_decomposition_range in Hd as (_ & Hb & Hm).
    repeat constructor; apply latin1_decomposition_outside;
      unfold is_ascii_letter in Hb; char_arith.
  - destruct (c =? 0xa0); [repeat constructor|].
    destruct (c =? 0x2026); repeat constructor. exact Hd.
Qed.

Lemma latin1_NFKD_latin1 c b m :
  latin1_decomposition c = Some (b, m) -> latin1_NFKD [c] = [b; m].
Proof.
  intros Hd. unfold latin1_NFKD, latin1_decompose. cbn [flat_map].
  now rewrite Hd.
Qed.

Lemma ascii_isprintable_ascii c :
  c < 127 -> ascii_isprintable c = ascii_isprintable c.
Proof. reflexivity. Qed.

(** The sanitizer on [" Caf<e-acute> <em dash>\t\n<ae>sop<ellipsis> "]:
    the output is ["Cafe -- <ae>sop..."], and sanitizing it again changes
    nothing. *)
Lemma sanitize_idempotent_witness :
  sanitize_for_json latin1_NFKD ascii_isprintable
    (py " Caf" ++ [0xe9; 0x20; 0x2014; 0x09; 0x0a; 0xe6] ++ py "sop"
     ++ [0x2026; 0x20])
  = py "Cafe -- " ++ [0xe6] ++ py "sop..."
  /\ sanitize_for_json latin1_NFKD ascii_isprintable
       (sanitize_for_json latin1_NFKD ascii_isprintable
          (py " Caf" ++ [0xe9; 0x20; 0x2014; 0x09; 0x0a; 0xe6] ++ py "sop"
           ++ [0x2026; 0x20]))
     = sanitize_for_json latin1_NFKD ascii_isprintable
         (py " Caf" ++ [0xe9; 0x20; 0x2014; 0x09; 0x0a; 0xe6] ++ py "sop"
          ++ [0x2026; 0x20]).
Proof.
  split; [vm_compute; reflexivity|].
  exact (sanitize_idempotent latin1_NFKD ascii_isprintable
           ascii_isprintable_ascii latin1_NFKD_inert latin1_NFKD_decomposed _).
Defined.

(** *** The extended normalizer satisfies the assumed facts *)

Lemma extended_decomposition_range c b m :
  lookup c extended_decompositions = Some (b, m) ->
  0x1e2 <= c <= 0x1ff /\ latin1_decomposition b = None
  /\ latin1_decomposition m = None.
Proof.
  intros Hd. apply lookup_In in Hd. unfold extended_decompositions in Hd.
  cbn [In] in Hd.
  repeat (destruct Hd as [Hd|Hd];
          [injection Hd as <- <- <-; repeat split; (reflexivity || lia)|]).
  destruct Hd.
Qed.

Lemma extended_decompose_inert c :
  nfkd_inert c = true -> extended_decompose c = [c].
Proof.
  intros Hc. unfold extended_decompose.
  destruct (lookup c extended_decompositions) as [[b m]|] eqn:Hd.
  - apply extended_decomposition_range in Hd. char_arith.
  - now apply latin1_decompose_inert.
Qed.

Lemma extended_NFKD_inert s :
  Forall (fun c => nfkd_inert c = true) s -> extended_NFKD s = s.
Proof.
  induction 1 as [|c s Hc Hs IH]; [reflexivity|].
  unfold extended_NFKD in *. cbn [flat_map].
  now rewrite (extended_decompose_inert c Hc), IH.
Qed.

Lemma extended_NFKD_decomposed s :
  Forall (fun c => latin1_decomposition c = None) (extended_NFKD s).
Proof.
  induction s as [|c s IH]; [constructor|].
  unfold extended_NFKD in *. cbn [flat_map]. apply Forall_app.
  split; [|exact IH]. unfold extended_decompose.
  destruct (lookup c extended_decompositions) as [[b m]|] eqn:Hd.
  - apply extended_decomposition_range in Hd as (_ & Hb & Hm).
    repeat constructor; assumption.
  - pose proof (latin1_NFKD_decomposed [c]) as H.
    unfold latin1_NFKD in H. cbn [flat_map] in H.
    now rewrite app_nil_r in H.
Qed.

Lemma extended_NFKD_latin1 c b m :
  latin1_decomposition c = Some (b, m) -> extended_NFKD [c] = [b; m].
Proof.
  intros Hd. unfold extended_NFKD, extended_decompose. cbn [flat_map].
  assert (lookup c extended_decompositions = None) as ->.
  { destruct (lookup c extended_decompositions) as [[b' m']|] eqn:He;
      [|reflexivity].
    apply extended_decomposition_range in He.
    apply latin1_decomposition_range in Hd. lia. }
  unfold latin1_decompose. now rewrite Hd.
Qed.

(** The letter o-slash with acute (U+01FF) has a decomposition, o-slash
    followed by the combining acute, and the sanitizer reduces it to
    o-slash, which is not an ASCII letter; ezh with caron (U+01EF) has one as
    well and is reduced to nothing. *)
Lemma accented_letter_without_ascii_base :
  extended_NFKD [0x1ff] = [0xf8; 0x301]
  /\ is_combining_mark 0x301 = true
  /\ sanitize_for_json extended_NFKD ascii_isprintable [0x1ff] = [0xf8]
  /\ is_ascii_letter 0xf8 = false
  /\ extended_NFKD [0x1ef] = [0x292; 0x30c]
  /\ is_combining_mark 0x30c = true
  /\ sanitize_for_json extended_NFKD ascii_isprintable [0x1ef] = [].
Proof. repeat split. Qed.

(** At the extended tables: e-acute and n-tilde come out as e and n,
    o-slash with acute as o-slash, ezh with caron as nothing, and no
    accented letter of the allow-list other than the four without a
    decomposition occurs in an output. *)
Lemma sanitize_accented_letters_witness :
  sanitize_for_json extended_NFKD ascii_isprintable [0xe9] = py "e"
  /\ sanitize_for_json extended_NFKD ascii_isprintable [0xf1] = py "n"
  /\ sanitize_for_json extended_NFKD ascii_isprintable [0x1ff] = [0xf8]
  /\ sanitize_for_json extended_NFKD ascii_isprintable [0x1ef] = []
  /\ (forall x c,
         In c (sanitize_for_json extended_NFKD ascii_isprintable x) ->
         In c (lower_accents ++ upper_accents) ->
         In c undecomposed_accents).
Proof.
  pose proof (sanitize_accented_letters extended_NFKD ascii_isprintable
                ascii_isprintable_ascii extended_NFKD_inert
                extended_NFKD_decomposed extended_NFKD_latin1)
    as (Hbase & _ & Honly & _).
  split; [|split; [|split; [|split]]].
  - apply (proj1 (Hbase 0xe9 0x65 [0x301] eq_refl
                    ltac:(repeat constructor))).
    left. reflexivity.
  - apply (proj1 (Hbase 0xf1 0x6e [0x303] eq_refl
                    ltac:(repeat constructor))).
    left. reflexivity.
  - apply (proj1 (Hbase 0x1ff 0xf8 [0x301] eq_refl
                    ltac:(repeat constructor))).
    right. cbn. tauto.
  - apply (proj2 (Hbase 0x1ef 0x292 [0x30c] eq_refl
                    ltac:(repeat constructor))).
    + reflexivity.
    + reflexivity.
    + cbn. intros H. repeat (destruct H as [H|H]; [discriminate|]).
      exact H.
  - exact Honly.
Defined.

(** ** The progress estimator *)

Lemma py_int_floor (x : Q) : (0 <= x)%Q -> py_int x = Qfloor x.
Proof.
  destruct x as [n d]. unfold Qle, py_int. cbn [Qnum Qden Qfloor].
  intros H. apply Z.quot_div_nonneg; lia.
Qed.

Lemma py_int_nonneg_le (x y : Q) :
  (0 <= x)%Q -> (x <= y)%Q -> (py_int x <= py_int y)%Z.
Proof.
  intros Hx Hxy. rewrite !py_int_floor by lra. now apply Qfloor_resp_le.
Qed.

Lemma raw_progress_succ i s :
  (0 < s)%Z ->
  (raw_progress (S i) s == raw_progress i s + / inject_Z s)%Q.
Proof.
  intros Hs. unfold raw_progress. rewrite Nat2Z.inj_succ.
  unfold Z.succ. rewrite inject_Z_plus. unfold Qdiv. ring.
Qed.

Lemma inv_steps_pos s : (0 < s)%Z -> (0 < / inject_Z s)%Q.
Proof.
  intros Hs. apply Qinv_lt_0_compat. change 0%Q with (inject_Z 0).
  now rewrite <- Zlt_Qlt.
Qed.

Lemma raw_progress_nonneg i s : (0 < s)%Z -> (0 <= raw_progress i s)%Q.
Proof.
  intros Hs. unfold raw_progress, Qdiv.
  apply Qmult_le_0_compat.
  - change 0%Q with (inject_Z 0). rewrite <- Zle_Qle. lia.
  - apply Qlt_le_weak, inv_steps_pos, Hs.
Qed.

Lemma raw_progress_le i j s :
  (0 < s)%Z -> (i <= j)%nat -> (raw_progress i s <= raw_progress j s)%Q.
Proof.
  intros Hs Hij. unfold raw_progress, Qdiv.
  apply Qmult_le_compat_r.
  - rewrite <- Zle_Qle. lia.
  - apply Qlt_le_weak, inv_steps_pos, Hs.
Qed.

Lemma raw_progress_le_1 i s :
  (0 < s)%Z -> (Z.of_nat i <= s)%Z -> (raw_progress i s <= 1)%Q.
Proof.
  intros Hs Hi. unfold raw_progress.
  apply Qle_shift_div_r.
  - change 0%Q with (inject_Z 0). now rewrite <- Zlt_Qlt.
  - rewrite Qmult_1_l, <- Zle_Qle. exact Hi.
Qed.

Lemma ease_out_le (x y : Q) :
  (0 <= x)%Q -> (x <= y)%Q -> (y <= 1)%Q -> (ease_out x <= ease_out y)%Q.
Proof. unfold ease_out. intros. nra. Qed.

Lemma ease_out_range (x : Q) :
  (0 <= x)%Q -> (x <= 1)%Q -> (0 <= ease_out x)%Q /\ (ease_out x <= 1)%Q.
Proof. unfold ease_out. intros. split; nra. Qed.

Lemma progress_callback_le (p q : Q) :
  (0 <= p)%Q -> (p <= q)%Q -> (progress_callback p <= progress_callback q)%Z.
Proof.
  intros Hp Hpq. unfold progress_callback.
  apply Zplus_le_compat_l, py_int_nonneg_le; lra.
Qed.

Lemma progress_callback_range (p : Q) :
  (0 <= p)%Q -> (p <= 1)%Q -> (50 <= progress_callback p <= 90)%Z.
Proof.
  intros H0 H1. unfold progress_callback.
  rewrite py_int_floor by lra.
  assert (Qfloor 0 <= Qfloor (p * 40))%Z by (apply Qfloor_resp_le; lra).
  assert (Qfloor (p * 40) <= Qfloor 40)%Z by (apply Qfloor_resp_le; lra).
  change (Qfloor 0) with 0%Z in *. change (Qfloor 40) with 40%Z in *. lia.
Qed.

Lemma emitted_at_le s i j :
  (0 < s)%Z -> (i <= j)%nat -> (Z.of_nat j <= s)%Z ->
  (emitted_at s i <= emitted_at s j)%Z.
Proof.
  intros Hs Hij Hj. unfold emitted_at.
  apply progress_callback_le.
  - apply ease_out_range; [now apply raw_progress_nonneg|].
    apply raw_progress_le_1; lia.
  - apply ease_out_le.
    + now apply raw_progress_nonneg.
    + now apply raw_progress_le.
    + now apply raw_progress_le_1.
Qed.

Lemma emitted_at_range s i :
  (0 < s)%Z -> (Z.of_nat i <= s)%Z -> (50 <= emitted_at s i <= 90)%Z.
Proof.
  intros Hs Hi. unfold emitted_at.
  apply progress_callback_range; apply ease_out_range;
    try (now apply raw_progress_nonneg); now apply raw_progress_le_1.
Qed.

Lemma simulate_loop_sorted done s i todo :
  (0 < s)%Z -> (Z.of_nat (i + todo) <= s)%Z ->
  StronglySorted Z.le (simulate_loop done s i todo)
  /\ Forall (fun p => (emitted_at s i <= p <= 90)%Z) (simulate_loop done s i todo).
Proof.
  intros Hs. revert i. induction todo as [|todo IH]; intros i Hi; simpl.
  - split; constructor.
  - destruct (done i); [split; constructor|].
    destruct (IH (S i)) as [Hsorted Hall]; [lia|].
    assert (Hstep : (emitted_at s i <= emitted_at s (S i))%Z)
      by (apply emitted_at_le; lia).
    change (progress_callback (ease_out (raw_progress i s)))
      with (emitted_at s i).
    split.
    + constructor; [exact Hsorted|].
      eapply Forall_impl; [|exact Hall]. intros p Hp. cbv beta in Hp. lia.
    + constructor.
      * pose proof (emitted_at_range s i Hs). lia.
      * eapply Forall_impl; [|exact Hall]. intros p Hp. cbv beta in Hp. lia.
Qed.

Lemma steps_pos audio_len model_name : (10 <= steps audio_len model_name)%Z.
Proof. unfold steps. lia. Qed.

(** The curve itself rises: computed without rounding, the percentages
    of a run never decrease and lie between 0 and 100, whatever the moment
    at which the main thread sets the completion flag. *)
Lemma exact_progress_monotone_bounded
    (transcription_done : nat -> bool) (audio_len : N) (model_name : str) :
  StronglySorted Z.le
    (simulate_progress transcription_done audio_len model_name)
  /\ Forall (fun p => (0 <= p <= 100)%Z)
       (simulate_progress transcription_done audio_len model_name).
Proof.
  unfold simulate_progress.
  pose proof (steps_pos audio_len model_name) as Hs.
  destruct (simulate_loop_sorted transcription_done
              (steps audio_len model_name) 0
              (Z.to_nat (steps audio_len model_name))) as [Hsorted Hall];
    [lia | simpl; lia |].
  split; [exact Hsorted|].
  eapply Forall_impl; [|exact Hall]. intros p Hp. cbv beta in Hp.
  pose proof (emitted_at_range (steps audio_len model_name) 0) as H0.
  simpl in H0. lia.
Qed.

(** *** The estimator in double precision *)

Lemma to_Z_of_small (z : Z) :
  (0 <= z < 2 ^ 62)%Z -> Uint63.to_Z (Uint63.of_Z z) = z.
Proof.
  intros H. rewrite Uint63.of_Z_spec. apply Z.mod_small.
  change Uint63.wB with (2 ^ 63)%Z. lia.
Qed.

(** What the decision procedure computes on machine integers is what the
    model computes. *)
Lemma check_step_sound (s i prev v : int) :
  check_step s i prev = Some v ->
  Double.emitted_at (Uint63.to_Z s) (Uint63.to_Z i) = Uint63.to_Z v
  /\ (Uint63.to_Z prev <= Uint63.to_Z v <= 89)%Z.
Proof.
  unfold check_step, Double.emitted_at, Double.progress_callback,
    Double.py_int, Double.raw_progress, Double.of_int, FloatOps.Z.frexp.
  rewrite !Uint63.of_to_Z.
  set (x := (Double.ease_out _ * 40)%float).
  destruct (frshiftexp x) as [f e].
  destruct (x <? 0)%float; [discriminate|].
  destruct (e <=? 2154)%uint63 eqn:He; [|discriminate].
  destruct (normfr_mantissa f >> (2154 - e) <=? 39)%uint63 eqn:Hw;
    [|discriminate].
  destruct (prev <=? 50 + (normfr_mantissa f >> (2154 - e)))%uint63 eqn:Hp;
    [|discriminate].
  intros Hv. injection Hv as <-.
  apply Uint63.leb_spec in He, Hw, Hp.
  change (Uint63.to_Z 2154) with 2154%Z in He.
  change (Uint63.to_Z 39) with 39%Z in Hw.
  pose proof (Uint63.to_Z_bounded e) as Be.
  pose proof (Uint63.to_Z_bounded (normfr_mantissa f >> (2154 - e))) as Bw.
  assert (Hsub : Uint63.to_Z (2154 - e) = (2154 - Uint63.to_Z e)%Z).
  { rewrite Uint63.sub_spec. change (Uint63.to_Z 2154) with 2154%Z.
    apply Z.mod_small. change Uint63.wB with (2 ^ 63)%Z. lia. }
  assert (Hadd : Uint63.to_Z (50 + (normfr_mantissa f >> (2154 - e)))
                 = (50 + Uint63.to_Z (normfr_mantissa f >> (2154 - e)))%Z).
  { rewrite Uint63.add_spec. change (Uint63.to_Z 50) with 50%Z.
    apply Z.mod_small. change Uint63.wB with (2 ^ 63)%Z. lia. }
  rewrite Hadd in *.
  split; [|lia].
  f_equal. rewrite Uint63.lsr_spec, Hsub.
  change FloatOps.shift with 2101%Z.
  replace (Uint63.to_Z e - 2101 - 53)%Z with (- (2154 - Uint63.to_Z e))%Z
    by lia.
  rewrite <- Z.shiftr_opp_r, Z.opp_involutive.
  apply Z.shiftr_div_pow2. lia.
Qed.

Lemma check_from_sound (s : int) (todo : nat) :
  forall i prev,
    check_from s i prev todo = true ->
    (Uint63.to_Z i + Z.of_nat todo < 2 ^ 62)%Z ->
    StronglySorted Z.le
      (Double.simulate_loop Double.never_done (Uint63.to_Z s)
         (Uint63.to_Z i) todo)
    /\ Forall (fun p => (Uint63.to_Z prev <= p <= 89)%Z)
         (Double.simulate_loop Double.never_done (Uint63.to_Z s)
            (Uint63.to_Z i) todo).
Proof.
  induction todo as [|todo IH]; intros i prev Hc Hb.
  - split; constructor.
  - cbn [check_from] in Hc.
    destruct (check_step s i prev) as [v|] eqn:Hstep; [|discriminate].
    apply check_step_sound in Hstep. destruct Hstep as [Hv Hr].
    assert (Hi : Uint63.to_Z (i + 1) = (Uint63.to_Z i + 1)%Z).
    { rewrite Uint63.add_spec. change (Uint63.to_Z 1) with 1%Z.
      apply Z.mod_small. pose proof (Uint63.to_Z_bounded i).
      change Uint63.wB with (2 ^ 63)%Z. lia. }
    destruct (IH (i + 1)%uint63 v Hc) as [Hs Hf]; [lia|].
    rewrite Hi in Hs, Hf.
    cbn [Double.simulate_loop]. unfold Double.never_done at 1 3.
    fold (Double.emitted_at (Uint63.to_Z s) (Uint63.to_Z i)).
    rewrite Hv. split.
    + constructor; [exact Hs|].
      eapply Forall_impl; [|exact Hf]. cbv beta. intros p Hp. lia.
    + constructor; [lia|].
      eapply Forall_impl; [|exact Hf]. cbv beta. intros p Hp. lia.
Qed.

Lemma check_run_sound (s : nat) :
  check_run s = true ->
  (Z.of_nat s < 2 ^ 61)%Z ->
  let l := Double.simulate_loop Double.never_done (Z.of_nat s) 0 s in
  StronglySorted Z.le l
  /\ Forall (fun p => (50 <= p <= 89)%Z) l
  /\ Double.emitted_at (Z.of_nat s) 0 = 50%Z.
Proof.
  intros Hc Hb. unfold check_run in Hc.
  destruct (check_step (Uint63.of_Z (Z.of_nat s)) 0 50) as [v|] eqn:Hstep;
    [|discriminate].
  apply andb_prop in Hc. destruct Hc as [Hv Hc].
  apply Uint63.eqb_spec in Hv. subst v.
  apply check_step_sound in Hstep. destruct Hstep as [Hfirst _].
  apply check_from_sound in Hc.
  2:{ change (Uint63.to_Z 0) with 0%Z. lia. }
  rewrite to_Z_of_small in Hc, Hfirst by lia.
  change (Uint63.to_Z 0) with 0%Z in Hc, Hfirst.
  change (Uint63.to_Z 50) with 50%Z in Hc, Hfirst.
  cbv zeta. destruct Hc as [Hs Hf]. auto.
Qed.

Lemma check_runs_sound (count : nat) :
  forall a s, check_runs a count = true ->
    (a <= s < a + count)%nat -> check_run s = true.
Proof.
  induction count as [|count IH]; intros a s Hc Hs; [lia|].
  cbn [check_runs] in Hc. apply andb_prop in Hc. destruct Hc as [H1 H2].
  destruct (Nat.eq_dec s a) as [->|Hne]; [exact H1|].
  apply (IH (S a)); [exact H2|lia].
Qed.

(** Every run of 10 to 10000 steps, examined one by one. *)
Lemma check_runs_10000 : check_runs 10 (Z.to_nat 9991) = true.
Proof. vm_compute. reflexivity. Qed.

(** Stopping the thread cuts its output short. *)
Lemma double_loop_prefix done s todo :
  forall i, exists k,
    Double.simulate_loop done s i todo
    = firstn k (Double.simulate_loop Double.never_done s i todo).
Proof.
  induction todo as [|todo IH]; intros i.
  - exists O. reflexivity.
  - cbn [Double.simulate_loop]. destruct (done i).
    + exists O. reflexivity.
    + destruct (IH (i + 1)%Z) as [k Hk]. exists (S k).
      unfold Double.never_done at 1. cbn [firstn]. now rewrite Hk.
Qed.

Lemma In_firstn_Z (x : Z) (l : list Z) :
  forall k, In x (firstn k l) -> In x l.
Proof.
  induction l as [|a l IH]; intros [|k] H; cbn [firstn] in H;
    try contradiction.
  destruct H as [H|H]; [now left | right; eapply IH; exact H].
Qed.

Lemma StronglySorted_firstn (l : list Z) :
  forall k, StronglySorted Z.le l -> StronglySorted Z.le (firstn k l).
Proof.
  induction l as [|a l IH]; intros [|k] H; cbn [firstn]; try constructor.
  - apply IH. now inversion H.
  - inversion H as [|? ? _ Hall]; subst.
    rewrite Forall_forall in *. intros x Hx. apply Hall.
    eapply In_firstn_Z; exact Hx.
Qed.

Lemma Forall_firstn_Z (P : Z -> Prop) (l : list Z) :
  forall k, Forall P l -> Forall P (firstn k l).
Proof.
  intros k H. rewrite Forall_forall in *. intros x Hx. apply H.
  eapply In_firstn_Z; exact Hx.
Qed.

Lemma double_steps_ge audio_len model_name :
  (10 <= Double.steps audio_len model_name)%Z.
Proof. unfold Double.steps. lia. Qed.




(** *** The schedule *)

Lemma simulate_loop_never_done s i todo :
  simulate_loop never_done s i todo = map (emitted_at s) (seq i todo).
Proof.
  revert i. induction todo as [|todo IH]; intros i; simpl; [reflexivity|].
  now rewrite IH.
Qed.

Lemma multiplier_range model_name :
  (multiplier (py "tiny") <= multiplier model_name)%Q
  /\ (multiplier model_name <= multiplier (py "large"))%Q.
Proof.
  unfold multiplier, time_multipliers. cbn [dict_get].
  repeat match goal with
         | |- context [str_eqb model_name ?k] => destruct (str_eqb model_name k)
         end; split; vm_compute; discriminate.
Qed.

Lemma str_eqb_eq a b : str_eqb a b = true <-> a = b.
Proof.
  revert b. induction a as [|c a IH]; intros [|d b]; simpl;
    try (split; (discriminate || reflexivity)).
  rewrite andb_true_iff, N.eqb_eq, IH. split.
  - now intros [-> ->].
  - now intros [= -> ->].
Qed.

Lemma dict_get_default {V} (d : list (str * V)) key default :
  ~ In key (map fst d) -> dict_get d key default = default.
Proof.
  induction d as [|[k v] d IH]; simpl; [reflexivity|]. intros Hnot.
  destruct (str_eqb key k) eqn:E.
  - apply str_eqb_eq in E. subst. tauto.
  - apply IH. tauto.
Qed.

Lemma expected_time_nonneg audio_len model_name :
  (0 <= expected_time audio_len model_name / 5)%Q.
Proof.
  unfold expected_time, total_duration.
  destruct (multiplier_range model_name) as [Hm _].
  assert (0 <= inject_Z (Z.of_N audio_len))%Q
    by (change 0%Q with (inject_Z 0); rewrite <- Zle_Qle; lia).
  assert (0.1 <= multiplier model_name)%Q by exact Hm.
  apply Qle_shift_div_l; [reflexivity|].
  rewrite Qmult_0_l. apply Qmult_le_0_compat; [|lra].
  apply Qle_shift_div_l; [reflexivity|]. lra.
Qed.

Lemma ease_out_increments (a h : Q) :
  (0 < h)%Q -> (a + h + h <= 1)%Q ->
  (0 < (a + h + h) * (2 - (a + h + h)) - (a + h) * (2 - (a + h))
   /\ (a + h + h) * (2 - (a + h + h)) - (a + h) * (2 - (a + h))
      < (a + h) * (2 - (a + h)) - a * (2 - a))%Q.
Proof. intros Hh Ha. split; nra. Qed.

(** C5: for every audio length and model-size tag, the number of simulated
    steps is max(10, floor(estimated_time / 5)), where estimated_time is the
    duration (samples / 16000) times the multiplier of the tag; the
    multipliers grow from tiny (0.1) to large (1.5) and an unknown tag gets
    0.5; an uninterrupted run emits, at step i, 50 + floor(40 * p * (2 - p))
    for p = i / steps; and the curve p * (2 - p) rises by strictly smaller
    amounts from one step to the next (faster early, slower near
    completion). *)
Theorem simulate_progress_schedule (audio_len : N) (model_name : str) :
  let s := steps audio_len model_name in
  let p i := (inject_Z (Z.of_nat i) / inject_Z s)%Q in
  s = Z.max 10 (Qfloor (expected_time audio_len model_name / 5))
  /\ expected_time audio_len model_name
     = (inject_Z (Z.of_N audio_len) / 16000 * multiplier model_name)%Q
  /\ map multiplier [py "tiny"; py "base"; py "small"; py "medium"; py "large"]
     = [0.1; 0.2; 0.4; 0.8; 1.5]%Q
  /\ (multiplier (py "tiny") <= multiplier model_name)%Q
  /\ (multiplier model_name <= multiplier (py "large"))%Q
  /\ (~ In model_name (map fst time_multipliers) ->
      multiplier model_name = 0.5%Q)
  /\ simulate_progress never_done audio_len model_name
     = map (fun i => (50 + Qfloor (p i * (2 - p i) * 40))%Z)
           (seq 0 (Z.to_nat s))
  /\ (forall i, (Z.of_nat i + 2 <= s)%Z ->
        (0 < p (i + 2)%nat * (2 - p (i + 2)%nat)
             - p (i + 1)%nat * (2 - p (i + 1)%nat)
         /\ p (i + 2)%nat * (2 - p (i + 2)%nat)
            - p (i + 1)%nat * (2 - p (i + 1)%nat)
            < p (i + 1)%nat * (2 - p (i + 1)%nat) - p i * (2 - p i))%Q).
Proof.
  intros s p.
  assert (Hs : (0 < s)%Z) by (pose proof (steps_pos audio_len model_name); lia).
  split; [|split; [|split; [|split; [|split; [|split; [|split]]]]]].
  - unfold s, steps. now rewrite py_int_floor by apply expected_time_nonneg.
  - reflexivity.
  - reflexivity.
  - apply multiplier_range.
  - apply multiplier_range.
  - intros Hnot. now apply dict_get_default.
  - unfold simulate_progress. fold s. rewrite simulate_loop_never_done.
    apply map_ext_in. intros i Hi. apply in_seq in Hi.
    assert (H : (0 <= ease_out (raw_progress i s))%Q).
    { apply ease_out_range; [now apply raw_progress_nonneg|].
      apply raw_progress_le_1; lia. }
    unfold emitted_at, progress_callback. f_equal.
    change (p i * (2 - p i))%Q with (ease_out (raw_progress i s)).
    apply py_int_floor. lra.
  - intros i Hi.
    pose proof (raw_progress_succ i s Hs) as E1.
    pose proof (raw_progress_succ (S i) s Hs) as E2.
    assert (H1 : (raw_progress (S (S i)) s <= 1)%Q)
      by (apply raw_progress_le_1; lia).
    replace (i + 2)%nat with (S (S i)) by lia.
    replace (i + 1)%nat with (S i) by lia.
    unfold p. fold (raw_progress i s) (raw_progress (S i) s)
      (raw_progress (S (S i)) s).
    rewrite E2, E1 in H1. rewrite E2, E1.
    apply ease_out_increments; [now apply inv_steps_pos | exact H1].
Qed.

(** ** The subtitle formatters *)

Lemma str_eqb_refl a : str_eqb a a = true.
Proof. now apply str_eqb_eq. Qed.

Lemma read_write_file path content fs :
  read_file path (write_file path content fs) = Some content.
Proof. unfold write_file. simpl. now rewrite str_eqb_refl. Qed.

(** C6: for a result whose segments are exactly
    [{start: 0, end: 1.5, text: "hi"}], whatever its other fields, the
    file and the file system, the SubRip branch writes exactly
    "1\n00:00:00,000 --> 00:00:01,500\nhi\n\n" and the WebVTT branch writes
    "WEBVTT\n\n" followed by "00:00:00.000 --> 00:00:01.500\nhi\n\n". *)
Theorem save_transcription_hi
    (json_dump_indent : transcription -> str) (text output_path : str)
    (language : option str) (fs : filesystem) :
  let result :=
    {| result_text := text;
       result_segments :=
         [ {| seg_start := 0; seg_end := 1.5; seg_text := py "hi" |} ];
       result_language := language |} in
  read_file output_path
    (save_transcription json_dump_indent result output_path (py "srt") fs)
  = Some (py "1" ++ nl ++ py "00:00:00,000 --> 00:00:01,500" ++ nl
          ++ py "hi" ++ nl ++ nl)
  /\ read_file output_path
       (save_transcription json_dump_indent result output_path (py "vtt") fs)
     = Some ((py "WEBVTT" ++ nl ++ nl)
             ++ (py "00:00:00.000 --> 00:00:01.500" ++ nl ++ py "hi"
                 ++ nl ++ nl)).
Proof.
  intros result. split.
  - change (save_transcription json_dump_indent result output_path (py "srt") fs)
      with (write_file output_path (srt_body 1 (result_segments result)) fs).
    rewrite read_write_file. f_equal.
  - change (save_transcription json_dump_indent result output_path (py "vtt") fs)
      with (write_file output_path
              (py "WEBVTT" ++ nl ++ nl ++ vtt_body (result_segments result)) fs).
    rewrite read_write_file. f_equal.
Qed.

(** ** The codecs of the delivery channel *)

Ltac div_lia := zify; Z.to_euclidean_division_equations; lia.

Ltac bool_to_prop :=
  repeat (progress
    rewrite ?orb_true_iff, ?andb_true_iff, ?orb_false_iff, ?andb_false_iff,
      ?negb_true_iff, ?negb_false_iff,
      ?N.eqb_eq, ?N.eqb_neq, ?N.leb_le, ?N.leb_gt, ?N.ltb_lt, ?N.ltb_ge in *).

Lemma utf8_decode_encode_char c b rest :
  utf8_encode_char c = Some b ->
  utf8_decode (b ++ rest) = option_map (cons c) (utf8_decode rest).
Proof.
  unfold utf8_encode_char.
  destruct (N.ltb_spec c 0x80) as [H1|H1].
  { intros [= <-]. cbn [app utf8_decode].
    apply N.ltb_lt in H1. now rewrite H1. }
  destruct (N.ltb_spec c 0x800) as [H2|H2].
  { intros Hb.
    assert (b = [0xC0 + c / 64; 0x80 + c mod 64]) by congruence.
    subst b. clear Hb.
    remember (0xC0 + c / 64) as b0 eqn:E0.
    remember (0x80 + c mod 64) as b1 eqn:E1.
    cbn [app utf8_decode].
    assert ((b0 <? 0x80) = false) as -> by (bool_to_prop; div_lia).
    assert ((b0 <? 0xC0) = false) as -> by (bool_to_prop; div_lia).
    assert ((b0 <? 0xE0) = true) as -> by (bool_to_prop; div_lia).
    assert ((b0 - 0xC0) * 64 + (b1 - 0x80) = c) as -> by div_lia.
    assert (is_continuation b1 && (0x80 <=? c) = true) as ->
      by (unfold is_continuation; bool_to_prop; div_lia).
    reflexivity. }
  destruct (N.ltb_spec c 0x10000) as [H3|H3].
  { destruct ((0xD800 <=? c) && (c <=? 0xDFFF)) eqn:Hs; [discriminate|].
    intros Hb.
    assert (b = [0xE0 + c / 4096; 0x80 + (c / 64) mod 64; 0x80 + c mod 64])
      by congruence.
    subst b. clear Hb.
    remember (0xE0 + c / 4096) as b0 eqn:E0.
    remember (0x80 + (c / 64) mod 64) as b1 eqn:E1.
    remember (0x80 + c mod 64) as b2 eqn:E2.
    cbn [app utf8_decode].
    assert ((b0 <? 0x80) = false) as -> by (bool_to_prop; div_lia).
    assert ((b0 <? 0xC0) = false) as -> by (bool_to_prop; div_lia).
    assert ((b0 <? 0xE0) = false) as -> by (bool_to_prop; div_lia).
    assert ((b0 <? 0xF0) = true) as -> by (bool_to_prop; div_lia).
    assert (((b0 - 0xE0) * 64 + (b1 - 0x80)) * 64 + (b2 - 0x80) = c)
      as -> by div_lia.
    rewrite Hs.
    assert (is_continuation b1 && is_continuation b2 && (0x800 <=? c) = true)
      as -> by (unfold is_continuation; bool_to_prop; div_lia).
    reflexivity. }
  destruct (N.ltb_spec c 0x110000) as [H4|H4]; [|discriminate].
  intros Hb.
  assert (b = [0xF0 + c / 262144; 0x80 + (c / 4096) mod 64;
               0x80 + (c / 64) mod 64; 0x80 + c mod 64]) by congruence.
  subst b. clear Hb.
  remember (0xF0 + c / 262144) as b0 eqn:E0.
  remember (0x80 + (c / 4096) mod 64) as b1 eqn:E1.
  remember (0x80 + (c / 64) mod 64) as b2 eqn:E2.
  remember (0x80 + c mod 64) as b3 eqn:E3.
  cbn [app utf8_decode].
  assert ((b0 <? 0x80) = false) as -> by (bool_to_prop; div_lia).
  assert ((b0 <? 0xC0) = false) as -> by (bool_to_prop; div_lia).
  assert ((b0 <? 0xE0) = false) as -> by (bool_to_prop; div_lia).
  assert ((b0 <? 0xF0) = false) as -> by (bool_to_prop; div_lia).
  assert ((b0 <? 0xF8) = true) as -> by (bool_to_prop; div_lia).
  assert ((((b0 - 0xF0) * 64 + (b1 - 0x80)) * 64 + (b2 - 0x80)) * 64
          + (b3 - 0x80) = c) as -> by div_lia.
  assert (is_continuation b1 && is_continuation b2 && is_continuation b3
          && (0x10000 <=? c) && (c <? 0x110000) = true) as ->
    by (unfold is_continuation; bool_to_prop; div_lia).
  reflexivity.
Qed.

Lemma utf8_decode_encode s bs :
  utf8_encode s = Some bs -> utf8_decode bs = Some s.
Proof.
  revert bs. induction s as [|c s IH]; intros bs; simpl.
  - now intros [= <-].
  - destruct (utf8_encode_char c) as [b|] eqn:Hc; [|discriminate].
    destruct (utf8_encode s) as [bs'|]; [|discriminate].
    intros [= <-]. rewrite (utf8_decode_encode_char c b bs' Hc).
    now rewrite (IH bs' eq_refl).
Qed.

Lemma b64_index_char i : i < 64 -> b64_index (b64_char i) = Some i.
Proof.
  intros Hi. unfold b64_char.
  destruct (N.ltb_spec i 26); [|destruct (N.ltb_spec i 52);
    [|destruct (N.ltb_spec i 62); [|destruct (N.eqb_spec i 62)]]];
    unfold b64_index;
    repeat match goal with
      | |- context [if ?b then _ else _] =>
          first [ assert (b = true) as -> by (bool_to_prop; lia)
                | assert (b = false) as -> by (bool_to_prop; lia) ]
      end; f_equal; lia.
Qed.

Lemma b64_char_not_pad i : (b64_char i =? b64_pad) = false.
Proof.
  unfold b64_char, b64_pad. apply N.eqb_neq.
  destruct (N.ltb_spec i 26); [lia|]. destruct (N.ltb_spec i 52); [lia|].
  destruct (N.ltb_spec i 62); [lia|]. destruct (N.eqb_spec i 62); lia.
Qed.

Lemma b64_char_text i : b64_text_char (b64_char i) = true.
Proof.
  unfold b64_char, b64_text_char, b64_pad.
  destruct (N.ltb_spec i 26); [bool_to_prop; lia|].
  destruct (N.ltb_spec i 52); [bool_to_prop; lia|].
  destruct (N.ltb_spec i 62); [bool_to_prop; lia|].
  destruct (N.eqb_spec i 62); reflexivity.
Qed.

Lemma list_ind3 {A} (P : list A -> Prop) :
  P [] -> (forall a, P [a]) -> (forall a b, P [a; b]) ->
  (forall a b c l, P l -> P (a :: b :: c :: l)) ->
  forall l, P l.
Proof.
  intros H0 H1 H2 H3 l.
  enough (P l /\ (forall a, P (a :: l)) /\ (forall a b, P (a :: b :: l)))
    by tauto.
  induction l as [|x l (IH0 & IH1 & IH2)]; [auto|].
  repeat split; auto.
Qed.

Lemma b64decode_group b0 b1 b2 rest bs :
  b0 < 256 -> b1 < 256 -> b2 < 256 ->
  b64decode rest = Some bs ->
  b64decode
    ([b64_char (b0 / 4); b64_char ((b0 mod 4) * 16 + b1 / 16);
      b64_char ((b1 mod 16) * 4 + b2 / 64); b64_char (b2 mod 64)] ++ rest)
  = Some (b0 :: b1 :: b2 :: bs).
Proof.
  intros H0 H1 H2 Hrest.
  pose proof (b64_index_char (b0 / 4)) as I0.
  pose proof (b64_index_char ((b0 mod 4) * 16 + b1 / 16)) as I1.
  pose proof (b64_index_char ((b1 mod 16) * 4 + b2 / 64)) as I2.
  pose proof (b64_index_char (b2 mod 64)) as I3.
  pose proof (b64_char_not_pad ((b1 mod 16) * 4 + b2 / 64)) as P2.
  pose proof (b64_char_not_pad (b2 mod 64)) as P3.
  remember (b64_char (b0 / 4)) as c0.
  remember (b64_char ((b0 mod 4) * 16 + b1 / 16)) as c1.
  remember (b64_char ((b1 mod 16) * 4 + b2 / 64)) as c2.
  remember (b64_char (b2 mod 64)) as c3.
  cbn [app b64decode].
  rewrite I0, I1, P2, I2, P3, I3, Hrest by div_lia.
  f_equal. f_equal; [div_lia|]. f_equal; [div_lia|]. f_equal. div_lia.
Qed.

Lemma b64decode_encode bs :
  Forall (fun b => b < 256) bs -> b64decode (b64encode bs) = Some bs.
Proof.
  induction bs as [|b0|b0 b1|b0 b1 b2 rest IH] using list_ind3; intros Hbs.
  - reflexivity.
  - apply Forall_cons_iff in Hbs as [H0 _].
    pose proof (b64_index_char (b0 / 4)) as I0.
    pose proof (b64_index_char ((b0 mod 4) * 16)) as I1.
    cbn [b64encode].
    remember (b64_char (b0 / 4)) as c0.
    remember (b64_char ((b0 mod 4) * 16)) as c1.
    cbn [b64decode]. rewrite I0, I1 by div_lia.
    rewrite !N.eqb_refl. f_equal. f_equal. div_lia.
  - apply Forall_cons_iff in Hbs as [H0 Hbs].
    apply Forall_cons_iff in Hbs as [H1 _].
    pose proof (b64_index_char (b0 / 4)) as I0.
    pose proof (b64_index_char ((b0 mod 4) * 16 + b1 / 16)) as I1.
    pose proof (b64_index_char ((b1 mod 16) * 4)) as I2.
    pose proof (b64_char_not_pad ((b1 mod 16) * 4)) as P2.
    cbn [b64encode].
    remember (b64_char (b0 / 4)) as c0.
    remember (b64_char ((b0 mod 4) * 16 + b1 / 16)) as c1.
    remember (b64_char ((b1 mod 16) * 4)) as c2.
    cbn [b64decode]. rewrite I0, I1, P2, I2 by div_lia.
    rewrite N.eqb_refl. f_equal. f_equal; [div_lia|]. f_equal. div_lia.
  - apply Forall_cons_iff in Hbs as [H0 Hbs].
    apply Forall_cons_iff in Hbs as [H1 Hbs].
    apply Forall_cons_iff in Hbs as [H2 Hbs].
    change (b64encode (b0 :: b1 :: b2 :: rest)) with
      ([b64_char (b0 / 4); b64_char ((b0 mod 4) * 16 + b1 / 16);
        b64_char ((b1 mod 16) * 4 + b2 / 64); b64_char (b2 mod 64)]
       ++ b64encode rest).
    apply b64decode_group; auto.
Qed.

Lemma utf8_encode_bytes s bs :
  utf8_encode s = Some bs -> Forall (fun b => b < 256) bs.
Proof.
  revert bs. induction s as [|c s IH]; intros bs; simpl.
  - intros [= <-]. constructor.
  - destruct (utf8_encode_char c) as [b|] eqn:Hc; [|discriminate].
    destruct (utf8_encode s) as [bs'|]; [|discriminate].
    intros [= <-]. apply Forall_app. split; [|now apply IH].
    unfold utf8_encode_char in Hc.
    destruct (N.ltb_spec c 0x80);
      [|destruct (N.ltb_spec c 0x800);
        [|destruct (N.ltb_spec c 0x10000);
          [destruct ((0xD800 <=? c) && (c <=? 0xDFFF)); [discriminate|]
          |destruct (N.ltb_spec c 0x110000); [|discriminate]]]];
      assert (Some b = Some b) as _ by reflexivity;
      match type of Hc with Some ?l = _ => assert (b = l) by congruence end;
      subst b; repeat constructor; div_lia.
Qed.

(** *** JSON *)

Lemma hex_value_digit d : d < 16 -> hex_value (hex_digit d) = Some d.
Proof.
  intros Hd. unfold hex_digit, hex_value.
  destruct (N.ltb_spec d 10);
    repeat match goal with
      | |- context [if ?b then _ else _] =>
          first [ assert (b = true) as -> by (bool_to_prop; lia)
                | assert (b = false) as -> by (bool_to_prop; lia) ]
      end; f_equal; lia.
Qed.

Lemma parse_string_body_cons c s' :
  parse_string_body (c :: s') =
  if c =? 0x22 then Some ([], s')
  else if c =? 0x5c then
    match s' with
    | [] => None
    | e :: s'' =>
        if e =? 0x75 then
          match s'' with
          | h0 :: h1 :: h2 :: h3 :: s3 =>
              match hex_value h0, hex_value h1, hex_value h2, hex_value h3 with
              | Some v0, Some v1, Some v2, Some v3 =>
                  prepend (((v0 * 16 + v1) * 16 + v2) * 16 + v3)
                          (parse_string_body s3)
              | _, _, _, _ => None
              end
          | _ => None
          end
        else
          match unescape e with
          | Some v => prepend v (parse_string_body s'')
          | None => None
          end
    end
  else if c <? 0x20 then None
  else prepend c (parse_string_body s').
Proof. reflexivity. Qed.

Lemma parse_escaped_char c tail :
  parse_string_body (json_escape_char c ++ tail)
  = prepend c (parse_string_body tail).
Proof.
  unfold json_escape_char.
  destruct (N.eqb_spec c 0x22) as [->|N1]; [reflexivity|].
  destruct (N.eqb_spec c 0x5c) as [->|N2]; [reflexivity|].
  destruct (N.eqb_spec c 0x0a) as [->|N3]; [reflexivity|].
  destruct (N.eqb_spec c 0x0d) as [->|N4]; [reflexivity|].
  destruct (N.eqb_spec c 0x09) as [->|N5]; [reflexivity|].
  destruct (N.eqb_spec c 0x08) as [->|N6]; [reflexivity|].
  destruct (N.eqb_spec c 0x0c) as [->|N7]; [reflexivity|].
  destruct (N.ltb_spec c 0x20) as [Hlt|Hge].
  - pose proof (hex_value_digit (c / 16)) as H2.
    pose proof (hex_value_digit (c mod 16)) as H3.
    remember (hex_digit (c / 16)) as h2. remember (hex_digit (c mod 16)) as h3.
    cbn [app]. rewrite parse_string_body_cons.
    change (0x5c =? 0x22) with false. change (0x5c =? 0x5c) with true.
    change (0x75 =? 0x75) with true. cbv iota.
    change (hex_value 0x30) with (Some 0).
    rewrite H2, H3 by div_lia.
    replace (((0 * 16 + 0) * 16 + c / 16) * 16 + c mod 16) with c by div_lia.
    reflexivity.
  - cbn [app]. rewrite parse_string_body_cons.
    apply N.eqb_neq in N1, N2. apply N.ltb_ge in Hge.
    now rewrite N1, N2, Hge.
Qed.

Lemma parse_string_body_escaped s rest :
  parse_string_body (flat_map json_escape_char s ++ 0x22 :: rest)
  = Some (s, rest).
Proof.
  induction s as [|c s IH]; [reflexivity|].
  cbn [flat_map]. rewrite <- app_assoc, parse_escaped_char, IH. reflexivity.
Qed.

Lemma span_number_token repr c rest :
  Forall (fun c => is_number_char c = true) repr ->
  is_number_char c = false ->
  span_number (repr ++ c :: rest) = (repr, c :: rest).
Proof.
  intros Hr Hc. induction Hr as [|x repr Hx Hr IH]; simpl.
  - now rewrite Hc.
  - now rewrite Hx, IH.
Qed.

Lemma parse_value_text v c rest :
  wf_value v -> is_number_char c = false ->
  parse_value (json_value v ++ c :: rest) = Some (v, c :: rest).
Proof.
  intros Hv Hc. destruct v as [s|repr]; cbn [json_value].
  - unfold json_string. rewrite <- !app_assoc. cbn [app parse_value].
    change (0x22 =? 0x22) with true. cbv iota.
    now rewrite parse_string_body_escaped.
  - destruct Hv as [Hne Hall]. destruct repr as [|x repr]; [congruence|].
    pose proof (Forall_inv Hall) as Hx. cbv beta in Hx.
    unfold parse_value. cbn [app].
    assert ((x =? 0x22) = false) as ->.
    { apply N.eqb_neq. intros ->. discriminate. }
    change (x :: repr ++ c :: rest) with ((x :: repr) ++ c :: rest).
    now rewrite (span_number_token _ _ _ Hall Hc).
Qed.

Lemma skip_ws_value v tail :
  wf_value v -> skip_ws (0x20 :: json_value v ++ tail) = json_value v ++ tail.
Proof.
  intros Hv. destruct v as [s|repr]; cbn [json_value].
  - reflexivity.
  - destruct Hv as [Hne Hall]. destruct repr as [|x repr]; [congruence|].
    pose proof (Forall_inv Hall) as Hx. cbv beta in Hx.
    cbn [app]. change (skip_ws (0x20 :: x :: repr ++ tail))
      with (if json_ws x then skip_ws (repr ++ tail) else x :: repr ++ tail).
    assert (json_ws x = false) as ->; [|reflexivity].
    unfold json_ws, is_number_char in *. bool_to_prop. lia.
Qed.

Lemma parse_members_space fuel text :
  parse_members fuel (0x20 :: text) = parse_members fuel text.
Proof. destruct fuel; reflexivity. Qed.

Lemma json_item_text k v tail :
  json_item (k, v) ++ tail
  = 0x22 :: flat_map json_escape_char k
    ++ 0x22 :: 0x3a :: 0x20 :: json_value v ++ tail.
Proof.
  unfold json_item, json_string. cbn [fst snd].
  rewrite <- !app_assoc. reflexivity.
Qed.

Lemma parse_member k v sep tail fuel :
  wf_value v -> sep = 0x2c \/ sep = 0x7d ->
  parse_members (S fuel) (json_item (k, v) ++ sep :: tail)
  = if sep =? 0x2c then
      match parse_members fuel tail with
      | Some (d, rest) => Some ((k, v) :: d, rest)
      | None => None
      end
    else Some ([(k, v)], tail).
Proof.
  intros Hv Hsep. rewrite json_item_text.
  assert (Hnum : is_number_char sep = false) by (destruct Hsep; now subst).
  cbn [parse_members].
  change (skip_ws (0x22 :: ?t)) with (0x22 :: t).
  change (0x22 =? 0x22) with true. cbv iota.
  rewrite parse_string_body_escaped.
  change (skip_ws (0x3a :: ?t)) with (0x3a :: t).
  change (0x3a =? 0x3a) with true. cbv iota.
  rewrite (skip_ws_value v _ Hv).
  rewrite (parse_value_text v sep tail Hv Hnum).
  destruct Hsep; subst; reflexivity.
Qed.

Lemma parse_members_items kv d rest fuel :
  wf_dict (kv :: d) -> (List.length d < fuel)%nat ->
  parse_members fuel
    (join (py ", ") (map json_item (kv :: d)) ++ 0x7d :: rest)
  = Some (kv :: d, rest).
Proof.
  revert kv fuel. induction d as [|kv' d IH]; intros [k v] fuel Hwf Hfuel;
    (destruct fuel as [|fuel]; [simpl in Hfuel; lia|]);
    apply Forall_cons_iff in Hwf as [Hv Hwf]; cbn [snd] in Hv.
  - change (join (py ", ") (map json_item [(k, v)])) with (json_item (k, v)).
    now rewrite parse_member by auto.
  - change (join (py ", ") (map json_item ((k, v) :: kv' :: d)))
      with (json_item (k, v) ++ [0x2c; 0x20]
            ++ join (py ", ") (map json_item (kv' :: d))).
    rewrite <- !app_assoc. cbn [app].
    rewrite parse_member by auto.
    change (0x2c =? 0x2c) with true. cbv iota.
    rewrite parse_members_space.
    rewrite (IH kv' fuel Hwf); [reflexivity|]. simpl in Hfuel. lia.
Qed.

Lemma join_length sep (parts : list str) :
  Forall (fun part => part <> []) parts ->
  (List.length parts <= List.length (join sep parts))%nat.
Proof.
  induction 1 as [|part parts Hp Hparts IH]; [simpl; lia|].
  destruct parts as [|part' parts].
  - destruct part; [congruence|]. simpl. lia.
  - change (join sep (part :: part' :: parts))
      with (part ++ sep ++ join sep (part' :: parts)).
    rewrite !length_app. destruct part; [congruence|].
    simpl in *. lia.
Qed.

Lemma json_item_nonempty kv : json_item kv <> [].
Proof. destruct kv. unfold json_item, json_string. discriminate. Qed.

Lemma json_loads_dumps d : wf_dict d -> json_loads (json_dumps d) = Some d.
Proof.
  intros Hwf. destruct d as [|kv d]; [reflexivity|].
  unfold json_dumps.
  change (py "{") with [0x7b]. change (py "}") with [0x7d].
  cbn [app]. unfold json_loads.
  change (skip_ws (0x7b :: ?t)) with (0x7b :: t).
  change (0x7b =? 0x7b) with true. cbv iota.
  remember (join (py ", ") (map json_item (kv :: d)) ++ [0x7d]) as s1 eqn:E.
  assert (Hfuel : (List.length d < S (List.length s1))%nat).
  { subst s1. rewrite length_app.
    assert (HF : Forall (fun part : str => part <> [])
                   (map json_item (kv :: d))).
    { apply Forall_forall. intros x Hx. apply in_map_iff in Hx as (y & <- & _).
      apply json_item_nonempty. }
    pose proof (join_length (py ", ") _ HF) as H.
    rewrite length_map in H. cbn [List.length] in H. lia. }
  pose proof (parse_members_items kv d [] _ Hwf Hfuel) as Hparse.
  rewrite <- E in Hparse.
  assert (Hq : exists t, s1 = 0x22 :: t).
  { subst s1. destruct kv as [k v]. destruct d.
    - change (join (py ", ") (map json_item [(k, v)])) with (json_item (k, v)).
      rewrite json_item_text. eauto.
    - change (join (py ", ") (map json_item ((k, v) :: p :: d)))
        with (json_item (k, v) ++ [0x2c; 0x20]
              ++ join (py ", ") (map json_item (p :: d))).
      rewrite <- !app_assoc, json_item_text. eauto. }
  destruct Hq as [t Ht]. rewrite Ht at 1.
  change (skip_ws (0x22 :: t)) with (0x22 :: t).
  change (0x22 =? 0x7d) with false. cbv iota.
  now rewrite Hparse.
Qed.

(** *** Finding the delimiters *)

Lemma starts_with_app prefix x : starts_with prefix (prefix ++ x) = true.
Proof.
  induction prefix as [|p prefix IH]; [reflexivity|].
  simpl. now rewrite N.eqb_refl, IH.
Qed.

Lemma starts_with_nth_error prefix s i :
  starts_with prefix s = true -> (i < List.length prefix)%nat ->
  nth_error s i = nth_error prefix i.
Proof.
  revert s i. induction prefix as [|p prefix IH]; intros s i H Hi;
    [simpl in Hi; lia|].
  destruct s as [|c s]; [discriminate|]. simpl in H.
  apply andb_prop in H as [Hpc H]. apply N.eqb_eq in Hpc. subst c.
  destruct i as [|i]; [reflexivity|]. simpl in *. apply IH; [exact H | lia].
Qed.

Lemma skipn_length_app {A} (l r : list A) : skipn (List.length l) (l ++ r) = r.
Proof. induction l; simpl; auto. Qed.

Lemma partition_unfold sep s :
  partition sep s =
  if starts_with sep s then Some ([], skipn (List.length sep) s)
  else match s with
       | [] => None
       | c :: s' =>
           match partition sep s' with
           | Some (before, after) => Some (c :: before, after)
           | None => None
           end
       end.
Proof. destruct s; reflexivity. Qed.

(** When a character occurs in the separator but not in the text before
    it, nor earlier in the separator, the first occurrence of the separator
    is the one after that text. *)
Lemma partition_first sep before rest x j :
  nth_error sep j = Some x ->
  (forall i, (i < j)%nat -> nth_error sep i <> Some x) ->
  Forall (fun c => c <> x) before ->
  partition sep (before ++ sep ++ rest) = Some (before, rest).
Proof.
  intros Hj Hmin Hbefore.
  assert (Hlen : (j < List.length sep)%nat)
    by (apply nth_error_Some; congruence).
  induction Hbefore as [|c before Hc Hbefore IH].
  - cbn [app]. rewrite partition_unfold, starts_with_app.
    now rewrite skipn_length_app.
  - rewrite partition_unfold.
    destruct (starts_with sep ((c :: before) ++ sep ++ rest)) eqn:Hs.
    + exfalso.
      pose proof (starts_with_nth_error _ _ j Hs Hlen) as Hn.
      rewrite Hj in Hn.
      destruct (Nat.lt_ge_cases j (List.length (c :: before))) as [Hlt|Hge].
      * rewrite nth_error_app1 in Hn by exact Hlt.
        apply nth_error_In in Hn.
        assert (HF : Forall (fun c => c <> x) (c :: before))
          by now constructor.
        rewrite Forall_forall in HF. now apply (HF x Hn).
      * rewrite nth_error_app2 in Hn by exact Hge.
        rewrite nth_error_app1 in Hn by lia.
        apply (Hmin (j - List.length (c :: before))%nat); [simpl in *; lia|].
        exact Hn.
    + cbn [app]. now rewrite IH.
Qed.

Lemma b64encode_text bs :
  Forall (fun c => b64_text_char c = true) (b64encode bs).
Proof.
  induction bs as [|b0|b0 b1|b0 b1 b2 rest IH] using list_ind3.
  - constructor.
  - cbn [b64encode].
    repeat constructor; (apply b64_char_text || reflexivity).
  - cbn [b64encode].
    repeat constructor; (apply b64_char_text || reflexivity).
  - change (b64encode (b0 :: b1 :: b2 :: rest)) with
      ([b64_char (b0 / 4); b64_char ((b0 mod 4) * 16 + b1 / 16);
        b64_char ((b1 mod 16) * 4 + b2 / 64); b64_char (b2 mod 64)]
       ++ b64encode rest).
    apply Forall_app. split; [|exact IH].
    repeat constructor; apply b64_char_text.
Qed.

Lemma b64_text_char_plain c :
  b64_text_char c = true -> c <> 0x5f /\ c <> 0x0a.
Proof. unfold b64_text_char, b64_pad. intros H. bool_to_prop. lia. Qed.

Lemma delimiter_underscore :
  nth_error delimiter 16 = Some 0x5f
  /\ forall i, (i < 16)%nat -> nth_error delimiter i <> Some 0x5f.
Proof.
  split; [reflexivity|]. intros i Hi.
  do 16 (destruct i as [|i]; [discriminate|]). lia.
Qed.

Lemma extract_span_line span :
  Forall (fun c => c <> 0x5f) span ->
  extract_span (delimiter ++ span ++ delimiter) = Some span.
Proof.
  intros Hspan. destruct delimiter_underscore as [Hj Hmin].
  pose proof (partition_first delimiter [] (span ++ delimiter) 0x5f 16 Hj Hmin
                (Forall_nil _)) as H1.
  pose proof (partition_first delimiter span [] 0x5f 16 Hj Hmin Hspan) as H2.
  rewrite app_nil_r in H2. rewrite app_nil_l in H1.
  unfold extract_span. now rewrite H1, H2.
Qed.

(** *** Encodable texts *)

Lemma utf8_encode_scalar s :
  Forall (fun c => is_scalar c = true) s ->
  exists bs, utf8_encode s = Some bs.
Proof.
  induction 1 as [|c s Hc Hs [bs IH]]; [now exists []|].
  simpl. rewrite IH.
  assert (exists b, utf8_encode_char c = Some b) as [b ->]; [|eauto].
  unfold utf8_encode_char, is_scalar in *.
  apply andb_prop in Hc as [Hlt Hsur]. apply negb_true_iff in Hsur.
  rewrite Hsur, Hlt.
  destruct (c <? 0x80), (c <? 0x800), (c <? 0x10000); eauto.
Qed.


Lemma json_escape_scalar c :
  is_scalar c = true ->
  Forall (fun c => is_scalar c = true) (json_escape_char c).
Proof.
  intros Hc. unfold json_escape_char.
  repeat match goal with
         | |- context [if ?a =? ?b then _ else _] =>
             destruct (a =? b); [now repeat constructor|]
         end.
  destruct (N.ltb_spec c 0x20) as [Hlt|_]; [|now repeat constructor].
  repeat constructor; unfold hex_digit.
  - destruct (c / 16 <? 10); unfold is_scalar; bool_to_prop; div_lia.
  - destruct (c mod 16 <? 10); unfold is_scalar; bool_to_prop; div_lia.
Qed.

Lemma json_string_scalar s :
  Forall (fun c => is_scalar c = true) s ->
  Forall (fun c => is_scalar c = true) (json_string s).
Proof.
  intros Hs. unfold json_string. apply Forall_app. split; [now repeat constructor|].
  apply Forall_app. split; [|now repeat constructor].
  apply Forall_flat_map. eapply Forall_impl; [|exact Hs].
  apply json_escape_scalar.
Qed.

Lemma join_Forall (P : N -> Prop) sep parts :
  Forall P sep -> Forall (Forall P) parts -> Forall P (join sep parts).
Proof.
  intros Hsep. induction 1 as [|part parts Hp Hparts IH]; [constructor|].
  destruct parts as [|part' parts]; [exact Hp|].
  change (join sep (part :: part' :: parts))
    with (part ++ sep ++ join sep (part' :: parts)).
  repeat (apply Forall_app; split); auto.
Qed.

Lemma json_dumps_scalar d :
  scalar_dict d -> Forall (fun c => is_scalar c = true) (json_dumps d).
Proof.
  intros Hd. unfold json_dumps. destruct d as [|kv d]; [now repeat constructor|].
  apply Forall_app. split; [now repeat constructor|].
  apply Forall_app. split; [|now repeat constructor].
  apply join_Forall; [now repeat constructor|].
  apply Forall_map. eapply Forall_impl; [|exact Hd].
  intros [k v] [Hk Hv]. cbn [fst snd] in *. unfold json_item. cbn [fst snd].
  apply Forall_app. split; [now apply json_string_scalar|].
  apply Forall_app. split; [now repeat constructor|].
  destruct v; [now apply json_string_scalar | exact Hv].
Qed.

Lemma delimiter_one_line : Forall (fun c => c <> 0x0a) delimiter.
Proof.
  apply Forall_forall. intros c Hc ->. revert Hc.
  vm_compute. intuition discriminate.
Qed.

(** C2: the delivery channel round-trips.  For every result object (a dict
    of strings and floats), the line printed for it -- its JSON text,
    encoded as UTF-8 and then as base64, between the two delimiters -- is a
    single line, and extracting the span between the delimiters, decoding
    it and parsing it gives the result object back.  The line exists
    whenever no string of the result holds a surrogate code point. *)
Theorem delivery_round_trip (final_result : pydict) :
  wf_dict final_result ->
  (scalar_dict final_result ->
   exists line, delivery_line final_result = Some line)
  /\ (forall line,
        delivery_line final_result = Some line ->
        Forall (fun c => c <> 0x0a) line
        /\ receive line = Some final_result).
Proof.
  intros Hwf. split.
  - intros Hscalar. unfold delivery_line.
    destruct (utf8_encode_scalar _ (json_dumps_scalar _ Hscalar)) as [bs ->].
    eauto.
  - intros line. unfold delivery_line.
    destruct (utf8_encode (json_dumps final_result)) as [bs|] eqn:Henc;
      [|discriminate].
    intros Hline.
    assert (line = delimiter ++ b64encode bs ++ delimiter) by congruence.
    subst line. clear Hline.
    pose proof (b64encode_text bs) as Htext. split.
    + apply Forall_app. split; [apply delimiter_one_line|].
      apply Forall_app. split; [|apply delimiter_one_line].
      eapply Forall_impl; [|exact Htext]. intros c Hc.
      now apply b64_text_char_plain.
    + unfold receive. rewrite extract_span_line.
      * rewrite b64decode_encode by (eapply utf8_encode_bytes; eauto).
        rewrite (utf8_decode_encode _ _ Henc).
        now apply json_loads_dumps.
      * eapply Forall_impl; [|exact Htext]. intros c Hc.
        now apply b64_text_char_plain.
Qed.

(** A result with a quote, a backslash, a line end, a control character,
    accented and astral characters in its text: its line is decoded to the
    same result. *)
Lemma delivery_round_trip_witness :
  exists line,
    delivery_line
      [ (py "text", JStr ([0x22; 0x5c; 0x0a; 0x01; 0xe6; 0x20ac; 0x1f600]
                          ++ py "hi there"));
        (py "language", JStr (py "en"));
        (py "duration", JFloat (py "12.5")) ] = Some line
    /\ Forall (fun c => c <> 0x0a) line
    /\ receive line
       = Some [ (py "text", JStr ([0x22; 0x5c; 0x0a; 0x01; 0xe6; 0x20ac; 0x1f600]
                                  ++ py "hi there"));
                (py "language", JStr (py "en"));
                (py "duration", JFloat (py "12.5")) ].
Proof.
  eexists. split; [vm_compute; reflexivity|].
  apply (delivery_round_trip
           [ (py "text", JStr ([0x22; 0x5c; 0x0a; 0x01; 0xe6; 0x20ac; 0x1f600]
                               ++ py "hi there"));
             (py "language", JStr (py "en"));
             (py "duration", JFloat (py "12.5")) ]).
  - repeat constructor; discriminate.
  - vm_compute. reflexivity.
Defined.

(** ** The batch invoker *)

Lemma transcribe_video_load_model_raises w video_path model_name language e :
  Cli.load_model w model_name = Raises e ->
  Cli.transcribe_video w video_path model_name language
  = ([ Cli.Progress 10 (py "Starting transcription: " ++ model_name
                        ++ py " model");
       Cli.Progress 10 (py "Loading model...");
       Cli.LoadModel model_name;
       Cli.LogError (py "Error during transcription: " ++ exn_message e);
       Cli.Progress 0 (py "Error: " ++ exn_message e) ],
     Raises e).
Proof.
  intros H. unfold Cli.transcribe_video, Cli.print_progress, bind, call,
    emit, try_except, raise.
  rewrite H. reflexivity.
Qed.

Lemma transcribe_video_load_audio_raises w video_path model_name language e :
  Cli.load_model w model_name = Returns tt ->
  Cli.load_audio w video_path = Raises e ->
  Cli.transcribe_video w video_path model_name language
  = ([ Cli.Progress 10 (py "Starting transcription: " ++ model_name
                        ++ py " model");
       Cli.Progress 10 (py "Loading model...");
       Cli.LoadModel model_name;
       Cli.Progress 30 (py "Model loaded, detecting audio...");
       Cli.LoadAudio video_path;
       Cli.LogError (py "Error during transcription: " ++ exn_message e);
       Cli.Progress 0 (py "Error: " ++ exn_message e) ],
     Raises e).
Proof.
  intros H1 H2. unfold Cli.transcribe_video, Cli.print_progress, bind, call,
    emit, try_except, raise.
  rewrite H1, H2. reflexivity.
Qed.

Lemma transcribe_video_inference_raises w video_path model_name language
    audio e :
  Cli.load_model w model_name = Returns tt ->
  Cli.load_audio w video_path = Returns audio ->
  Cli.transcribe w audio (Cli.options language) = Raises e ->
  Cli.transcribe_video w video_path model_name language
  = ([ Cli.Progress 10 (py "Starting transcription: " ++ model_name
                        ++ py " model");
       Cli.Progress 10 (py "Loading model...");
       Cli.LoadModel model_name;
       Cli.Progress 30 (py "Model loaded, detecting audio...");
       Cli.LoadAudio video_path;
       Cli.Progress 50
         (py "Audio loaded (" ++ Cli.format_time (total_duration audio)
          ++ py "), estimated time: "
          ++ Cli.format_time (total_duration audio * multiplier model_name)%Q);
       Cli.Transcribe audio (Cli.options language);
       Cli.LogError (py "Error during transcription: " ++ exn_message e);
       Cli.Progress 0 (py "Error: " ++ exn_message e) ],
     Raises e).
Proof.
  intros H1 H2 H3. unfold Cli.transcribe_video, Cli.print_progress, bind, call,
    emit, try_except, raise.
  rewrite H1, H2, H3. reflexivity.
Qed.

(** C7: in batch mode, when the model load or the inference call raises,
    the exception is caught, a record with progress 0 and the error text is
    printed last, the exception is raised again and the process exits with
    status 1; a run in which [transcribe_video] returns exits with
    status 0. *)
Theorem batch_exit_status (w : Cli.world) (video_path model_name : str)
    (language : option str) :
  (forall e,
      Cli.load_model w model_name = Raises e
      \/ (exists audio,
             Cli.load_model w model_name = Returns tt
             /\ Cli.load_audio w video_path = Returns audio
             /\ Cli.transcribe w audio (Cli.options language) = Raises e) ->
      (exists t,
          Cli.transcribe_video w video_path model_name language
          = (t ++ [Cli.Progress 0 (py "Error: " ++ exn_message e)], Raises e))
      /\ snd (Cli.main w video_path model_name language) = 1%Z)
  /\ (forall t v,
        Cli.transcribe_video w video_path model_name language
        = (t, Returns v) ->
        snd (Cli.main w video_path model_name language) = 0%Z).
Proof.
  split.
  - intros e [H|(audio & H1 & H2 & H3)].
    + pose proof (transcribe_video_load_model_raises
                    w video_path model_name language e H) as E.
      split.
      * eexists. rewrite E.
        change [?a; ?b; ?c; ?d; ?x] with ([a; b; c; d] ++ [x]). reflexivity.
      * unfold Cli.main. now rewrite E.
    + pose proof (transcribe_video_inference_raises
                    w video_path model_name language audio e H1 H2 H3) as E.
      split.
      * eexists. rewrite E.
        change [?a; ?b; ?c; ?d; ?f; ?g; ?h; ?i; ?x]
          with ([a; b; c; d; f; g; h; i] ++ [x]). reflexivity.
      * unfold Cli.main. now rewrite E.
  - intros t v E. unfold Cli.main. now rewrite E.
Qed.

(** *** Saving and sending the result *)

Lemma deliveries_app t1 t2 :
  Cli.deliveries (t1 ++ t2) = (Cli.deliveries t1 + Cli.deliveries t2)%nat.
Proof. unfold Cli.deliveries. now rewrite filter_app, length_app. Qed.

Lemma save_result_no_delivery w video_path final_result :
  Cli.deliveries (fst (Cli.save_result w video_path final_result)) = 0%nat.
Proof.
  unfold Cli.save_result, Cli.print_progress, bind, call, emit, raise, ret.
  destruct (Cli.makedirs w _) as [[]|e1]; [|reflexivity].
  destruct (Cli.open_w w _) as [[]|e2]; [|reflexivity].
  destruct (utf8_encode _) as [bytes|]; [|reflexivity].
  destruct (Cli.write_bytes w _ _) as [[]|e3]; reflexivity.
Qed.

Lemma send_result_trace w text final_result :
  try_except (Cli.send_result w text final_result) Cli.send_handler
  = match delivery_line final_result with
    | Some line =>
        ([ Cli.LogInfo (py "Sending transcription result (length: "
                        ++ str_of_int (Z.of_nat (List.length text))
                        ++ py " chars)");
           Cli.LogInfo (py "Base64 JSON length: "
                        ++ str_of_int
                             (Z.of_nat (List.length line
                                        - 2 * List.length delimiter))
                        ++ py " chars");
           Cli.Payload line ], Returns tt)
    | None =>
        let e := Cli.utf8_error w (json_dumps final_result) in
        ([ Cli.LogError (py "Error formatting result: " ++ exn_message e);
           Cli.Progress 0 (py "Error formatting result: " ++ exn_message e) ],
         Returns tt)
    end.
Proof.
  unfold Cli.send_result, delivery_line, Cli.send_handler, Cli.print_progress,
    try_except, bind, emit, raise.
  destruct (utf8_encode (json_dumps final_result)) as [bytes|]; [|reflexivity].
  cbn [app]. repeat f_equal.
  rewrite !length_app. lia.
Qed.

Lemma finalize_save_raises w video_path model_name duration result ts e :
  result <> [] ->
  strip (dict_get result (py "text") []) <> [] ->
  let text := sanitize_for_json (Cli.normalize_NFKD w) (Cli.isprintable w)
                (strip (dict_get result (py "text") [])) in
  let final_result :=
    Cli.initial_result w text result model_name duration in
  Cli.save_result w video_path final_result = (ts, Raises e) ->
  Cli.finalize w video_path model_name duration result
  = ([Cli.Progress 90 (py "Finalizing transcription...")]
     ++ ts
     ++ [ Cli.LogError (py "Error saving transcription file: "
                        ++ exn_message e);
          Cli.Progress 0 (py "Error saving file: " ++ exn_message e) ]
     ++ fst (try_except (Cli.send_result w text final_result) Cli.send_handler),
     Returns (Some final_result)).
Proof.
  intros Hres Htext text final_result Hsave.
  unfold Cli.finalize. destruct result as [|kv result]; [congruence|].
  subst final_result text. unfold str in *.
  destruct (strip (dict_get (kv :: result) (py "text") [])) as [|c l] eqn:E;
    [congruence|].
  cbv zeta. rewrite Hsave.
  cbv beta iota zeta delta
    [bind try_except emit ret Cli.save_handler Cli.send_handler
     Cli.print_progress fst].
  destruct (Cli.send_result w _ _) as [t [[]|e']];
    cbn [app]; rewrite ?app_nil_r, <- ?app_assoc; reflexivity.
Qed.

Lemma transcribe_video_finalize w video_path model_name language audio
    result t v :
  Cli.load_model w model_name = Returns tt ->
  Cli.load_audio w video_path = Returns audio ->
  Cli.transcribe w audio (Cli.options language) = Returns result ->
  Cli.finalize w video_path model_name (total_duration audio) result
  = (t, Returns v) ->
  Cli.transcribe_video w video_path model_name language
  = (prelude model_name video_path audio language ++ t, Returns v).
Proof.
  intros H1 H2 H3 H4. unfold Cli.transcribe_video.
  cbv beta iota zeta delta
    [bind try_except emit ret call raise Cli.print_progress].
  rewrite H1, H2, H3.
  cbv beta iota zeta delta
    [bind try_except emit ret call raise Cli.print_progress].
  rewrite H4. reflexivity.
Qed.

(** C9, as amended: if writing the output file fails in batch mode, the
    failure is caught and reported by a record with progress 0 on standard
    output, no delivery line precedes that record, and the delivery is then
    attempted once: when the JSON text of the result can be encoded as
    UTF-8, exactly one delimiter-wrapped base64 line follows, carrying the
    in-memory result; otherwise one record "Error formatting result"
    follows and no delivery line. *)
Theorem write_failure_then_delivery (w : Cli.world)
    (video_path model_name : str) (language : option str) (audio : N)
    (result : list (str * str)) (e : exn) :
  Cli.load_model w model_name = Returns tt ->
  Cli.load_audio w video_path = Returns audio ->
  Cli.transcribe w audio (Cli.options language) = Returns result ->
  result <> [] ->
  strip (dict_get result (py "text") []) <> [] ->
  let text := sanitize_for_json (Cli.normalize_NFKD w) (Cli.isprintable w)
                (strip (dict_get result (py "text") [])) in
  let final_result :=
    Cli.initial_result w text result model_name (total_duration audio) in
  snd (Cli.save_result w video_path final_result) = Raises e ->
  exists before after,
    Cli.transcribe_video w video_path model_name language
    = (before
       ++ [ Cli.LogError (py "Error saving transcription file: "
                          ++ exn_message e);
            Cli.Progress 0 (py "Error saving file: " ++ exn_message e) ]
       ++ after,
       Returns (Some final_result))
    /\ Cli.deliveries before = 0%nat
    /\ match delivery_line final_result with
       | Some line =>
           Cli.deliveries after = 1%nat
           /\ (exists info1 info2,
                  after = [Cli.LogInfo info1; Cli.LogInfo info2;
                           Cli.Payload line])
       | None =>
           let e' := Cli.utf8_error w (json_dumps final_result) in
           after = [ Cli.LogError (py "Error formatting result: "
                                   ++ exn_message e');
                     Cli.Progress 0 (py "Error formatting result: "
                                     ++ exn_message e') ]
       end.
Proof.
  intros H1 H2 H3 Hres Htext text final_result Hsave.
  destruct (Cli.save_result w video_path final_result) as [ts o] eqn:Es.
  cbn [snd] in Hsave. subst o.
  pose proof (save_result_no_delivery w video_path final_result) as Hts.
  rewrite Es in Hts. cbn [fst] in Hts.
  pose proof (finalize_save_raises w video_path model_name
                (total_duration audio) result ts e Hres Htext Es) as Hfin.
  cbv zeta in Hfin. fold text in Hfin. fold final_result in Hfin.
  exists (prelude model_name video_path audio language
          ++ [Cli.Progress 90 (py "Finalizing transcription...")] ++ ts).
  exists (fst (try_except (Cli.send_result w text final_result)
                 Cli.send_handler)).
  split; [|split].
  - rewrite (transcribe_video_finalize _ _ _ _ _ _ _ _ H1 H2 H3 Hfin).
    now rewrite <- !app_assoc.
  - rewrite !deliveries_app, Hts. reflexivity.
  - rewrite send_result_trace.
    destruct (delivery_line final_result) as [line|]; cbn [fst].
    + split; [reflexivity | eauto].
    + reflexivity.
Qed.

(** The disk is full: the failure is reported and the result is delivered
    once, after the report. *)
Lemma write_failure_then_delivery_witness :
  exists before after,
    Cli.transcribe_video
      (example_world true (Returns tt) (Returns 40000)
         (Returns example_result) (Raises disk_full))
      (py "v.mp4") (py "base") None
    = (before
       ++ [ Cli.LogError
              (py "Error saving transcription file: No space left on device");
            Cli.Progress 0 (py "Error saving file: No space left on device") ]
       ++ after,
       Returns
         (Some [ (py "text", JStr (py "hi"));
                 (py "language", JStr (py "en"));
                 (py "timestamp", JStr (py "2025-01-01T00:00:00"));
                 (py "model", JStr (py "base"));
                 (py "duration", JFloat (py "2.5")) ]))
    /\ Cli.deliveries before = 0%nat
    /\ Cli.deliveries after = 1%nat.
Proof.
  destruct (write_failure_then_delivery
              (example_world true (Returns tt) (Returns 40000)
                 (Returns example_result) (Raises disk_full))
              (py "v.mp4") (py "base") None 40000 example_result disk_full)
    as (before & after & Hrun & Hbefore & Hafter);
    try reflexivity; try discriminate.
  exists before, after. split; [exact Hrun|]. split; [exact Hbefore|].
  exact (proj1 Hafter).
Defined.

(** The name of the model holds a lone surrogate: writing the file fails
    with the encoding error, the failure is reported, and the delivery
    fails in the same way: no delivery line is printed. *)
Lemma write_failure_without_delivery :
  snd (Cli.save_result
         (example_world true (Returns tt) (Returns 40000)
            (Returns example_result) (Returns tt))
         (py "v.mp4")
         [ (py "text", JStr (py "hi"));
           (py "language", JStr (py "en"));
           (py "timestamp", JStr (py "2025-01-01T00:00:00"));
           (py "model", JStr surrogate_model);
           (py "duration", JFloat (py "2.5")) ])
  = Raises {| exn_message := py "surrogates not allowed" |}
  /\ skipn 10
       (fst (Cli.transcribe_video
               (example_world true (Returns tt) (Returns 40000)
                  (Returns example_result) (Returns tt))
               (py "v.mp4") surrogate_model None))
     = [ Cli.LogError
           (py "Error saving transcription file: surrogates not allowed");
         Cli.Progress 0 (py "Error saving file: surrogates not allowed");
         Cli.LogError (py "Error formatting result: surrogates not allowed");
         Cli.Progress 0 (py "Error formatting result: surrogates not allowed") ]
  /\ Cli.deliveries
       (fst (Cli.transcribe_video
               (example_world true (Returns tt) (Returns 40000)
                  (Returns example_result) (Returns tt))
               (py "v.mp4") surrogate_model None))
     = 0%nat
  /\ snd (Cli.transcribe_video
            (example_world true (Returns tt) (Returns 40000)
               (Returns example_result) (Returns tt))
            (py "v.mp4") surrogate_model None)
     = Returns
         (Some [ (py "text", JStr (py "hi"));
                 (py "language", JStr (py "en"));
                 (py "timestamp", JStr (py "2025-01-01T00:00:00"));
                 (py "model", JStr surrogate_model);
                 (py "duration", JFloat (py "2.5")) ]).
Proof. repeat split; vm_compute; reflexivity. Qed.

(** The model cannot be loaded, or the inference runs out of memory: exit
    status 1; everything works: exit status 0. *)
Lemma batch_exit_status_witness :
  snd (Cli.main
         (example_world true (Raises out_of_memory) (Returns 40000)
            (Returns example_result) (Returns tt))
         (py "v.mp4") (py "large") None) = 1%Z
  /\ snd (Cli.main
            (example_world true (Returns tt) (Returns 40000)
               (Raises out_of_memory) (Returns tt))
            (py "v.mp4") (py "large") None) = 1%Z
  /\ snd (Cli.main
            (example_world true (Returns tt) (Returns 40000)
               (Returns example_result) (Returns tt))
            (py "v.mp4") (py "large") None) = 0%Z.
Proof.
  split; [|split].
  - apply (proj1 (batch_exit_status _ _ _ _) out_of_memory).
    left. reflexivity.
  - apply (proj1 (batch_exit_status _ _ _ _) out_of_memory).
    right. exists 40000. repeat split.
  - eapply (proj2 (batch_exit_status _ _ _ _)). vm_compute. reflexivity.
Defined.

(** ** Missing input paths *)

Lemma startup_no_transcribe w : filter Cli.is_transcribe (Cli.startup w) = [].
Proof. unfold Cli.startup. now destruct (str_eqb _ _). Qed.

Lemma batch_missing_path w video_path model_name language :
  (exists e, Cli.load_audio w video_path = Raises e) ->
  filter Cli.is_transcribe
    (fst (Cli.main w video_path model_name language)) = []
  /\ (exists status,
         In (Cli.Progress 0 (py "Error: " ++ status))
            (fst (Cli.main w video_path model_name language)))
  /\ snd (Cli.main w video_path model_name language) = 1%Z.
Proof.
  intros [e He]. unfold Cli.main.
  destruct (Cli.load_model w model_name) as [[]|e0] eqn:Hm.
  - rewrite (transcribe_video_load_audio_raises _ _ _ _ _ Hm He).
    cbn [fst snd]. rewrite !filter_app, startup_no_transcribe.
    split; [reflexivity|]. split; [|reflexivity].
    exists (exn_message e). rewrite !in_app_iff. right. left.
    simpl. auto 12.
  - rewrite (transcribe_video_load_model_raises _ _ _ _ _ Hm).
    cbn [fst snd]. rewrite !filter_app, startup_no_transcribe.
    split; [reflexivity|]. split; [|reflexivity].
    exists (exn_message e0). rewrite !in_app_iff. right. left.
    simpl. auto 12.
Qed.

Lemma gui_missing_folder w ui :
  Gui.path_exists w (Gui.folder_path ui) = false ->
  filter Gui.is_model_call (fst (Gui.main w ui)) = []
  /\ snd (Gui.main w ui) = Returns tt
  /\ (Gui.folder_path ui <> [] ->
      In (Gui.St_error (py "Folder path does not exist"))
         (fst (Gui.main w ui)))
  /\ (Gui.clear_logs_clicked ui = false -> Gui.start_clicked ui = true ->
      In (Gui.St_error (py "Please select a video file"))
         (fst (Gui.main w ui))).
Proof.
  intros Hexists. unfold Gui.main, Gui.select_video, Gui.start_transcription.
  rewrite Hexists.
  destruct (Gui.folder_path ui) as [|c p];
    destruct (Gui.clear_logs_clicked ui), (Gui.start_clicked ui);
    cbv beta iota zeta delta [bind emit ret fst snd app filter Gui.is_model_call];
    repeat split; try congruence; intros; simpl; auto.
Qed.

(** C8: for every input path that does not exist, an error is reported
    and the transcription call on the model is never reached.  In batch
    mode the audio cannot be loaded from the path: the run prints a record
    with progress 0, never calls the inference and exits with status 1.  In
    the front-end the path is the folder that is entered: the run calls
    neither the model load nor the inference, shows "Folder path does not
    exist" when a path was entered and "Please select a video file" when
    the transcription is started. *)
Theorem missing_path_no_transcription :
  (forall (w : Cli.world) (video_path model_name : str)
          (language : option str),
      Cli.path_exists w video_path = false ->
      (forall p, Cli.path_exists w p = false ->
                 exists e, Cli.load_audio w p = Raises e) ->
      filter Cli.is_transcribe
        (fst (Cli.main w video_path model_name language)) = []
      /\ (exists status,
             In (Cli.Progress 0 (py "Error: " ++ status))
                (fst (Cli.main w video_path model_name language)))
      /\ snd (Cli.main w video_path model_name language) = 1%Z)
  /\ (forall (w : Gui.world) (ui : Gui.inputs),
        Gui.path_exists w (Gui.folder_path ui) = false ->
        filter Gui.is_model_call (fst (Gui.main w ui)) = []
        /\ snd (Gui.main w ui) = Returns tt
        /\ (Gui.folder_path ui <> [] ->
            In (Gui.St_error (py "Folder path does not exist"))
               (fst (Gui.main w ui)))
        /\ (Gui.clear_logs_clicked ui = false ->
            Gui.start_clicked ui = true ->
            In (Gui.St_error (py "Please select a video file"))
               (fst (Gui.main w ui)))).
Proof.
  split.
  - intros w video_path model_name language Hmissing Haudio.
    apply batch_missing_path. now apply Haudio.
  - intros w ui. apply gui_missing_folder.
Qed.

(** The path /missing does not exist: the batch run never reaches the
    inference and exits with status 1; the front-end shows both errors and
    calls nothing. *)
Lemma missing_path_no_transcription_witness :
  (filter Cli.is_transcribe
     (fst (Cli.main
             (example_world false (Returns tt) (Raises no_such_file)
                (Returns example_result) (Returns tt))
             (py "/missing/v.mp4") (py "base") None)) = []
   /\ snd (Cli.main
             (example_world false (Returns tt) (Raises no_such_file)
                (Returns example_result) (Returns tt))
             (py "/missing/v.mp4") (py "base") None) = 1%Z)
  /\ (filter Gui.is_model_call
        (fst (Gui.main empty_gui_world (example_inputs (py "/missing")))) = []
      /\ In (Gui.St_error (py "Folder path does not exist"))
            (fst (Gui.main empty_gui_world (example_inputs (py "/missing"))))
      /\ In (Gui.St_error (py "Please select a video file"))
            (fst (Gui.main empty_gui_world (example_inputs (py "/missing"))))).
Proof.
  split.
  - destruct (proj1 missing_path_no_transcription
                (example_world false (Returns tt) (Raises no_such_file)
                   (Returns example_result) (Returns tt))
                (py "/missing/v.mp4") (py "base") None eq_refl)
      as (H1 & _ & H3).
    + intros p _. exists no_such_file. reflexivity.
    + split; assumption.
  - destruct (proj2 missing_path_no_transcription empty_gui_world
                (example_inputs (py "/missing")) eq_refl)
      as (H1 & _ & H3 & H4).
    split; [exact H1|]. split; [apply H3; discriminate|].
    apply H4; reflexivity.
Defined.

(** ** Further properties of the sanitizer *)

Lemma ws_normal_spaces b y :
  ws_normal b y = true -> Forall (fun c => isspace c = true -> c = 0x20) y.
Proof.
  revert b. induction y as [|c y IH]; intros b H; [constructor|].
  cbn [ws_normal] in H. destruct (isspace c) eqn:E.
  - apply andb_prop in H as [H H2]. apply andb_prop in H as [H1 _].
    apply N.eqb_eq in H1. constructor; [auto | eauto].
  - constructor; [congruence | eauto].
Qed.

Lemma ws_normal_no_double b y u v :
  ws_normal b y = true -> y <> u ++ 0x20 :: 0x20 :: v.
Proof.
  revert b y. induction u as [|a u IH]; intros b y H ->.
  - cbn in H. rewrite andb_false_r in H. discriminate.
  - cbn [app ws_normal] in H. destruct (isspace a).
    + apply andb_prop in H as [_ H]. now apply (IH _ _ H).
    + now apply (IH _ _ H).
Qed.

Lemma rstrip_app_space y c : isspace c = true -> rstrip (y ++ [c]) = rstrip y.
Proof.
  intros Hc. induction y as [|a y IH].
  - cbn. now rewrite Hc.
  - cbn [app rstrip]. now rewrite IH.
Qed.

Lemma rstrip_length y : (List.length (rstrip y) <= List.length y)%nat.
Proof.
  induction y as [|a y IH]; [reflexivity|].
  cbn [rstrip]. destruct (rstrip y).
  - destruct (isspace a); cbn; lia.
  - cbn in *. lia.
Qed.

Lemma strip_fixed_ends y :
  strip y = y ->
  (forall c y', y = c :: y' -> isspace c = false)
  /\ (forall c y', y = y' ++ [c] -> isspace c = false).
Proof.
  intros H. split.
  - intros c y' ->.
    assert (Hl : no_leading_space (strip (c :: y'))).
    { unfold strip. apply rstrip_no_leading, lstrip_no_leading. }
    rewrite H in Hl. exact Hl.
  - intros c y' ->. destruct (isspace c) eqn:E; [|reflexivity]. exfalso.
    assert (Hr : rstrip (y' ++ [c]) = y' ++ [c]).
    { rewrite <- H at 1. unfold strip. rewrite rstrip_idem. exact H. }
    rewrite (rstrip_app_space _ _ E) in Hr.
    pose proof (rstrip_length y') as L. rewrite Hr, length_app in L.
    cbn in L. lia.
Qed.

(** X1: whatever the Unicode tables are, the whitespace of a sanitized text
    is in normal form: every whitespace character is a plain space (no line
    break, no tab), no two spaces are adjacent, and the text neither begins
    nor ends with a space. *)
Theorem sanitize_whitespace_normal (normalize_NFKD : str -> str)
    (isprintable : N -> bool) (x : str) :
  let y := sanitize_for_json normalize_NFKD isprintable x in
  Forall (fun c => isspace c = true -> c = 0x20) y
  /\ (forall u v, y <> u ++ 0x20 :: 0x20 :: v)
  /\ (forall c y', y = c :: y' -> c <> 0x20)
  /\ (forall c y', y = y' ++ [c] -> c <> 0x20).
Proof.
  intros y.
  assert (Hw : ws_normal false y = true).
  { unfold y, sanitize_for_json, strip.
    apply ws_normal_rstrip, ws_normal_lstrip, ws_normal_sub_ws. }
  assert (Hs : strip y = y).
  { unfold y, sanitize_for_json. apply strip_idem. }
  destruct (strip_fixed_ends y Hs) as [Hhd Hlast].
  split; [exact (ws_normal_spaces _ _ Hw)|].
  split; [intros u v; exact (ws_normal_no_double _ _ u v Hw)|].
  split.
  - intros c y' E ->. now specialize (Hhd _ _ E).
  - intros c y' E ->. now specialize (Hlast _ _ E).
Qed.

(** X2: the texts that the sanitizer leaves unchanged are exactly the clean
    ones: printable ASCII characters and the four letters without a
    decomposition, single spaces only, none of them first or last.  With
    idempotence, these are exactly the outputs of the sanitizer. *)
Theorem sanitize_fixed_points (normalize_NFKD : str -> str)
    (isprintable : N -> bool) :
  (forall c, c < 127 -> isprintable c = ascii_isprintable c) ->
  (forall s, Forall (fun c => nfkd_inert c = true) s -> normalize_NFKD s = s) ->
  (forall s, Forall (fun c => latin1_decomposition c = None)
               (normalize_NFKD s)) ->
  forall y, sanitize_for_json normalize_NFKD isprintable y = y <-> clean y.
Proof.
  intros Hp Hi Hd y. split.
  - intros E. rewrite <- E. now apply sanitize_clean.
  - now apply sanitize_fixes_clean.
Qed.

(** A clean text is left as it is; a text with a tab in it is not clean,
    and is changed. *)
Lemma sanitize_fixed_points_witness :
  sanitize_for_json latin1_NFKD ascii_isprintable
    (py "str" ++ [0xf8] ++ py "m & s" ++ [0xe6] ++ py "d")
  = py "str" ++ [0xf8] ++ py "m & s" ++ [0xe6] ++ py "d"
  /\ clean (py "str" ++ [0xf8] ++ py "m & s" ++ [0xe6] ++ py "d").
Proof.
  split; [reflexivity|].
  apply (sanitize_fixed_points latin1_NFKD ascii_isprintable
           (fun c _ => eq_refl) latin1_NFKD_inert latin1_NFKD_decomposed).
  reflexivity.
Defined.

(** ** Further properties of the progress estimator *)

(** X3: in double precision, as the interpreter computes them, the
    percentages of every run of at most 10000 steps (an estimated time of
    nearly fourteen hours) never decrease and stay between 50 and 89: the
    progress thread never prints the 90 that the main thread prints after
    the inference.  A run that is not stopped before its first step begins
    at 50. *)
Theorem simulate_progress_below_90 (transcription_done : Z -> bool)
    (audio_len : N) (model_name : str) :
  (Double.steps audio_len model_name <= 10000)%Z ->
  StronglySorted Z.le
    (Double.simulate_progress transcription_done audio_len model_name)
  /\ Forall (fun p => (50 <= p <= 89)%Z)
       (Double.simulate_progress transcription_done audio_len model_name)
  /\ (transcription_done 0%Z = false ->
      exists rest,
        Double.simulate_progress transcription_done audio_len model_name
        = 50%Z :: rest).
Proof.
  intros Hmax. unfold Double.simulate_progress.
  pose proof (double_steps_ge audio_len model_name) as Hmin.
  set (s := Double.steps audio_len model_name) in *.
  assert (Hrun : check_run (Z.to_nat s) = true).
  { apply (check_runs_sound _ _ _ check_runs_10000). lia. }
  apply check_run_sound in Hrun; [|lia].
  rewrite Z2Nat.id in Hrun by lia. cbv zeta in Hrun.
  destruct Hrun as [Hs [Hf H0]].
  destruct (double_loop_prefix transcription_done s (Z.to_nat s) 0)
    as [k Hk].
  split; [|split].
  - rewrite Hk. now apply StronglySorted_firstn.
  - rewrite Hk. now apply Forall_firstn_Z.
  - intros Hd. destruct (Z.to_nat s) as [|n] eqn:Hn; [lia|].
    cbn [Double.simulate_loop]. rewrite Hd.
    fold (Double.emitted_at s 0). rewrite H0. eexists. reflexivity.
Qed.

(** Five minutes of audio under the model 'base': a run of 12 steps. *)
Lemma simulate_progress_below_90_witness :
  (Double.steps 4800000 (py "base") <= 10000)%Z
  /\ StronglySorted Z.le
       (Double.simulate_progress Double.never_done 4800000 (py "base"))
  /\ Forall (fun p => (50 <= p <= 89)%Z)
       (Double.simulate_progress Double.never_done 4800000 (py "base"))
  /\ (Double.never_done 0%Z = false ->
      exists rest,
        Double.simulate_progress Double.never_done 4800000 (py "base")
        = 50%Z :: rest).
Proof.
  split.
  - vm_compute. discriminate.
  - apply (simulate_progress_below_90 Double.never_done 4800000 (py "base")).
    vm_compute. discriminate.
Defined.

Lemma simulate_loop_prefix done s i todo :
  exists k,
    (k <= todo)%nat
    /\ simulate_loop done s i todo
       = firstn k (simulate_loop never_done s i todo)
    /\ List.length (simulate_loop done s i todo) = k
    /\ (forall j, (j < k)%nat -> done (i + j)%nat = false)
    /\ ((k < todo)%nat -> done (i + k)%nat = true).
Proof.
  revert i. induction todo as [|todo IH]; intros i.
  - exists 0%nat. repeat split; try reflexivity; lia.
  - cbn [simulate_loop]. destruct (done i) eqn:E.
    + exists 0%nat.
      split; [lia|]. split; [reflexivity|]. split; [reflexivity|].
      split; [lia|]. intros _. now rewrite Nat.add_0_r.
    + destruct (IH (S i)) as (k & Hk & Heq & Hlen & Hbefore & Hat).
      exists (S k). unfold never_done at 1. cbn [firstn].
      split; [lia|]. split; [now rewrite Heq at 1|].
      split; [cbn [List.length]; now rewrite Hlen|]. split.
      * intros [|j] Hj; [now rewrite Nat.add_0_r|].
        rewrite Nat.add_succ_r. apply (Hbefore j). lia.
      * intros Hlt. rewrite Nat.add_succ_r. apply Hat. lia.
Qed.

(** X4: stopping the progress thread only cuts its output short.  The
    records of a run are the first [k] records of the run that is never
    stopped, where [k] is the index of the first step at which the thread
    reads a set completion flag, or the number of steps when it reads
    none; no record is changed, reordered or added. *)
Theorem simulate_progress_prefix (transcription_done : nat -> bool)
    (audio_len : N) (model_name : str) :
  exists k,
    (Z.of_nat k <= steps audio_len model_name)%Z
    /\ simulate_progress transcription_done audio_len model_name
       = firstn k (simulate_progress never_done audio_len model_name)
    /\ List.length (simulate_progress transcription_done audio_len model_name)
       = k
    /\ (forall j, (j < k)%nat -> transcription_done j = false)
    /\ ((Z.of_nat k < steps audio_len model_name)%Z ->
        transcription_done k = true).
Proof.
  pose proof (steps_pos audio_len model_name) as Hs.
  unfold simulate_progress.
  destruct (simulate_loop_prefix transcription_done
              (steps audio_len model_name) 0
              (Z.to_nat (steps audio_len model_name)))
    as (k & Hk & Heq & Hlen & Hbefore & Hat).
  exists k. split; [lia|]. split; [exact Heq|]. split; [exact Hlen|].
  split; [exact Hbefore|]. intros Hlt. apply Hat. lia.
Qed.

Lemma steps_inject_pos audio_len model_name :
  (0 < inject_Z (steps audio_len model_name))%Q.
Proof.
  pose proof (steps_pos audio_len model_name) as Hs.
  change 0%Q with (inject_Z 0). rewrite <- Zlt_Qlt. lia.
Qed.

(** X5: the cadence of the progress thread.  The sleeps of a full run add
    up to the estimated time; one sleep is never negative and shorter
    than 5.5 seconds; and when the estimate is at least 50 seconds, one
    sleep lasts at least 5 seconds. *)
Theorem step_time_cadence (audio_len : N) (model_name : str) :
  (inject_Z (steps audio_len model_name) * step_time audio_len model_name
   == expected_time audio_len model_name)%Q
  /\ (0 <= step_time audio_len model_name)%Q
  /\ (step_time audio_len model_name < 5.5)%Q
  /\ ((50 <= expected_time audio_len model_name)%Q ->
      (5 <= step_time audio_len model_name)%Q).
Proof.
  pose proof (steps_inject_pos audio_len model_name) as Hpos.
  pose proof (expected_time_nonneg audio_len model_name) as Hnn.
  pose proof (Qfloor_le (expected_time audio_len model_name / 5)) as Hfl.
  pose proof (Qlt_floor (expected_time audio_len model_name / 5)) as Hlt.
  assert (Hs : steps audio_len model_name
               = Z.max 10 (Qfloor (expected_time audio_len model_name / 5))).
  { unfold steps. now rewrite py_int_floor. }
  set (et := expected_time audio_len model_name) in *.
  set (s := steps audio_len model_name) in *.
  set (f := Qfloor (et / 5)) in *.
  assert (Het : (et == 5 * (et / 5))%Q) by (field).
  rewrite inject_Z_plus in Hlt. change (inject_Z 1) with 1%Q in Hlt.
  unfold step_time. fold et s.
  split; [field; lra|].
  split; [apply Qle_shift_div_l; [exact Hpos | lra]|].
  split.
  - apply Qlt_shift_div_r; [exact Hpos|].
    destruct (Z.max_spec 10 f) as [[Hc E]|[Hc E]]; rewrite <- Hs in E.
    + rewrite E. assert (inject_Z 10 <= inject_Z f)%Q
        by (rewrite <- Zle_Qle; lia).
      change (inject_Z 10) with 10%Q in *. lra.
    + rewrite E. assert (inject_Z f <= inject_Z 10)%Q
        by (rewrite <- Zle_Qle; lia).
      change (inject_Z 10) with 10%Q in *. lra.
  - intros H50. apply Qle_shift_div_l; [exact Hpos|].
    assert (10 <= f)%Z.
    { change 10%Z with (Qfloor 10). apply Qfloor_resp_le. lra. }
    assert (E : s = f) by lia. rewrite E. lra.
Qed.

(** Five minutes of audio with the model "base": an estimate of 60
    seconds, 12 steps of 5 seconds. *)
Lemma step_time_cadence_witness :
  (5 <= step_time 4800000 (py "base"))%Q
  /\ steps 4800000 (py "base") = 12%Z.
Proof.
  split; [|reflexivity].
  apply (proj2 (proj2 (proj2 (step_time_cadence 4800000 (py "base"))))).
  vm_compute. discriminate.
Defined.

Lemma multiplier_pos model_name : (0 < multiplier model_name)%Q.
Proof.
  destruct (multiplier_range model_name) as [H _].
  change (multiplier (py "tiny")) with 0.1%Q in H. lra.
Qed.

Lemma steps_floor audio_len model_name :
  steps audio_len model_name
  = Z.max 10 (Qfloor (expected_time audio_len model_name / 5)).
Proof.
  unfold steps. rewrite py_int_floor; [reflexivity|].
  apply expected_time_nonneg.
Qed.

(** X6: the number of steps grows with the audio: a longer audio never
    gets fewer steps under the same model, and the number of steps is the
    minimum of 10 exactly when the estimated time is below 55 seconds. *)
Theorem steps_monotone (model_name : str) :
  (forall audio_len audio_len',
      audio_len <= audio_len' ->
      (steps audio_len model_name <= steps audio_len' model_name)%Z)
  /\ (forall audio_len,
         steps audio_len model_name = 10%Z
         <-> (expected_time audio_len model_name < 55)%Q).
Proof.
  pose proof (multiplier_pos model_name) as Hm.
  split.
  - intros a a' Hle. rewrite !steps_floor.
    apply Z.max_le_compat_l, Qfloor_resp_le.
    unfold expected_time, total_duration.
    assert (inject_Z (Z.of_N a) <= inject_Z (Z.of_N a'))%Q
      by (rewrite <- Zle_Qle; lia).
    set (x := inject_Z (Z.of_N a)) in *. set (y := inject_Z (Z.of_N a')) in *.
    apply Qle_shift_div_r; [lra|].
    assert (E : (y / 16000 * multiplier model_name / 5 * 5
                 == y / 16000 * multiplier model_name)%Q) by field.
    rewrite E. apply Qmult_le_compat_r; [|lra].
    apply Qle_shift_div_r; [lra|].
    assert (E2 : (y / 16000 * 16000 == y)%Q) by field. now rewrite E2.
  - intros a. rewrite steps_floor.
    pose proof (Qfloor_le (expected_time a model_name / 5)) as Hfl.
    pose proof (Qlt_floor (expected_time a model_name / 5)) as Hlt.
    set (et := expected_time a model_name) in *.
    set (f := Qfloor (et / 5)) in *.
    assert (Het : (et == 5 * (et / 5))%Q) by field.
    rewrite inject_Z_plus in Hlt. change (inject_Z 1) with 1%Q in Hlt.
    split.
    + intros E. assert (Hf : (f <= 10)%Z) by lia.
      rewrite Zle_Qle in Hf. change (inject_Z 10) with 10%Q in Hf. lra.
    + intros H55. assert (Hf : (f < 11)%Z).
      { rewrite Zlt_Qlt. change (inject_Z 11) with 11%Q. lra. }
      lia.
Qed.

(** Thirty seconds of audio get the minimum of 10 steps under every
    model; an hour of audio gets more steps than half an hour. *)
Lemma steps_monotone_witness :
  (steps 28800000 (py "small") <= steps 57600000 (py "small"))%Z
  /\ steps 480000 (py "large") = 10%Z.
Proof.
  split.
  - apply (proj1 (steps_monotone (py "small"))). lia.
  - apply (proj2 (steps_monotone (py "large"))). reflexivity.
Defined.

(** ** Further properties of the delivery channel *)








Lemma receive_delivery_line final_result line :
  wf_dict final_result ->
  delivery_line final_result = Some line ->
  receive line = Some final_result.
Proof.
  intros Hwf. unfold delivery_line.
  destruct (utf8_encode (json_dumps final_result)) as [bs|] eqn:Henc;
    [|discriminate].
  intros Hline.
  assert (line = delimiter ++ b64encode bs ++ delimiter) by congruence.
  subst line. unfold receive. rewrite extract_span_line.
  - rewrite b64decode_encode by (eapply utf8_encode_bytes; eauto).
    rewrite (utf8_decode_encode _ _ Henc).
    now apply json_loads_dumps.
  - eapply Forall_impl; [|exact (b64encode_text bs)]. intros c Hc.
    now apply b64_text_char_plain.
Qed.

(** ** The shape of a batch run *)

(** What the [try] that saves the result does: it stops at the first call
    that raises, or writes the indented JSON text of the result and
    returns the result with its ["saved_file"] entry. *)
Lemma save_result_cases w video_path final_result :
  let dir := Cli.path_join w (Cli.getcwd w) (py "transcriptions") in
  let name := Cli.video_basename w video_path ++ py "_" ++ Cli.now_strftime w
              ++ py ".json" in
  let path := Cli.path_join w dir name in
  (exists e ts,
      Cli.save_result w video_path final_result = (ts, Raises e)
      /\ (ts = [Cli.MakeDirs dir]
          \/ ts = [Cli.MakeDirs dir; Cli.OpenForWriting path]
          \/ exists bytes,
               utf8_encode (json_dumps_indent final_result) = Some bytes
               /\ ts = [Cli.MakeDirs dir; Cli.OpenForWriting path;
                        Cli.WriteBytes path bytes]))
  \/ (exists bytes,
         utf8_encode (json_dumps_indent final_result) = Some bytes
         /\ Cli.makedirs w dir = Returns tt
         /\ Cli.open_w w path = Returns tt
         /\ Cli.write_bytes w path bytes = Returns tt
         /\ Cli.save_result w video_path final_result
            = ([ Cli.MakeDirs dir; Cli.OpenForWriting path;
                 Cli.WriteBytes path bytes;
                 Cli.Progress 95 (py "Saved transcription to " ++ name) ],
               Returns (final_result ++ [(py "saved_file", JStr path)]))).
Proof.
  intros dir name path.
  unfold Cli.save_result, Cli.print_progress, bind, call, emit, raise, ret.
  fold dir. fold name. fold path.
  destruct (Cli.makedirs w dir) as [[]|e1]; [|left; eauto 8].
  destruct (Cli.open_w w path) as [[]|e2]; [|left; eauto 8].
  destruct (utf8_encode (json_dumps_indent final_result)) as [bytes|];
    [|left; eauto 8].
  destruct (Cli.write_bytes w path bytes) as [[]|e3] eqn:E3.
  - right. exists bytes. repeat split. exact E3.
  - left. exists e3. eexists. split; [reflexivity|]. right. right. eauto.
Qed.

(** What follows the inference call: an empty result or an empty text ends
    the run with an error record; otherwise the result is saved, or the
    failure to save it is reported, and then it is sent. *)
Lemma finalize_cases w video_path model_name duration result :
  let raw := strip (dict_get result (py "text") []) in
  let text :=
    sanitize_for_json (Cli.normalize_NFKD w) (Cli.isprintable w) raw in
  let initial := Cli.initial_result w text result model_name duration in
  ((result = [] \/ raw = [])
   /\ exists status,
        (status = py "Error: No transcription result"
         \/ status = py "Error: Empty transcription result")
        /\ Cli.finalize w video_path model_name duration result
           = ([ Cli.Progress 90 (py "Finalizing transcription...");
                Cli.Progress 0 status ], Returns None))
  \/ (result <> [] /\ raw <> []
      /\ exists ts final_result,
           Cli.finalize w video_path model_name duration result
           = ([Cli.Progress 90 (py "Finalizing transcription...")] ++ ts
              ++ fst (try_except (Cli.send_result w text final_result)
                        Cli.send_handler),
              Returns (Some final_result))
           /\ (Cli.save_result w video_path initial
               = (ts, Returns final_result)
               \/ exists ts' e,
                    Cli.save_result w video_path initial = (ts', Raises e)
                    /\ final_result = initial
                    /\ ts = ts'
                            ++ [ Cli.LogError
                                   (py "Error saving transcription file: "
                                    ++ exn_message e);
                                 Cli.Progress 0 (py "Error saving file: "
                                                 ++ exn_message e) ])).
Proof.
  intros raw text initial. unfold Cli.finalize.
  destruct result as [|kv result].
  { left. split; [now left|]. eexists. split; [now left | reflexivity]. }
  subst initial text raw. unfold str in *.
  destruct (strip (dict_get (kv :: result) (py "text") [])) as [|c l] eqn:E.
  { left. split; [now right|]. eexists. split; [now right | reflexivity]. }
  right. split; [discriminate|]. split; [discriminate|].
  cbv zeta.
  destruct (Cli.save_result w video_path _) as [ts [fr|e]] eqn:Es.
  - exists ts, fr. split; [|now left].
    cbv beta iota zeta delta
      [bind try_except emit ret Cli.save_handler Cli.send_handler
       Cli.print_progress fst].
    destruct (Cli.send_result w _ _) as [t [[]|e']];
      cbn [app]; rewrite ?app_nil_r, <- ?app_assoc; reflexivity.
  - eexists. eexists. split; [|right; exists ts, e; eauto].
    cbv beta iota zeta delta
      [bind try_except emit ret Cli.save_handler Cli.send_handler
       Cli.print_progress fst].
    destruct (Cli.send_result w _ _) as [t [[]|e']];
      cbn [app]; rewrite ?app_nil_r, <- ?app_assoc; reflexivity.
Qed.

(** A run of [transcribe_video]: either one of the three calls into Whisper
    raises, and the run stops there with the two error records, or the
    three calls return and the run continues with [finalize], which
    returns. *)
Lemma transcribe_video_cases w video_path model_name language :
  (exists e audio n,
      (n = 3 \/ n = 5 \/ n = 7)%nat
      /\ Cli.transcribe_video w video_path model_name language
         = (firstn n (prelude model_name video_path audio language)
            ++ [ Cli.LogError (py "Error during transcription: "
                               ++ exn_message e);
                 Cli.Progress 0 (py "Error: " ++ exn_message e) ],
            Raises e)
      /\ (Cli.load_model w model_name = Raises e
          \/ (Cli.load_model w model_name = Returns tt
              /\ Cli.load_audio w video_path = Raises e)
          \/ (Cli.load_model w model_name = Returns tt
              /\ Cli.load_audio w video_path = Returns audio
              /\ Cli.transcribe w audio (Cli.options language) = Raises e)))
  \/ (exists audio result t v,
         Cli.load_model w model_name = Returns tt
         /\ Cli.load_audio w video_path = Returns audio
         /\ Cli.transcribe w audio (Cli.options language) = Returns result
         /\ Cli.finalize w video_path model_name (total_duration audio) result
            = (t, Returns v)
         /\ Cli.transcribe_video w video_path model_name language
            = (prelude model_name video_path audio language ++ t, Returns v)).
Proof.
  destruct (Cli.load_model w model_name) as [[]|e] eqn:H1.
  2:{ left. exists e, 0, 3%nat. split; [auto|]. split; [|auto].
      now rewrite (transcribe_video_load_model_raises _ _ _ _ _ H1). }
  destruct (Cli.load_audio w video_path) as [audio|e] eqn:H2.
  2:{ left. exists e, 0, 5%nat. split; [auto|]. split; [|auto].
      now rewrite (transcribe_video_load_audio_raises _ _ _ _ _ H1 H2). }
  destruct (Cli.transcribe w audio (Cli.options language)) as [result|e] eqn:H3.
  2:{ left. exists e, audio, 7%nat. split; [auto|]. split; [|auto 6].
      now rewrite (transcribe_video_inference_raises _ _ _ _ _ _ H1 H2 H3). }
  right.
  destruct (Cli.finalize w video_path model_name (total_duration audio) result)
    as [t [v|e]] eqn:Hf.
  - exists audio, result, t, v. repeat split; try assumption.
    exact (transcribe_video_finalize _ _ _ _ _ _ _ _ H1 H2 H3 Hf).
  - exfalso.
    destruct (finalize_cases w video_path model_name (total_duration audio)
                result) as [(_ & s & _ & E)|(_ & _ & ts & fr & E & _)];
      rewrite Hf in E; discriminate.
Qed.

(** ** The JSON text of the saved file *)

Lemma parse_member_indent k v tail fuel :
  wf_value v ->
  parse_members (S fuel)
    (0x0a :: 0x20 :: 0x20 :: json_item (k, v) ++ 0x2c :: tail)
  = match parse_members fuel tail with
    | Some (d, rest) => Some ((k, v) :: d, rest)
    | None => None
    end.
Proof.
  intros Hv. rewrite json_item_text.
  cbn [parse_members].
  change (skip_ws (0x0a :: 0x20 :: 0x20 :: 0x22 :: ?t)) with (0x22 :: t).
  change (0x22 =? 0x22) with true. cbv iota.
  rewrite parse_string_body_escaped.
  change (skip_ws (0x3a :: ?t)) with (0x3a :: t).
  change (0x3a =? 0x3a) with true. cbv iota.
  rewrite (skip_ws_value v _ Hv).
  rewrite (parse_value_text v 0x2c tail Hv eq_refl).
  reflexivity.
Qed.

Lemma parse_member_indent_last k v rest fuel :
  wf_value v ->
  parse_members (S fuel)
    (0x0a :: 0x20 :: 0x20 :: json_item (k, v) ++ 0x0a :: 0x7d :: rest)
  = Some ([(k, v)], rest).
Proof.
  intros Hv. rewrite json_item_text.
  cbn [parse_members].
  change (skip_ws (0x0a :: 0x20 :: 0x20 :: 0x22 :: ?t)) with (0x22 :: t).
  change (0x22 =? 0x22) with true. cbv iota.
  rewrite parse_string_body_escaped.
  change (skip_ws (0x3a :: ?t)) with (0x3a :: t).
  change (0x3a =? 0x3a) with true. cbv iota.
  rewrite (skip_ws_value v _ Hv).
  rewrite (parse_value_text v 0x0a (0x7d :: rest) Hv eq_refl).
  reflexivity.
Qed.

Lemma parse_members_items_indent kv d rest fuel :
  wf_dict (kv :: d) -> (List.length d < fuel)%nat ->
  parse_members fuel
    (0x0a :: 0x20 :: 0x20
     :: join (py "," ++ nl ++ py "  ") (map json_item (kv :: d))
     ++ 0x0a :: 0x7d :: rest)
  = Some (kv :: d, rest).
Proof.
  revert kv fuel. induction d as [|kv' d IH]; intros [k v] fuel Hwf Hfuel;
    (destruct fuel as [|fuel]; [simpl in Hfuel; lia|]);
    apply Forall_cons_iff in Hwf as [Hv Hwf]; cbn [snd] in Hv.
  - change (join (py "," ++ nl ++ py "  ") (map json_item [(k, v)]))
      with (json_item (k, v)).
    now apply parse_member_indent_last.
  - change (join (py "," ++ nl ++ py "  ") (map json_item ((k, v) :: kv' :: d)))
      with (json_item (k, v) ++ [0x2c; 0x0a; 0x20; 0x20]
            ++ join (py "," ++ nl ++ py "  ") (map json_item (kv' :: d))).
    rewrite <- !app_assoc. cbn [app].
    rewrite parse_member_indent by exact Hv.
    rewrite (IH kv' fuel Hwf); [reflexivity|]. simpl in Hfuel. lia.
Qed.

Lemma json_loads_dumps_indent d :
  wf_dict d -> json_loads (json_dumps_indent d) = Some d.
Proof.
  intros Hwf. destruct d as [|kv d]; [reflexivity|].
  remember (join (py "," ++ nl ++ py "  ") (map json_item (kv :: d))
            ++ [0x0a; 0x7d]) as s1 eqn:E.
  assert (Htext : json_dumps_indent (kv :: d)
                  = 0x7b :: 0x0a :: 0x20 :: 0x20 :: s1).
  { subst s1. unfold json_dumps_indent.
    change (py "{") with [0x7b]. change (py "}") with [0x7d].
    change (py "  ") with [0x20; 0x20]. change nl with [0x0a].
    reflexivity. }
  rewrite Htext. clear Htext.
  assert (Hfuel : (List.length d < S (S (S (S (List.length s1)))))%nat).
  { subst s1. rewrite length_app.
    assert (HF : Forall (fun part : str => part <> [])
                   (map json_item (kv :: d))).
    { apply Forall_forall. intros x Hx. apply in_map_iff in Hx as (y & <- & _).
      apply json_item_nonempty. }
    pose proof (join_length (py "," ++ nl ++ py "  ") _ HF) as H.
    rewrite length_map in H. cbn [List.length] in H. lia. }
  pose proof (parse_members_items_indent kv d [] _ Hwf Hfuel) as Hparse.
  rewrite <- E in Hparse.
  assert (Hq : exists t, s1 = 0x22 :: t).
  { subst s1. destruct kv as [k v]. destruct d.
    - change (join (py "," ++ nl ++ py "  ") (map json_item [(k, v)]))
        with (json_item (k, v)).
      rewrite json_item_text. eauto.
    - change (join (py "," ++ nl ++ py "  ") (map json_item ((k, v) :: p :: d)))
        with (json_item (k, v) ++ [0x2c; 0x0a; 0x20; 0x20]
              ++ join (py "," ++ nl ++ py "  ") (map json_item (p :: d))).
      rewrite <- !app_assoc, json_item_text. eauto. }
  unfold json_loads.
  change (skip_ws (0x7b :: ?t)) with (0x7b :: t).
  change (0x7b =? 0x7b) with true. cbv iota.
  destruct Hq as [t Ht]. rewrite Ht at 1.
  change (skip_ws (0x0a :: 0x20 :: 0x20 :: 0x22 :: t)) with (0x22 :: t).
  change (0x22 =? 0x7d) with false. cbv iota.
  cbn [List.length]. now rewrite Hparse.
Qed.

Lemma json_dumps_indent_scalar d :
  scalar_dict d -> Forall (fun c => is_scalar c = true) (json_dumps_indent d).
Proof.
  intros Hd. unfold json_dumps_indent.
  destruct d as [|kv d]; [now repeat constructor|].
  repeat (apply Forall_app; split); try (now repeat constructor).
  apply join_Forall; [now repeat constructor|].
  apply Forall_map. eapply Forall_impl; [|exact Hd].
  intros [k v] [Hk Hv]. cbn [fst snd] in *. unfold json_item. cbn [fst snd].
  apply Forall_app. split; [now apply json_string_scalar|].
  apply Forall_app. split; [now repeat constructor|].
  destruct v; [now apply json_string_scalar | exact Hv].
Qed.

(** ** Deliveries of a batch run *)

Lemma startup_no_payload w : filter Cli.is_payload (Cli.startup w) = [].
Proof. unfold Cli.startup. now destruct (str_eqb _ _). Qed.

Lemma prelude_no_payload n model_name video_path audio language :
  filter Cli.is_payload
    (firstn n (prelude model_name video_path audio language)) = [].
Proof. do 8 (destruct n as [|n]; [reflexivity|]). reflexivity. Qed.

Lemma save_result_no_payload w video_path final_result :
  filter Cli.is_payload (fst (Cli.save_result w video_path final_result)) = [].
Proof.
  apply length_zero_iff_nil. apply save_result_no_delivery.
Qed.

Lemma send_payloads w text final_result :
  filter Cli.is_payload
    (fst (try_except (Cli.send_result w text final_result) Cli.send_handler))
  = match delivery_line final_result with
    | Some line => [Cli.Payload line]
    | None => []
    end.
Proof.
  rewrite send_result_trace. now destruct (delivery_line final_result).
Qed.

Lemma finalize_payloads w video_path model_name duration result :
  filter Cli.is_payload
    (fst (Cli.finalize w video_path model_name duration result))
  = match snd (Cli.finalize w video_path model_name duration result) with
    | Returns (Some final_result) =>
        match delivery_line final_result with
        | Some line => [Cli.Payload line]
        | None => []
        end
    | _ => []
    end.
Proof.
  destruct (finalize_cases w video_path model_name duration result)
    as [(_ & status & _ & E)|(_ & _ & ts & fr & E & Hsave)];
    rewrite E; cbn [fst snd]; [reflexivity|].
  rewrite !filter_app, send_payloads. cbn [filter Cli.is_payload app].
  assert (filter Cli.is_payload ts = []) as ->; [|reflexivity].
  destruct Hsave as [Hs|(ts' & e & Hs & _ & ->)].
  - apply (f_equal fst) in Hs. cbn [fst] in Hs. rewrite <- Hs.
    apply save_result_no_payload.
  - apply (f_equal fst) in Hs. cbn [fst] in Hs. rewrite <- Hs.
    rewrite filter_app, save_result_no_payload. reflexivity.
Qed.

Lemma transcribe_video_payloads w video_path model_name language :
  filter Cli.is_payload
    (fst (Cli.transcribe_video w video_path model_name language))
  = match snd (Cli.transcribe_video w video_path model_name language) with
    | Returns (Some final_result) =>
        match delivery_line final_result with
        | Some line => [Cli.Payload line]
        | None => []
        end
    | _ => []
    end.
Proof.
  destruct (transcribe_video_cases w video_path model_name language)
    as [(e & audio & n & _ & E & _)
       |(audio & result & t & v & _ & _ & _ & Hf & E)];
    rewrite E; cbn [fst snd].
  - rewrite filter_app, prelude_no_payload. reflexivity.
  - rewrite filter_app.
    change (filter Cli.is_payload
              (prelude model_name video_path audio language)) with (@nil Cli.event).
    pose proof (finalize_payloads w video_path model_name
                  (total_duration audio) result) as H.
    rewrite Hf in H. exact H.
Qed.

Lemma main_payloads w video_path model_name language :
  filter Cli.is_payload (fst (Cli.main w video_path model_name language))
  = match snd (Cli.transcribe_video w video_path model_name language) with
    | Returns (Some final_result) =>
        match delivery_line final_result with
        | Some line => [Cli.Payload line]
        | None => []
        end
    | _ => []
    end.
Proof.
  pose proof (transcribe_video_payloads w video_path model_name language) as H.
  unfold Cli.main.
  destruct (Cli.transcribe_video w video_path model_name language)
    as [t [v|e]]; cbn [fst snd] in *.
  - now rewrite filter_app, startup_no_payload.
  - rewrite !filter_app, startup_no_payload, H. reflexivity.
Qed.

(** X8: the number of delivery lines of a batch run.  A run prints one
    delivery line when [transcribe_video] returns a result whose JSON text
    can be encoded, and none in every other case: never two, and none when
    the run raises or ends with an empty transcription. *)
Theorem deliveries_of_a_run (w : Cli.world) (video_path model_name : str)
    (language : option str) :
  Cli.deliveries (fst (Cli.main w video_path model_name language))
  = match snd (Cli.transcribe_video w video_path model_name language) with
    | Returns (Some final_result) =>
        match delivery_line final_result with
        | Some _ => 1%nat
        | None => 0%nat
        end
    | _ => 0%nat
    end
  /\ (Cli.deliveries (fst (Cli.main w video_path model_name language))
      <= 1)%nat.
Proof.
  unfold Cli.deliveries. rewrite main_payloads.
  destruct (snd (Cli.transcribe_video w video_path model_name language))
    as [[fr|]|e]; cbn; try lia.
  destruct (delivery_line fr); cbn; lia.
Qed.




(** X10: the exit status of the batch script is decided by the three calls
    into Whisper alone.  It is 0 exactly when the model load, the audio
    load and the inference all return, and 1 otherwise: once the inference
    has returned, no failure to save or to send the result, and no empty
    transcription, changes the exit status. *)
Theorem exit_status_decided_by_whisper (w : Cli.world)
    (video_path model_name : str) (language : option str) :
  (snd (Cli.main w video_path model_name language) = 0%Z
   <-> exists audio result,
         Cli.load_model w model_name = Returns tt
         /\ Cli.load_audio w video_path = Returns audio
         /\ Cli.transcribe w audio (Cli.options language) = Returns result)
  /\ (snd (Cli.main w video_path model_name language) = 0%Z
      \/ snd (Cli.main w video_path model_name language) = 1%Z).
Proof.
  unfold Cli.main.
  destruct (transcribe_video_cases w video_path model_name language)
    as [(e & audio & n & _ & E & Hraise)
       |(audio & result & t & v & H1 & H2 & H3 & _ & E)];
    rewrite E; cbn [snd].
  - split; [|now right]. split; [discriminate|].
    intros (audio' & result & H1 & H2 & H3).
    destruct Hraise as [H|[[_ H]|(_ & Ha & H)]]; congruence.
  - split; [|now left]. split; [|reflexivity]. eauto.
Qed.

(** X11: an empty transcription is reported, not delivered.  When the
    inference returns an empty result, or a text that is empty once it is
    stripped, the run prints the record "Finalizing", then one record with
    progress 0, and stops: it creates no directory, writes no file, prints
    no delivery line, returns [None], and the script exits with
    status 0. *)
Theorem empty_transcription (w : Cli.world) (video_path model_name : str)
    (language : option str) (audio : N) (result : list (str * str)) :
  Cli.load_model w model_name = Returns tt ->
  Cli.load_audio w video_path = Returns audio ->
  Cli.transcribe w audio (Cli.options language) = Returns result ->
  result = [] \/ strip (dict_get result (py "text") []) = [] ->
  exists status,
    (status = py "Error: No transcription result"
     \/ status = py "Error: Empty transcription result")
    /\ Cli.main w video_path model_name language
       = (Cli.startup w
          ++ prelude model_name video_path audio language
          ++ [ Cli.Progress 90 (py "Finalizing transcription...");
               Cli.Progress 0 status ],
          0%Z)
    /\ snd (Cli.transcribe_video w video_path model_name language)
       = Returns None.
Proof.
  intros H1 H2 H3 Hempty.
  destruct (finalize_cases w video_path model_name (total_duration audio)
              result) as [(_ & status & Hstatus & E)|(Hres & Hraw & _)].
  - exists status. split; [exact Hstatus|].
    pose proof (transcribe_video_finalize _ _ _ _ _ _ _ _ H1 H2 H3 E) as Hrun.
    unfold Cli.main. rewrite Hrun. split; reflexivity.
  - destruct Hempty; contradiction.
Qed.

(** The model hears nothing but silence and answers with spaces: the run
    ends with the record "Error: Empty transcription result" and the exit
    status 0. *)
Lemma empty_transcription_witness :
  exists status,
    Cli.main
      (example_world true (Returns tt) (Returns 40000)
         (Returns [(py "text", py "   "); (py "language", py "en")])
         (Returns tt))
      (py "v.mp4") (py "base") None
    = (Cli.startup
         (example_world true (Returns tt) (Returns 40000)
            (Returns [(py "text", py "   "); (py "language", py "en")])
            (Returns tt))
       ++ prelude (py "base") (py "v.mp4") 40000 None
       ++ [ Cli.Progress 90 (py "Finalizing transcription...");
            Cli.Progress 0 status ],
       0%Z)
    /\ status = py "Error: Empty transcription result".
Proof.
  destruct (empty_transcription
              (example_world true (Returns tt) (Returns 40000)
                 (Returns [(py "text", py "   "); (py "language", py "en")])
                 (Returns tt))
              (py "v.mp4") (py "base") None 40000
              [(py "text", py "   "); (py "language", py "en")]
              eq_refl eq_refl eq_refl (or_intror eq_refl))
    as (status & Hstatus & Hmain & _).
  exists status. split; [exact Hmain|].
  destruct Hstatus as [->| ->]; [|reflexivity].
  exfalso. revert Hmain. vm_compute. discriminate.
Defined.

(** X12: a run in which everything works.  The file under ./transcriptions
    holds the indented JSON text of the five-entry result, which parses
    back to it; the entry ["saved_file"] is added after the file is
    written, so it is in the returned and delivered result but not in the
    file; the record 95 follows the write; one delivery line ends the
    trace and decodes to the returned result. *)
Theorem successful_run (w : Cli.world) (video_path model_name : str)
    (language : option str) (audio : N) (result : list (str * str)) :
  let text :=
    sanitize_for_json (Cli.normalize_NFKD w) (Cli.isprintable w)
      (strip (dict_get result (py "text") [])) in
  let initial :=
    Cli.initial_result w text result model_name (total_duration audio) in
  let dir := Cli.path_join w (Cli.getcwd w) (py "transcriptions") in
  let name := Cli.video_basename w video_path ++ py "_" ++ Cli.now_strftime w
              ++ py ".json" in
  let path := Cli.path_join w dir name in
  let final_result := initial ++ [(py "saved_file", JStr path)] in
  Cli.load_model w model_name = Returns tt ->
  Cli.load_audio w video_path = Returns audio ->
  Cli.transcribe w audio (Cli.options language) = Returns result ->
  result <> [] ->
  strip (dict_get result (py "text") []) <> [] ->
  Cli.makedirs w dir = Returns tt ->
  Cli.open_w w path = Returns tt ->
  (forall bytes, Cli.write_bytes w path bytes = Returns tt) ->
  scalar_dict final_result ->
  number_text (Cli.float_repr w (total_duration audio)) ->
  exists bytes info1 info2 line,
    Cli.transcribe_video w video_path model_name language
    = (prelude model_name video_path audio language
       ++ [ Cli.Progress 90 (py "Finalizing transcription...");
            Cli.MakeDirs dir; Cli.OpenForWriting path;
            Cli.WriteBytes path bytes;
            Cli.Progress 95 (py "Saved transcription to " ++ name);
            Cli.LogInfo info1; Cli.LogInfo info2; Cli.Payload line ],
       Returns (Some final_result))
    /\ utf8_decode bytes = Some (json_dumps_indent initial)
    /\ json_loads (json_dumps_indent initial) = Some initial
    /\ receive line = Some final_result.
Proof.
  intros text initial dir name path final_result
    H1 H2 H3 Hres Hraw Hmk Hopen Hwrite Hscalar Hrepr.
  assert (Hwf : wf_dict final_result).
  { unfold final_result, initial, Cli.initial_result, wf_dict.
    repeat constructor; apply Hrepr. }
  assert (Hwfi : wf_dict initial).
  { unfold initial, Cli.initial_result, wf_dict.
    repeat constructor; apply Hrepr. }
  assert (Hsi : scalar_dict initial).
  { unfold scalar_dict, final_result in *.
    now apply Forall_app in Hscalar as [Hscalar _]. }
  destruct (utf8_encode_scalar _ (json_dumps_scalar _ Hscalar)) as [jb Hjb].
  assert (Hline : delivery_line final_result
                  = Some (delimiter ++ b64encode jb ++ delimiter)).
  { unfold delivery_line. now rewrite Hjb. }
  destruct (utf8_encode_scalar _ (json_dumps_indent_scalar _ Hsi))
    as [bytes Hbytes].
  assert (Hs : Cli.save_result w video_path initial
               = ([ Cli.MakeDirs dir; Cli.OpenForWriting path;
                    Cli.WriteBytes path bytes;
                    Cli.Progress 95 (py "Saved transcription to " ++ name) ],
                  Returns final_result)).
  { unfold Cli.save_result, Cli.print_progress, bind, call, emit, raise, ret.
    fold dir. fold name. fold path.
    rewrite Hmk, Hopen, Hbytes, (Hwrite bytes). reflexivity. }
  destruct (finalize_cases w video_path model_name (total_duration audio)
              result) as [([Hc|Hc] & _)|(_ & _ & ts & fr & E & Hsave)];
    try contradiction.
  fold text in E, Hsave. fold initial in Hsave.
  assert (Hfr : fr = final_result /\ ts = [ Cli.MakeDirs dir; Cli.OpenForWriting path;
                    Cli.WriteBytes path bytes;
                    Cli.Progress 95 (py "Saved transcription to " ++ name) ]).
  { destruct Hsave as [Hs'|(ts' & e & Hs' & _)];
      pose proof (eq_trans (eq_sym Hs') Hs) as Heq;
      [injection Heq as -> ->; split; reflexivity | discriminate]. }
  destruct Hfr as [-> ->].
  rewrite send_result_trace, Hline in E. cbn [fst app] in E.
  pose proof (transcribe_video_finalize _ _ _ _ _ _ _ _ H1 H2 H3 E) as Hrun.
  exists bytes. do 3 eexists. split; [exact Hrun|].
  split; [now apply utf8_decode_encode|].
  split; [now apply json_loads_dumps_indent|].
  now apply receive_delivery_line.
Qed.

Lemma scalar_dict_check d :
  forallb (fun kv => forallb is_scalar (fst kv)
                     && forallb is_scalar (value_text (snd kv))) d = true ->
  scalar_dict d.
Proof.
  intros H. unfold scalar_dict. apply Forall_forall. intros kv Hkv.
  rewrite forallb_forall in H. specialize (H kv Hkv).
  apply andb_prop in H as [H1 H2].
  rewrite forallb_forall in H1, H2.
  split; apply Forall_forall; auto.
Qed.
(** Everything works: the file is written, the record 95 is printed and
    the six-entry result is delivered. *)
Lemma successful_run_witness :
  exists bytes info1 info2 line,
    Cli.transcribe_video
      (example_world true (Returns tt) (Returns 40000)
         (Returns example_result) (Returns tt))
      (py "v.mp4") (py "base") None
    = (prelude (py "base") (py "v.mp4") 40000 None
       ++ [ Cli.Progress 90 (py "Finalizing transcription...");
            Cli.MakeDirs (py "/work/transcriptions");
            Cli.OpenForWriting
              (py "/work/transcriptions/v.mp4_20250101_000000.json");
            Cli.WriteBytes
              (py "/work/transcriptions/v.mp4_20250101_000000.json") bytes;
            Cli.Progress 95
              (py "Saved transcription to v.mp4_20250101_000000.json");
            Cli.LogInfo info1; Cli.LogInfo info2; Cli.Payload line ],
       Returns
         (Some [ (py "text", JStr (py "hi"));
                 (py "language", JStr (py "en"));
                 (py "timestamp", JStr (py "2025-01-01T00:00:00"));
                 (py "model", JStr (py "base"));
                 (py "duration", JFloat (py "2.5"));
                 (py "saved_file",
                  JStr (py "/work/transcriptions/v.mp4_20250101_000000.json"))
               ]))
    /\ receive line
       = Some [ (py "text", JStr (py "hi"));
                (py "language", JStr (py "en"));
                (py "timestamp", JStr (py "2025-01-01T00:00:00"));
                (py "model", JStr (py "base"));
                (py "duration", JFloat (py "2.5"));
                (py "saved_file",
                 JStr (py "/work/transcriptions/v.mp4_20250101_000000.json"))
              ].
Proof.
  assert (Hres : example_result <> []) by discriminate.
  assert (Hraw : strip (dict_get example_result (py "text") []) <> [])
    by (vm_compute; discriminate).
  assert (Hscalar :
            scalar_dict
              [ (py "text", JStr (py "hi"));
                (py "language", JStr (py "en"));
                (py "timestamp", JStr (py "2025-01-01T00:00:00"));
                (py "model", JStr (py "base"));
                (py "duration", JFloat (py "2.5"));
                (py "saved_file",
                 JStr (py "/work/transcriptions/v.mp4_20250101_000000.json"))
              ]).
  { apply scalar_dict_check. vm_compute. reflexivity. }
  assert (Hrepr : number_text (py "2.5")).
  { split; [discriminate | repeat constructor]. }
  destruct (successful_run
              (example_world true (Returns tt) (Returns 40000)
                 (Returns example_result) (Returns tt))
              (py "v.mp4") (py "base") None 40000 example_result
              eq_refl eq_refl eq_refl Hres Hraw eq_refl eq_refl
              (fun _ => eq_refl) Hscalar Hrepr)
    as (bytes & info1 & info2 & line & Hrun & _ & _ & Hrecv).
  exists bytes, info1, info2, line. split; [exact Hrun | exact Hrecv].
Defined.

(** ** The progress records of the main thread *)

Lemma progress_values_app t1 t2 :
  progress_values (t1 ++ t2) = progress_values t1 ++ progress_values t2.
Proof. unfold progress_values. apply flat_map_app. Qed.

Lemma startup_values w :
  progress_values (Cli.startup w) = [5%Z]
  \/ progress_values (Cli.startup w) = [5%Z; 8%Z].
Proof. unfold Cli.startup. destruct (str_eqb _ _); [now right | now left]. Qed.

Lemma save_values w video_path final_result :
  progress_values (fst (Cli.save_result w video_path final_result))
  = match snd (Cli.save_result w video_path final_result) with
    | Returns _ => [95%Z]
    | Raises _ => []
    end.
Proof.
  destruct (save_result_cases w video_path final_result)
    as [(e & ts & Hs & [->|[->|(bytes & _ & ->)]])
       |(bytes & _ & _ & _ & _ & Hs)];
    rewrite Hs; reflexivity.
Qed.

Lemma send_values w text final_result :
  progress_values
    (fst (try_except (Cli.send_result w text final_result) Cli.send_handler))
  = match delivery_line final_result with
    | Some _ => []
    | None => [0%Z]
    end.
Proof.
  rewrite send_result_trace. now destruct (delivery_line final_result).
Qed.

Lemma finalize_values w video_path model_name duration result :
  exists saved sent,
    progress_values
      (fst (Cli.finalize w video_path model_name duration result))
    = 90%Z :: saved ++ sent
    /\ (saved = [95%Z] \/ saved = [0%Z])
    /\ (sent = [] \/ saved = [95%Z] /\ sent = [0%Z]
        \/ saved = [0%Z] /\ sent = [0%Z]).
Proof.
  destruct (finalize_cases w video_path model_name duration result)
    as [(_ & status & _ & E)|(_ & _ & ts & fr & E & Hsave)];
    rewrite E; cbn [fst].
  - exists [0%Z], []. repeat split; auto.
  - rewrite !progress_values_app, send_values.
    assert (Hts : progress_values ts = [95%Z] \/ progress_values ts = [0%Z]).
    { destruct Hsave as [Hs|(ts' & e & Hs & _ & ->)].
      - left. match type of Hs with
              | Cli.save_result _ _ ?fr0 = _ =>
                  pose proof (save_values w video_path fr0) as H
              end.
        now rewrite Hs in H.
      - right. match type of Hs with
               | Cli.save_result _ _ ?fr0 = _ =>
                   pose proof (save_values w video_path fr0) as H
               end.
        rewrite Hs in H. cbn [fst snd] in H.
        rewrite progress_values_app, H. reflexivity. }
    exists (progress_values ts).
    exists (match delivery_line fr with Some _ => [] | None => [0%Z] end).
    split; [reflexivity|]. split; [exact Hts|].
    destruct (delivery_line fr); [now left|].
    destruct Hts as [->| ->]; auto.
Qed.

Lemma transcribe_video_values w video_path model_name language :
  exists seen tail,
    progress_values
      (fst (Cli.transcribe_video w video_path model_name language))
    = seen ++ tail
    /\ (seen = [10; 10]%Z /\ tail = [0%Z]
        \/ seen = [10; 10; 30]%Z /\ tail = [0%Z]
        \/ seen = [10; 10; 30; 50]%Z /\ tail = [0%Z]
        \/ seen = [10; 10; 30; 50; 90]%Z
           /\ (tail = [0%Z] \/ tail = [0; 0]%Z \/ tail = [95%Z]
               \/ tail = [95; 0]%Z)).
Proof.
  destruct (transcribe_video_cases w video_path model_name language)
    as [(e & audio & n & Hn & E & _)
       |(audio & result & t & v & _ & _ & _ & Hf & E)];
    rewrite E; cbn [fst]; rewrite progress_values_app.
  - destruct Hn as [->|[->| ->]]; eexists; eexists;
      (split; [reflexivity|]); cbn; auto 8.
  - exists [10; 10; 30; 50; 90]%Z.
    destruct (finalize_values w video_path model_name (total_duration audio)
                result) as (saved & sent & Hv & Hsaved & Hsent).
    rewrite Hf in Hv. cbn [fst] in Hv. rewrite Hv.
    exists (saved ++ sent). split; [reflexivity|].
    do 3 right. split; [reflexivity|].
    destruct Hsaved as [->| ->];
      destruct Hsent as [->|[[E1 ->]|[E1 ->]]];
      try discriminate; cbn; auto.
Qed.

(** X13: the progress records of the main thread rise until the first
    error.  The percentages printed by a run are a non-decreasing sequence
    of values between 5 and 95, followed by at most two error records with
    progress 0: after an error record no progress is reported any more. *)
Theorem progress_rises_until_error (w : Cli.world)
    (video_path model_name : str) (language : option str) :
  exists rising errors,
    progress_values (fst (Cli.main w video_path model_name language))
    = rising ++ errors
    /\ StronglySorted Z.le rising
    /\ Forall (fun p => (5 <= p <= 95)%Z) rising
    /\ Forall (fun p => p = 0%Z) errors
    /\ (List.length errors <= 2)%nat.
Proof.
  assert (Hmain : progress_values
                    (fst (Cli.main w video_path model_name language))
                  = progress_values (Cli.startup w)
                    ++ progress_values
                         (fst (Cli.transcribe_video w video_path model_name
                                 language))).
  { unfold Cli.main.
    destruct (Cli.transcribe_video w video_path model_name language)
      as [t [v|e]]; cbn [fst]; rewrite !progress_values_app;
      [reflexivity|].
    cbn. now rewrite app_nil_r. }
  rewrite Hmain.
  destruct (transcribe_video_values w video_path model_name language)
    as (seen & tail & -> & Hcases).
  destruct (startup_values w) as [->| ->];
    destruct Hcases as [[-> ->]|[[-> ->]|[[-> ->]|[-> [->|[->|[->| ->]]]]]]];
    match goal with
    | |- exists _ _, ?ps = _ /\ _ =>
        exists (filter (fun p => negb (p =? 0)%Z) ps),
               (filter (fun p => (p =? 0)%Z) ps)
    end;
    cbn; (split; [reflexivity|]);
    repeat split; repeat constructor; lia.
Qed.

(** ** Further properties of the subtitle formatters *)

Lemma Qfloor_unique (y : Q) (z : Z) :
  (inject_Z z <= y)%Q -> (y < inject_Z (z + 1))%Q -> Qfloor y = z.
Proof.
  intros Hle Hlt.
  pose proof (Qfloor_le y) as H1. pose proof (Qlt_floor y) as H2.
  assert (inject_Z z < inject_Z (Qfloor y + 1))%Q as A by lra.
  assert (inject_Z (Qfloor y) < inject_Z (z + 1))%Q as B by lra.
  rewrite <- Zlt_Qlt in A, B. lia.
Qed.

Lemma Qfloor_div_pos (x : Q) (k : Z) :
  (0 < k)%Z -> Qfloor (x / inject_Z k) = (Qfloor x / k)%Z.
Proof.
  intros Hk.
  pose proof (Qfloor_le x) as H1. pose proof (Qlt_floor x) as H2.
  pose proof (Z.div_mod (Qfloor x) k ltac:(lia)) as Hdm.
  pose proof (Z.mod_pos_bound (Qfloor x) k Hk) as Hm.
  assert (Hkq : (0 < inject_Z k)%Q).
  { change 0%Q with (inject_Z 0). now rewrite <- Zlt_Qlt. }
  apply Qfloor_unique.
  - apply Qle_shift_div_l; [exact Hkq|].
    rewrite <- inject_Z_mult.
    assert (inject_Z (Qfloor x / k * k) <= inject_Z (Qfloor x))%Q
      by (rewrite <- Zle_Qle; nia).
    lra.
  - apply Qlt_shift_div_r; [exact Hkq|].
    rewrite <- inject_Z_mult.
    assert (inject_Z (Qfloor x + 1) <= inject_Z ((Qfloor x / k + 1) * k))%Q
      by (rewrite <- Zle_Qle; nia).
    lra.
Qed.

Lemma Qfloor_sub_Z (x : Q) (m : Z) :
  Qfloor (x - inject_Z m) = (Qfloor x - m)%Z.
Proof.
  pose proof (Qfloor_le x) as H1. pose proof (Qlt_floor x) as H2.
  apply Qfloor_unique.
  - unfold Z.sub. rewrite inject_Z_plus, inject_Z_opp. lra.
  - replace (Qfloor x - m + 1)%Z with (Qfloor x + 1 - m)%Z by lia.
    unfold Z.sub. rewrite inject_Z_plus, inject_Z_opp. lra.
Qed.

Lemma py_int_inject_Z (z : Z) : py_int (inject_Z z) = z.
Proof. unfold py_int. cbn. apply Z.quot_1_r. Qed.

Lemma py_mod_floor (x : Q) (k : Z) :
  (0 < k)%Z ->
  Qfloor (py_mod x (inject_Z k)) = (Qfloor x mod k)%Z.
Proof.
  intros Hk. unfold py_mod, py_floordiv.
  rewrite Qfloor_div_pos by exact Hk.
  rewrite <- inject_Z_mult, Qfloor_sub_Z.
  rewrite Z.mod_eq by lia. reflexivity.
Qed.

Lemma py_mod_range (x : Q) (k : Z) :
  (0 < k)%Z ->
  (0 <= py_mod x (inject_Z k))%Q /\ (py_mod x (inject_Z k) < inject_Z k)%Q.
Proof.
  intros Hk. unfold py_mod, py_floordiv.
  assert (Hkq : (0 < inject_Z k)%Q).
  { change 0%Q with (inject_Z 0). now rewrite <- Zlt_Qlt. }
  pose proof (Qfloor_le (x / inject_Z k)) as H1.
  pose proof (Qlt_floor (x / inject_Z k)) as H2.
  rewrite inject_Z_plus in H2. change (inject_Z 1) with 1%Q in H2.
  set (f := inject_Z (Qfloor (x / inject_Z k))) in *.
  assert (E : (x == inject_Z k * (x / inject_Z k))%Q) by (field; lra).
  set (y := (x / inject_Z k)%Q) in *.
  split; nra.
Qed.

Lemma format_d_two (n : Z) :
  (0 <= n < 100)%Z -> format_d 2 n = two_digits n.
Proof.
  intros Hn.
  assert (H : forallb (fun k => str_eqb (format_d 2 (Z.of_nat k))
                                  (two_digits (Z.of_nat k)))
                (seq 0 100) = true) by (vm_compute; reflexivity).
  rewrite forallb_forall in H.
  specialize (H (Z.to_nat n)). rewrite Z2Nat.id in H by lia.
  apply str_eqb_eq, H, in_seq. lia.
Qed.

Lemma format_d_three (n : Z) :
  (0 <= n < 1000)%Z -> format_d 3 n = three_digits n.
Proof.
  intros Hn.
  assert (H : forallb (fun k => str_eqb (format_d 3 (Z.of_nat k))
                                  (three_digits (Z.of_nat k)))
                (seq 0 1000) = true) by (vm_compute; reflexivity).
  rewrite forallb_forall in H.
  specialize (H (Z.to_nat n)). rewrite Z2Nat.id in H by lia.
  apply str_eqb_eq, H, in_seq. lia.
Qed.

(** The four fields of a timestamp, for a time that is not negative. *)
Lemma time_fields (seconds : Q) :
  (0 <= seconds)%Q ->
  py_int (py_floordiv seconds 3600) = (Qfloor seconds / 3600)%Z
  /\ py_int (py_floordiv (py_mod seconds 3600) 60)
     = ((Qfloor seconds / 60) mod 60)%Z
  /\ py_int (py_mod seconds 60) = (Qfloor seconds mod 60)%Z
  /\ (0 <= py_int (py_mod seconds 1 * 1000) < 1000)%Z.
Proof.
  intros Hs.
  change 3600%Q with (inject_Z 3600). change 60%Q with (inject_Z 60).
  change 1%Q with (inject_Z 1).
  split; [|split; [|split]].
  - unfold py_floordiv. rewrite py_int_inject_Z.
    now apply Qfloor_div_pos.
  - unfold py_floordiv at 1. rewrite py_int_inject_Z.
    rewrite Qfloor_div_pos, py_mod_floor by lia.
    assert (0 <= Qfloor seconds)%Z.
    { change 0%Z with (Qfloor 0). now apply Qfloor_resp_le. }
    Z.to_euclidean_division_equations; lia.
  - destruct (py_mod_range seconds 60) as [H0 _]; [lia|].
    rewrite py_int_floor by exact H0.
    now apply py_mod_floor.
  - destruct (py_mod_range seconds 1) as [H0 H1]; [lia|].
    change (inject_Z 1) with 1%Q in *.
    rewrite py_int_floor by lra.
    split.
    + change 0%Z with (Qfloor 0). apply Qfloor_resp_le. lra.
    + rewrite Zlt_Qlt.
      pose proof (Qfloor_le (py_mod seconds 1 * 1000)) as F.
      change (inject_Z 1000) with 1000%Q. lra.
Qed.

(** X14: the fields of a subtitle timestamp.  For a time that is not
    negative, [format_time] and [format_time_vtt] print the hours, the
    minutes and the seconds of the whole seconds of the time -- minutes
    and seconds below 60 -- and a number of milliseconds below 1000; the
    two differ in the separator before the milliseconds only.  Below 100
    hours every field has its full width and the timestamp has exactly 12
    characters, HH:MM:SS,mmm or HH:MM:SS.mmm. *)
Theorem format_time_fields (seconds : Q) :
  (0 <= seconds)%Q ->
  let n := Qfloor seconds in
  let hours := (n / 3600)%Z in
  let minutes := ((n / 60) mod 60)%Z in
  let secs := (n mod 60)%Z in
  exists millis,
    (0 <= millis < 1000)%Z
    /\ (0 <= hours)%Z /\ (0 <= minutes < 60)%Z /\ (0 <= secs < 60)%Z
    /\ (hours * 3600 + minutes * 60 + secs = n)%Z
    /\ format_time seconds
       = format_d 2 hours ++ py ":" ++ format_d 2 minutes ++ py ":"
         ++ format_d 2 secs ++ py "," ++ format_d 3 millis
    /\ format_time_vtt seconds
       = format_d 2 hours ++ py ":" ++ format_d 2 minutes ++ py ":"
         ++ format_d 2 secs ++ py "." ++ format_d 3 millis
    /\ ((seconds < 360000)%Q ->
        format_time seconds
        = two_digits hours ++ py ":" ++ two_digits minutes ++ py ":"
          ++ two_digits secs ++ py "," ++ three_digits millis
        /\ format_time_vtt seconds
           = two_digits hours ++ py ":" ++ two_digits minutes ++ py ":"
             ++ two_digits secs ++ py "." ++ three_digits millis
        /\ List.length (format_time seconds) = 12%nat
        /\ List.length (format_time_vtt seconds) = 12%nat).
Proof.
  intros Hs n hours minutes secs.
  destruct (time_fields seconds Hs) as (Eh & Em & Es & Hms).
  fold n in Eh, Em, Es. fold hours in Eh. fold minutes in Em. fold secs in Es.
  assert (Hn : (0 <= n)%Z).
  { change 0%Z with (Qfloor 0). now apply Qfloor_resp_le. }
  assert (Hh : (0 <= hours)%Z) by (apply Z.div_pos; lia).
  assert (Hm : (0 <= minutes < 60)%Z) by (apply Z.mod_pos_bound; lia).
  assert (Hsec : (0 <= secs < 60)%Z) by (apply Z.mod_pos_bound; lia).
  assert (Hft : format_time seconds
                = format_d 2 hours ++ py ":" ++ format_d 2 minutes ++ py ":"
                  ++ format_d 2 secs ++ py ","
                  ++ format_d 3 (py_int (py_mod seconds 1 * 1000))).
  { unfold format_time. cbv zeta. now rewrite Eh, Em, Es. }
  assert (Hfv : format_time_vtt seconds
                = format_d 2 hours ++ py ":" ++ format_d 2 minutes ++ py ":"
                  ++ format_d 2 secs ++ py "."
                  ++ format_d 3 (py_int (py_mod seconds 1 * 1000))).
  { unfold format_time_vtt. cbv zeta. now rewrite Eh, Em, Es. }
  exists (py_int (py_mod seconds 1 * 1000)).
  split; [exact Hms|]. split; [exact Hh|]. split; [exact Hm|].
  split; [exact Hsec|].
  split.
  { unfold hours, minutes, secs. Z.to_euclidean_division_equations; lia. }
  split; [exact Hft|]. split; [exact Hfv|].
  intros Hlt.
  assert (Hh100 : (hours < 100)%Z).
  { assert (n < 360000)%Z.
    { rewrite Zlt_Qlt. pose proof (Qfloor_le seconds) as F. fold n in F.
      change (inject_Z 360000) with 360000%Q. lra. }
    unfold hours. Z.to_euclidean_division_equations; lia. }
  rewrite Hft, Hfv.
  rewrite !format_d_two, format_d_three by lia.
  repeat split; reflexivity.
Qed.

(** One hour, one minute, one second and a half: 01:01:01,500. *)
Lemma format_time_fields_witness :
  format_time 3661.5
  = two_digits 1 ++ py ":" ++ two_digits 1 ++ py ":" ++ two_digits 1
    ++ py "," ++ three_digits 500
  /\ List.length (format_time_vtt 3661.5) = 12%nat.
Proof.
  destruct (format_time_fields 3661.5) as (millis & _ & _ & _ & _ & _ & _ & _ & H);
    [discriminate|].
  destruct H as (_ & _ & _ & Hlen); [reflexivity|].
  split; [reflexivity | exact Hlen].
Defined.

Lemma srt_body_app i a b :
  srt_body i (a ++ b) = srt_body i a ++ srt_body (i + List.length a) b.
Proof.
  revert i. induction a as [|seg a IH]; intros i.
  - cbn. now rewrite Nat.add_0_r.
  - cbn [app srt_body List.length]. rewrite IH, <- !app_assoc.
    now rewrite Nat.add_succ_r.
Qed.

Lemma vtt_body_app a b : vtt_body (a ++ b) = vtt_body a ++ vtt_body b.
Proof.
  induction a as [|seg a IH]; [reflexivity|].
  cbn [app vtt_body]. now rewrite IH, <- !app_assoc.
Qed.

(** X15: the blocks of a subtitle file follow the segments.  The segment
    that stands after [k] others is written after their blocks, in SubRip
    with the number [k + 1], with its two timestamps and its stripped
    text, and the blocks of the segments behind it follow; an empty list
    of segments gives an empty SubRip body and a WebVTT body without
    blocks. *)
Theorem subtitle_blocks (before after : list segment) (segment : segment) :
  srt_body 1 (before ++ segment :: after)
  = srt_body 1 before
    ++ (str_of_int (Z.of_nat (List.length before + 1)) ++ nl
        ++ format_time (seg_start segment) ++ py " --> "
        ++ format_time (seg_end segment) ++ nl
        ++ strip (seg_text segment) ++ nl ++ nl)
    ++ srt_body (List.length before + 2) after
  /\ vtt_body (before ++ segment :: after)
     = vtt_body before
       ++ (format_time_vtt (seg_start segment) ++ py " --> "
           ++ format_time_vtt (seg_end segment) ++ nl
           ++ strip (seg_text segment) ++ nl ++ nl)
       ++ vtt_body after
  /\ srt_body 1 [] = [] /\ vtt_body [] = [].
Proof.
  split; [|split; [|split; reflexivity]].
  - rewrite srt_body_app. cbn [srt_body].
    replace (S (1 + List.length before)) with (List.length before + 2)%nat
      by lia.
    replace (1 + List.length before)%nat with (List.length before + 1)%nat
      by lia.
    reflexivity.
  - rewrite vtt_body_app. reflexivity.
Qed.

(** ** The front-end: listing the videos *)

Lemma str_leb_total a b : Gui.str_leb a b = false -> Gui.str_leb b a = true.
Proof.
  revert b. induction a as [|c a IH]; intros [|d b] H; cbn in *;
    try discriminate; try reflexivity.
  apply orb_false_iff in H as [H1 H2].
  apply N.ltb_ge in H1.
  destruct (N.eqb_spec c d) as [->|Hne].
  - cbn in H2. rewrite N.eqb_refl, (IH _ H2). cbn. apply orb_true_r.
  - assert ((d <? c) = true) as -> by (apply N.ltb_lt; lia). reflexivity.
Qed.

Lemma str_leb_trans a b c :
  Gui.str_leb a b = true -> Gui.str_leb b c = true -> Gui.str_leb a c = true.
Proof.
  revert b c. induction a as [|x a IH]; intros [|y b] [|z c] H1 H2; cbn in *;
    try discriminate; try reflexivity.
  apply orb_true_iff in H1. apply orb_true_iff in H2. apply orb_true_iff.
  rewrite !andb_true_iff, !N.ltb_lt, !N.eqb_eq in *.
  destruct H1 as [H1|[-> H1]], H2 as [H2|[-> H2]].
  - left. lia.
  - now left.
  - now left.
  - right. split; [reflexivity|]. eapply IH; eauto.
Qed.

Lemma insert_sorted_perm x l : Permutation (Gui.insert_sorted x l) (x :: l).
Proof.
  induction l as [|y l IH]; [reflexivity|].
  cbn. destruct (Gui.str_leb x y); [reflexivity|].
  rewrite IH. apply perm_swap.
Qed.

Lemma sorted_perm l : Permutation (Gui.sorted l) l.
Proof.
  induction l as [|x l IH]; [reflexivity|].
  cbn. rewrite insert_sorted_perm. now constructor.
Qed.

Lemma insert_sorted_Sorted x l :
  Sorted (fun a b => Gui.str_leb a b = true) l ->
  Sorted (fun a b => Gui.str_leb a b = true) (Gui.insert_sorted x l).
Proof.
  induction 1 as [|y l Hl IH Hhd]; [repeat constructor|].
  cbn. destruct (Gui.str_leb x y) eqn:E.
  - repeat constructor; assumption.
  - constructor; [exact IH|].
    apply str_leb_total in E.
    destruct l as [|z l]; cbn.
    + now constructor.
    + destruct (Gui.str_leb x z); constructor; [exact E|].
      now inversion Hhd.
Qed.

Lemma sorted_StronglySorted l :
  StronglySorted (fun a b => Gui.str_leb a b = true) (Gui.sorted l).
Proof.
  apply Sorted_StronglySorted.
  - intros a b c. apply str_leb_trans.
  - induction l as [|x l IH]; [constructor|].
    cbn. now apply insert_sorted_Sorted.
Qed.

(** X17: the list of videos of a folder.  For a folder that exists,
    [get_video_files] returns the names of the listing whose lower-case
    form ends with one of the eight supported extensions, each as often as
    the listing has it, in ascending order of their code points; for an
    empty path or a folder that does not exist it returns the empty
    list. *)
Theorem get_video_files_sorted (w : Gui.world) (folder_path : str) :
  (folder_path = [] \/ Gui.path_exists w folder_path = false ->
   Gui.get_video_files w folder_path = ([], Returns []))
  /\ (forall files,
         folder_path <> [] ->
         Gui.path_exists w folder_path = true ->
         Gui.listdir w folder_path = Returns files ->
         exists video_files,
           Gui.get_video_files w folder_path = ([], Returns video_files)
           /\ Permutation video_files (filter (is_video_file w) files)
           /\ StronglySorted (fun a b => Gui.str_leb a b = true) video_files
           /\ (forall file,
                  In file video_files
                  <-> In file files
                      /\ exists ext,
                           In ext Gui.SUPPORTED_FORMATS
                           /\ Gui.ends_with ext (Gui.str_lower w file) = true)).
Proof.
  unfold Gui.get_video_files. split.
  - intros [->|H]; [reflexivity|].
    destruct folder_path; [reflexivity|]. now rewrite H.
  - intros files Hne Hex Hls.
    destruct folder_path as [|c p]; [congruence|].
    rewrite Hex, Hls. cbn [negb].
    eexists. split; [reflexivity|].
    fold (is_video_file w).
    split; [apply sorted_perm|]. split; [apply sorted_StronglySorted|].
    intros file. split.
    + intros Hin. apply (Permutation_in _ (sorted_perm _)) in Hin.
      apply filter_In in Hin as [Hin Hv]. split; [exact Hin|].
      unfold is_video_file in Hv. apply existsb_exists in Hv.
      exact Hv.
    + intros [Hin Hv].
      apply (Permutation_in _ (Permutation_sym (sorted_perm _))).
      apply filter_In. split; [exact Hin|].
      unfold is_video_file. apply existsb_exists. exact Hv.
Qed.

(** A folder with two videos and a note: the videos are listed in order,
    the upper-case extension counts, the note is left out. *)
Lemma get_video_files_sorted_witness :
  exists video_files,
    Gui.get_video_files example_gui_world (py "/videos")
    = ([], Returns video_files)
    /\ Permutation video_files [py "talk.MP4"; py "demo.mkv"]
    /\ StronglySorted (fun a b => Gui.str_leb a b = true) video_files.
Proof.
  destruct (proj2 (get_video_files_sorted example_gui_world (py "/videos"))
              [py "talk.MP4"; py "notes.txt"; py "demo.mkv"])
    as (video_files & Hrun & Hperm & Hsorted & _);
    [discriminate | reflexivity | reflexivity |].
  exists video_files. split; [exact Hrun|]. split; [exact Hperm | exact Hsorted].
Defined.

(** ** The front-end: one transcription *)

(** The four ways in which [transcribe_video] of the front-end ends: the
    model load raises, the inference raises, the write raises, or the
    function returns the output path. *)
Lemma gui_transcribe_video_cases w video_path model_name language
    output_format output_folder :
  let output_path :=
    Gui.path_join w output_folder
      (Gui.path_stem w video_path ++ py "_transcription." ++ output_format) in
  let loading :=
    [ Gui.Log (py "INFO")
        (py "Starting transcription of: " ++ Gui.path_basename w video_path);
      Gui.UpdateProgress 10 (py "Loading Whisper model...");
      Gui.LoadModel model_name ] in
  let failed e :=
    [ Gui.Log (py "ERROR") (py "Error during transcription: " ++ exn_message e);
      Gui.UpdateProgress 0 (py "Error occurred") ] in
  let loaded :=
    [ Gui.Log (py "INFO") (py "Loaded Whisper model: " ++ model_name);
      Gui.UpdateProgress 20 (py "Model loaded, processing audio...");
      Gui.Transcribe video_path (Cli.options language) ] in
  let transcribed result :=
    [ Gui.UpdateProgress 80 (py "Transcription complete, saving file...");
      Gui.Log (py "INFO")
        (py "Transcription completed. Detected language: "
         ++ match result_language result with
            | Some l => l
            | None => py "unknown"
            end) ] in
  let completed :=
    [ Gui.UpdateProgress 100 (py "Completed!");
      Gui.Log (py "INFO") (py "Transcription saved to: " ++ output_path) ] in
  (exists e,
      Gui.load_model w model_name = Raises e
      /\ Gui.transcribe_video w video_path model_name language output_format
           output_folder
         = (loading ++ failed e, Returns None))
  \/ (exists e,
         Gui.load_model w model_name = Returns tt
         /\ Gui.transcribe w video_path (Cli.options language) = Raises e
         /\ Gui.transcribe_video w video_path model_name language
              output_format output_folder
            = (loading ++ loaded ++ failed e, Returns None))
  \/ (exists result content e,
         Gui.load_model w model_name = Returns tt
         /\ Gui.transcribe w video_path (Cli.options language)
            = Returns result
         /\ Gui.write_file_outcome w output_path = Raises e
         /\ Gui.transcribe_video w video_path model_name language
              output_format output_folder
            = (loading ++ loaded ++ transcribed result
               ++ [Gui.SaveFile output_path (Some content)] ++ failed e,
               Returns None))
  \/ (exists result saved,
         Gui.load_model w model_name = Returns tt
         /\ Gui.transcribe w video_path (Cli.options language)
            = Returns result
         /\ (saved = []
             /\ read_file output_path
                  (save_transcription (Gui.json_dump_indent w) result
                     output_path output_format []) = None
             \/ exists content,
                  saved = [Gui.SaveFile output_path (Some content)]
                  /\ read_file output_path
                       (save_transcription (Gui.json_dump_indent w) result
                          output_path output_format []) = Some content
                  /\ Gui.write_file_outcome w output_path = Returns tt)
         /\ Gui.transcribe_video w video_path model_name language
              output_format output_folder
            = (loading ++ loaded ++ transcribed result ++ saved ++ completed,
               Returns (Some output_path))).
Proof.
  intros output_path loading failed loaded transcribed completed.
  unfold Gui.transcribe_video, Gui.log.
  fold output_path.
  cbv beta iota zeta delta [bind try_except emit ret call raise].
  destruct (Gui.load_model w model_name) as [[]|e] eqn:H1.
  2:{ left. exists e. split; reflexivity. }
  right.
  destruct (Gui.transcribe w video_path (Cli.options language))
    as [result|e] eqn:H2.
  2:{ left. exists e. repeat split; reflexivity. }
  right.
  destruct (read_file output_path _) as [content|] eqn:Hw.
  - destruct (Gui.write_file_outcome w output_path) as [[]|e] eqn:H3.
    + right. exists result, [Gui.SaveFile output_path (Some content)].
      split; [reflexivity|]. split; [reflexivity|].
      split; [right; eauto | reflexivity].
    + left. exists result, content, e. repeat split; reflexivity.
  - right. exists result, []. repeat split; auto.
Qed.

Lemma save_transcription_known json_dump_indent result output_path
    format_type fs :
  In format_type (map snd OUTPUT_FORMATS) ->
  exists content,
    save_transcription json_dump_indent result output_path format_type fs
    = write_file output_path content fs.
Proof.
  cbn [map snd OUTPUT_FORMATS In].
  intros [<-|[<-|[<-|[<-|[]]]]]; eexists; reflexivity.
Qed.

(** X23: every format of the menu is written.  For each tag of
    [OUTPUT_FORMATS], a transcription of the front-end that returns an
    output path has opened that path for writing, with the text that
    [save_transcription] gives for the tag, before it reported the
    progress 100: the branch of [save_transcription] that writes nothing
    is not reached from the menu. *)
Theorem offered_formats_are_written (w : Gui.world)
    (video_path model_name : str) (language : option str)
    (label output_format output_folder : str) (t : list Gui.event)
    (output_path : str) :
  In (label, output_format) OUTPUT_FORMATS ->
  Gui.transcribe_video w video_path model_name language output_format
    output_folder = (t, Returns (Some output_path)) ->
  exists result content before,
    Gui.transcribe w video_path (Cli.options language) = Returns result
    /\ save_transcription (Gui.json_dump_indent w) result output_path
         output_format []
       = write_file output_path content []
    /\ t = before
           ++ [ Gui.SaveFile output_path (Some content);
                Gui.UpdateProgress 100 (py "Completed!");
                Gui.Log (py "INFO")
                  (py "Transcription saved to: " ++ output_path) ].
Proof.
  intros Hfmt Hrun.
  assert (Hin : In output_format (map snd OUTPUT_FORMATS)).
  { apply in_map_iff. exists (label, output_format). auto. }
  destruct (gui_transcribe_video_cases w video_path model_name language
              output_format output_folder)
    as [(e & _ & E)
       |[(e & _ & _ & E)
        |[(result & content & e & _ & _ & _ & E)
         |(result & saved & _ & H2 & Hsaved & E)]]];
    rewrite E in Hrun; try discriminate.
  pose proof (f_equal fst Hrun) as Ht. pose proof (f_equal snd Hrun) as Hpath.
  cbn [fst snd] in Ht, Hpath.
  assert (output_path
          = Gui.path_join w output_folder
              (Gui.path_stem w video_path ++ py "_transcription."
               ++ output_format)) by congruence.
  subst output_path. clear Hpath Hrun.
  destruct (save_transcription_known (Gui.json_dump_indent w) result
              (Gui.path_join w output_folder
                 (Gui.path_stem w video_path ++ py "_transcription."
                  ++ output_format))
              output_format [] Hin) as [content Hsave].
  destruct Hsaved as [[_ Hnone]|(content' & -> & Hsome & _)].
  { rewrite Hsave, read_write_file in Hnone. discriminate. }
  rewrite Hsave, read_write_file in Hsome.
  assert (content' = content) by congruence. subst content'.
  exists result, content.
  match type of Ht with
  | ?a ++ ?b ++ ?c ++ ?d ++ ?e = _ => exists (a ++ b ++ c)
  end.
  split; [exact H2|]. split; [exact Hsave|].
  subst t. cbn [app]. reflexivity.
Qed.



(** The SubRip format is chosen and everything works: the file is
    written before the progress 100 is reported. *)
Lemma offered_formats_are_written_witness :
  exists result content before,
    Gui.transcribe example_gui_world (py "/videos/demo.mkv")
      (Cli.options None) = Returns result
    /\ save_transcription (Gui.json_dump_indent example_gui_world) result
         (py "/out//videos/demo.mkv_transcription.srt") (py "srt") []
       = write_file (py "/out//videos/demo.mkv_transcription.srt") content []
    /\ fst (Gui.transcribe_video example_gui_world (py "/videos/demo.mkv")
              (py "base") None (py "srt") (py "/out"))
       = before
         ++ [ Gui.SaveFile (py "/out//videos/demo.mkv_transcription.srt")
                (Some content);
              Gui.UpdateProgress 100 (py "Completed!");
              Gui.Log (py "INFO")
                (py "Transcription saved to: "
                 ++ py "/out//videos/demo.mkv_transcription.srt") ].
Proof.
  apply (offered_formats_are_written example_gui_world
           (py "/videos/demo.mkv") (py "base") None (py "SubRip (.srt)")
           (py "srt") (py "/out")).
  - right. left. reflexivity.
  - vm_compute. reflexivity.
Defined.

(** X18: [transcribe_video] of the front-end never raises.  Whatever the
    model load, the inference and the write of the output file do, the
    function returns: the output path
    [<output_folder>/<stem>_transcription.<format>] after the progress 100
    and the entry "Transcription saved to", or [None] after an ERROR entry
    with the text of the exception that one of the three calls raised and
    the progress 0 with the status "Error occurred". *)
Theorem gui_transcribe_video_returns (w : Gui.world)
    (video_path model_name : str) (language : option str)
    (output_format output_folder : str) :
  let output_path :=
    Gui.path_join w output_folder
      (Gui.path_stem w video_path ++ py "_transcription." ++ output_format) in
  exists t v,
    Gui.transcribe_video w video_path model_name language output_format
      output_folder = (t, Returns v)
    /\ match v with
       | Some returned =>
           returned = output_path
           /\ Gui.load_model w model_name = Returns tt
           /\ (exists result,
                  Gui.transcribe w video_path (Cli.options language)
                  = Returns result)
           /\ exists t',
                t = t' ++ [ Gui.UpdateProgress 100 (py "Completed!");
                            Gui.Log (py "INFO")
                              (py "Transcription saved to: " ++ output_path) ]
       | None =>
           exists t' e,
             t = t' ++ [ Gui.Log (py "ERROR")
                           (py "Error during transcription: "
                            ++ exn_message e);
                         Gui.UpdateProgress 0 (py "Error occurred") ]
             /\ (Gui.load_model w model_name = Raises e
                 \/ Gui.transcribe w video_path (Cli.options language)
                    = Raises e
                 \/ Gui.write_file_outcome w output_path = Raises e)
       end.
Proof.
  intros output_path.
  destruct (gui_transcribe_video_cases w video_path model_name language
              output_format output_folder)
    as [(e & H1 & E)
       |[(e & H1 & H2 & E)
        |[(result & content & e & H1 & H2 & H3 & E)
         |(result & saved & H1 & H2 & Hsaved & E)]]];
    rewrite E; eexists; eexists; (split; [reflexivity|]); cbv beta iota.
  - eexists. exists e. split; [reflexivity | auto].
  - match goal with
    | |- exists t' e', ?a ++ ?b ++ ?c = _ /\ _ => exists (a ++ b), e
    end.
    rewrite <- !app_assoc. split; [reflexivity | auto].
  - match goal with
    | |- exists t' e', ?a ++ ?b ++ ?c ++ ?d ++ ?f = _ /\ _ =>
        exists (a ++ b ++ c ++ d), e
    end.
    rewrite <- !app_assoc. split; [reflexivity | auto].
  - split; [reflexivity|]. split; [exact H1|]. split; [eauto|].
    match goal with
    | |- exists t', ?a ++ ?b ++ ?c ++ ?d ++ ?f = _ =>
        exists (a ++ b ++ c ++ d)
    end.
    rewrite <- !app_assoc. reflexivity.
Qed.

(** ** The front-end: when the model is called *)

(** The video that [main] selects, when the folder holds one. *)
Lemma select_video_selected w ui selected :
  snd (Gui.select_video w ui) = Returns (Some selected) ->
  Gui.folder_path ui <> []
  /\ Gui.path_exists w (Gui.folder_path ui) = true
  /\ exists files,
       Gui.listdir w (Gui.folder_path ui) = Returns files
       /\ In selected files
       /\ is_video_file w selected = true.
Proof.
  unfold Gui.select_video, Gui.get_video_files.
  destruct (Gui.folder_path ui) as [|c p] eqn:Hf; [discriminate|].
  destruct (Gui.path_exists w (c :: p)) eqn:Hex; [|discriminate].
  cbn [negb]. destruct (Gui.listdir w (c :: p)) as [files|e]; [|discriminate].
  fold (is_video_file w).
  destruct (Gui.sorted (filter (is_video_file w) files)) as [|first l] eqn:Hs;
    [discriminate|].
  cbv beta iota zeta delta [bind emit ret snd]. intros [= <-].
  split; [discriminate|]. split; [reflexivity|].
  exists files. split; [reflexivity|].
  assert (Hin : In (nth (Gui.video_choice ui) (first :: l) first)
                  (first :: l)).
  { destruct (Nat.lt_ge_cases (Gui.video_choice ui)
                (List.length (first :: l))) as [Hlt|Hge].
    - now apply nth_In.
    - rewrite nth_overflow by exact Hge. now left. }
  rewrite <- Hs in Hin.
  apply (Permutation_in _ (sorted_perm _)) in Hin.
  apply filter_In in Hin. rewrite Hs in Hin. exact Hin.
Qed.


(** One run of [main]: messages only, or a press on "Clear Logs", or a
    transcription that is started on a video of the folder after the logs
    are cleared. *)
Lemma gui_main_cases w ui :
  exists shown,
    Forall (fun ev => is_message ev = true) shown
    /\ (fst (Gui.main w ui) = shown
        \/ fst (Gui.main w ui) = shown ++ [Gui.ClearLogs]
        \/ exists files selected tail,
             Gui.start_clicked ui = true
             /\ Gui.clear_logs_clicked ui = false
             /\ Gui.folder_path ui <> []
             /\ Gui.path_exists w (Gui.folder_path ui) = true
             /\ Gui.output_folder ui <> []
             /\ Gui.path_exists w (Gui.output_folder ui) = true
             /\ Gui.listdir w (Gui.folder_path ui) = Returns files
             /\ In selected files
             /\ is_video_file w selected = true
             /\ Forall (fun ev => is_message ev = true) tail
             /\ fst (Gui.main w ui)
                = shown ++ [Gui.ClearLogs]
                  ++ fst (Gui.transcribe_video w
                            (Gui.path_join w (Gui.folder_path ui) selected)
                            (Gui.model_name ui) (Gui.language ui)
                            (Gui.output_format ui) (Gui.output_folder ui))
                  ++ tail).
Proof.
  assert (Hshown : Forall (fun ev => is_message ev = true)
                     (fst (Gui.select_video w ui))).
  { unfold Gui.select_video, Gui.get_video_files.
    destruct (Gui.folder_path ui) as [|c p]; [constructor|].
    destruct (Gui.path_exists w (c :: p)); [|repeat constructor].
    cbn [negb]. destruct (Gui.listdir w (c :: p)) as [files|e]; [|constructor].
    destruct (Gui.sorted _); repeat constructor. }
  pose proof (select_video_selected w ui) as Hsel.
  unfold Gui.main.
  destruct (Gui.select_video w ui) as [t0 [sel|e]]; cbn [fst snd] in *;
    [|exists t0; split; [exact Hshown | left; reflexivity]].
  cbv beta iota zeta delta [bind].
  destruct (Gui.clear_logs_clicked ui) eqn:Hclear.
  { exists t0. split; [exact Hshown | right; left; reflexivity]. }
  destruct (Gui.start_clicked ui) eqn:Hstart.
  2:{ exists t0. split; [exact Hshown|]. left. cbn. now rewrite app_nil_r. }
  assert (Herr : forall m,
             Forall (fun ev => is_message ev = true) (t0 ++ [Gui.St_error m])).
  { intros m. apply Forall_app. split; [exact Hshown | repeat constructor]. }
  unfold Gui.start_transcription.
  destruct sel as [[|c0 sel]|];
    [eexists; split; [apply Herr | left; reflexivity]
    | | eexists; split; [apply Herr | left; reflexivity]].
  destruct (Gui.output_folder ui) as [|c1 out] eqn:Hout;
    [eexists; split; [apply Herr | left; reflexivity]|].
  destruct (Gui.path_exists w (c1 :: out)) eqn:Hoex; cbn [negb];
    [|eexists; split; [apply Herr | left; reflexivity]].
  destruct (Hsel (c0 :: sel) eq_refl) as (Hf & Hfex & files & Hls & Hin & Hv).
  exists t0. split; [exact Hshown|]. right. right.
  cbv beta iota zeta delta [bind emit ret].
  destruct (Gui.transcribe_video w _ _ _ _ _) as [tv [[[|c2 path]|]|e]] eqn:Htv.
  4:{ exists files, (c0 :: sel), [].
      do 9 (split; [first [assumption | reflexivity | discriminate]|]).
      split; [constructor|]. rewrite Htv. cbn [fst app].
      now rewrite app_nil_r. }
  all: try destruct (Gui.path_exists w (c2 :: path));
    exists files, (c0 :: sel); eexists;
    do 9 (split; [first [assumption | reflexivity | discriminate]|]);
    apply and_comm;
    (split; [rewrite Htv; cbn [fst app]; reflexivity | repeat constructor]).
Qed.

Lemma message_no_model_call t :
  Forall (fun ev => is_message ev = true) t ->
  filter Gui.is_model_call t = [].
Proof.
  induction 1 as [|ev t Hev Ht IH]; [reflexivity|].
  cbn [filter]. rewrite IH. now destruct ev.
Qed.

Lemma gui_transcribe_video_model_calls w video_path model_name language
    output_format output_folder :
  let calls :=
    filter Gui.is_model_call
      (fst (Gui.transcribe_video w video_path model_name language
              output_format output_folder)) in
  calls = [Gui.LoadModel model_name]
  \/ calls = [ Gui.LoadModel model_name;
               Gui.Transcribe video_path (Cli.options language) ].
Proof.
  destruct (gui_transcribe_video_cases w video_path model_name language
              output_format output_folder)
    as [(e & _ & E)
       |[(e & _ & _ & E)
        |[(result & content & e & _ & _ & _ & E)
         |(result & saved & _ & _ & Hsaved & E)]]];
    cbv zeta; rewrite E; cbn [fst].
  - now left.
  - now right.
  - now right.
  - right. destruct Hsaved as [[-> _]|(content & -> & _)]; reflexivity.
Qed.

(** X19: when the front-end calls the model.  One run of the script
    loads the model once at most and calls the inference once at most,
    and only when the start button is pressed, "Clear Logs" is not, the
    folder and the output folder are entered and exist, and the video
    that is passed to the model is a name of the folder's listing with a
    supported extension, joined to the folder. *)
Theorem gui_model_calls (w : Gui.world) (ui : Gui.inputs) :
  let calls := filter Gui.is_model_call (fst (Gui.main w ui)) in
  calls = []
  \/ (Gui.start_clicked ui = true
      /\ Gui.clear_logs_clicked ui = false
      /\ Gui.folder_path ui <> []
      /\ Gui.path_exists w (Gui.folder_path ui) = true
      /\ Gui.output_folder ui <> []
      /\ Gui.path_exists w (Gui.output_folder ui) = true
      /\ exists files selected,
           Gui.listdir w (Gui.folder_path ui) = Returns files
           /\ In selected files
           /\ is_video_file w selected = true
           /\ (calls = [Gui.LoadModel (Gui.model_name ui)]
               \/ calls
                  = [ Gui.LoadModel (Gui.model_name ui);
                      Gui.Transcribe
                        (Gui.path_join w (Gui.folder_path ui) selected)
                        (Cli.options (Gui.language ui)) ])).
Proof.
  intros calls. subst calls.
  destruct (gui_main_cases w ui)
    as (shown & Hshown
        & [E|[E|(files & selected & tail & H1 & H2 & H3 & H4 & H5 & H6 & H7
                 & H8 & H9 & Htail & E)]]);
    rewrite E.
  - left. now apply message_no_model_call.
  - left. rewrite filter_app, (message_no_model_call _ Hshown). reflexivity.
  - right. do 6 (split; [assumption|]).
    exists files, selected. do 3 (split; [assumption|]).
    rewrite !filter_app, (message_no_model_call _ Hshown),
      (message_no_model_call _ Htail), app_nil_r.
    cbn [filter Gui.is_model_call app].
    apply gui_transcribe_video_model_calls.
Qed.

(** Two videos are in the folder and the first is chosen: the model is
    loaded once and called once, on that video. *)
Lemma gui_model_calls_witness :
  filter Gui.is_model_call
    (fst (Gui.main example_gui_world (example_inputs (py "/videos"))))
  = [ Gui.LoadModel (py "base");
      Gui.Transcribe (py "/videos/demo.mkv") (Some (py "pt")) ].
Proof.
  destruct (gui_model_calls example_gui_world (example_inputs (py "/videos")))
    as [H|(_ & _ & _ & _ & _ & _ & files & selected & _ & _ & _ & _)];
    [revert H; vm_compute; discriminate|].
  vm_compute. reflexivity.
Defined.

(** ** The front-end: the logger between two runs *)

Lemma logger_after_app clock n t1 t2 self :
  logger_after clock n (t1 ++ t2) self
  = logger_after clock (n + List.length t1) t2 (logger_after clock n t1 self).
Proof.
  revert n self. induction t1 as [|ev t1 IH]; intros n self.
  - cbn. now rewrite Nat.add_0_r.
  - cbn [app logger_after List.length]. rewrite IH.
    now rewrite Nat.add_succ_r.
Qed.

Lemma logger_after_messages clock n t self :
  Forall (fun ev => is_message ev = true) t ->
  logger_after clock n t self = self.
Proof.
  intros H. revert n. induction H as [|ev t Hev Ht IH]; intros n;
    [reflexivity|].
  cbn [logger_after]. destruct ev; try discriminate; apply IH.
Qed.

(** The logger after one transcription that starts on cleared logs. *)
Lemma gui_transcribe_video_logger clock n w video_path model_name language
    output_format output_folder :
  let after :=
    logger_after clock n
      (fst (Gui.transcribe_video w video_path model_name language
              output_format output_folder))
      TranscriptionLogger.init in
  (TranscriptionLogger.progress after = 100%Z
   /\ TranscriptionLogger.status after = py "Completed!"
   /\ List.length (TranscriptionLogger.logs after) = 4%nat)
  \/ (TranscriptionLogger.progress after = 0%Z
      /\ TranscriptionLogger.status after = py "Error occurred"
      /\ (2 <= List.length (TranscriptionLogger.logs after) <= 4)%nat).
Proof.
  destruct (gui_transcribe_video_cases w video_path model_name language
              output_format output_folder)
    as [(e & _ & E)
       |[(e & _ & _ & E)
        |[(result & content & e & _ & _ & _ & E)
         |(result & saved & _ & _ & Hsaved & E)]]];
    cbv zeta; rewrite E; cbn [fst].
  - right. cbn. repeat split; lia.
  - right. cbn. repeat split; lia.
  - right. cbn. repeat split; lia.
  - left. destruct Hsaved as [[-> _]|(content & -> & _)]; cbn; repeat split.
Qed.

(** The logger after one run of the script. *)
Lemma logger_after_main w ui clock n self :
  let after := logger_after clock n (fst (Gui.main w ui)) self in
  after = self
  \/ after = TranscriptionLogger.init
  \/ (TranscriptionLogger.progress after = 100%Z
      /\ TranscriptionLogger.status after = py "Completed!"
      /\ List.length (TranscriptionLogger.logs after) = 4%nat)
  \/ (TranscriptionLogger.progress after = 0%Z
      /\ TranscriptionLogger.status after = py "Error occurred"
      /\ (2 <= List.length (TranscriptionLogger.logs after) <= 4)%nat).
Proof.
  cbv zeta.
  destruct (gui_main_cases w ui)
    as (shown & Hshown
        & [E|[E|(files & selected & tail & _ & _ & _ & _ & _ & _ & _ & _ & _
                 & Htail & E)]]);
    rewrite E.
  - left. now apply logger_after_messages.
  - right. left. rewrite logger_after_app.
    now rewrite (logger_after_messages _ _ _ _ Hshown).
  - right. right.
    rewrite !logger_after_app.
    rewrite (logger_after_messages _ _ _ _ Hshown).
    rewrite (logger_after_messages _ _ tail _ Htail).
    cbn [logger_after logger_event].
    apply gui_transcribe_video_logger.
Qed.

(** X20: the logger between the runs of the script.  One run leaves the
    logger of the session as it was, or reset by "Clear Logs", or -- after
    a transcription, which starts by clearing it -- with the progress 100,
    the status "Completed!" and four entries, or with the progress 0, the
    status "Error occurred" and two to four entries.  So, in a session
    that starts with a fresh logger, the progress that a run finds and
    draws is 0 or 100, never one of the intermediate values 10, 20 and 80;
    the logger holds four entries at most, and the window of the last 20
    entries that [main] shows never cuts an entry off. *)
Theorem logger_between_runs (runs : list run) :
  (forall w ui clock n self,
      let after := logger_after clock n (fst (Gui.main w ui)) self in
      after = self
      \/ after = TranscriptionLogger.init
      \/ (TranscriptionLogger.progress after = 100%Z
          /\ TranscriptionLogger.status after = py "Completed!"
          /\ List.length (TranscriptionLogger.logs after) = 4%nat)
      \/ (TranscriptionLogger.progress after = 0%Z
          /\ TranscriptionLogger.status after = py "Error occurred"
          /\ (2 <= List.length (TranscriptionLogger.logs after) <= 4)%nat))
  /\ (let found := logger_session runs TranscriptionLogger.init in
      (TranscriptionLogger.progress found = 0%Z
       \/ TranscriptionLogger.progress found = 100%Z)
      /\ (List.length (TranscriptionLogger.get_logs found) <= 4)%nat
      /\ shown_logs found = TranscriptionLogger.get_logs found).
Proof.
  split; [intros w ui clock n self; apply logger_after_main|].
  cbv zeta.
  assert (Hinv : forall self,
             (TranscriptionLogger.progress self = 0%Z
              \/ TranscriptionLogger.progress self = 100%Z)
             /\ (List.length (TranscriptionLogger.logs self) <= 4)%nat ->
             (TranscriptionLogger.progress (logger_session runs self) = 0%Z
              \/ TranscriptionLogger.progress (logger_session runs self)
                 = 100%Z)
             /\ (List.length
                   (TranscriptionLogger.logs (logger_session runs self))
                 <= 4)%nat).
  { unfold logger_session.
    induction runs as [|r runs IH]; intros self Hself; [exact Hself|].
    cbn [fold_left]. apply IH.
    destruct (logger_after_main (run_world r) (run_inputs r) (run_clock r) 0
                self) as [->|[->|[(Hp & _ & Hl)|(Hp & _ & Hl)]]].
    - exact Hself.
    - cbn. split; [now left | lia].
    - split; [now right | lia].
    - split; [now left | lia]. }
  destruct (Hinv TranscriptionLogger.init) as [Hp Hl];
    [cbn; split; [now left | lia]|].
  split; [exact Hp|]. split; [exact Hl|].
  unfold shown_logs, TranscriptionLogger.get_logs in *.
  replace (List.length
             (TranscriptionLogger.logs
                (logger_session runs TranscriptionLogger.init)) - 20)%nat
    with 0%nat by lia.
  reflexivity.
Qed.

(** The first run of a session starts a transcription that succeeds and
    the second only looks at the folder: the second run finds, and leaves,
    the progress 100 and four entries, all of them shown. *)
Lemma logger_between_runs_witness :
  TranscriptionLogger.progress
    (logger_session
       [ {| run_world := example_gui_world;
            run_inputs := example_inputs (py "/videos");
            run_clock := fun _ => py "12:00:00" |};
         {| run_world := example_gui_world;
            run_inputs :=
              {| Gui.folder_path := py "/videos";
                 Gui.video_choice := 1;
                 Gui.model_name := py "base";
                 Gui.language := None;
                 Gui.output_format := py "srt";
                 Gui.output_folder := py "/videos";
                 Gui.clear_logs_clicked := false;
                 Gui.start_clicked := false |};
            run_clock := fun _ => py "12:05:00" |} ]
       TranscriptionLogger.init) = 100%Z
  /\ List.length
       (shown_logs
          (logger_session
             [ {| run_world := example_gui_world;
                  run_inputs := example_inputs (py "/videos");
                  run_clock := fun _ => py "12:00:00" |};
               {| run_world := example_gui_world;
                  run_inputs :=
                    {| Gui.folder_path := py "/videos";
                       Gui.video_choice := 1;
                       Gui.model_name := py "base";
                       Gui.language := None;
                       Gui.output_format := py "srt";
                       Gui.output_folder := py "/videos";
                       Gui.clear_logs_clicked := false;
                       Gui.start_clicked := false |};
                  run_clock := fun _ => py "12:05:00" |} ]
             TranscriptionLogger.init)) = 4%nat.
Proof.
  match goal with
  | |- TranscriptionLogger.progress (logger_session ?runs _) = _ /\ _ =>
      destruct (proj2 (logger_between_runs runs)) as (_ & _ & Hshown)
  end.
  split; [vm_compute; reflexivity|].
  rewrite Hshown. vm_compute. reflexivity.
Defined.

(** ** The durations of the status texts *)

Lemma round_half_even_bounds (x : Q) :
  (Qfloor x <= Cli.round_half_even x <= Qfloor x + 1)%Z.
Proof.
  unfold Cli.round_half_even.
  destruct (x - inject_Z (Qfloor x) ?= 1 # 2)%Q; [|lia|lia].
  destruct (Z.even (Qfloor x)); lia.
Qed.

Lemma Qfloor_inject_Z (z : Z) : Qfloor (inject_Z z) = z.
Proof. apply Qfloor_unique; [apply Qle_refl|]. rewrite <- Zlt_Qlt. lia. Qed.

Lemma round_half_even_Z (z : Z) : Cli.round_half_even (inject_Z z) = z.
Proof.
  unfold Cli.round_half_even. rewrite Qfloor_inject_Z.
  assert (E : (inject_Z z - inject_Z z ?= 1 # 2)%Q = Lt).
  { rewrite <- Qlt_alt. lra. }
  now rewrite E.
Qed.

Lemma format_0f_nonneg (x : Q) :
  (0 <= x)%Q -> Cli.format_0f x = str_of_int (Cli.round_half_even x).
Proof.
  intros H. unfold Cli.format_0f.
  apply Qle_bool_iff in H. rewrite H. cbn [negb]. now rewrite andb_false_r.
Qed.

Lemma format_0f_Z (z : Z) :
  (0 <= z)%Z -> Cli.format_0f (inject_Z z) = str_of_int z.
Proof.
  intros H. rewrite format_0f_nonneg, round_half_even_Z; [reflexivity|].
  change 0%Q with (inject_Z 0). now rewrite <- Zle_Qle.
Qed.

Lemma Qle_bool_floor (k : Z) (x : Q) :
  Qle_bool (inject_Z k) x = (k <=? Qfloor x)%Z.
Proof.
  pose proof (Qfloor_le x) as H1. pose proof (Qlt_floor x) as H2.
  destruct (Z.leb_spec k (Qfloor x)) as [H|H].
  - apply Qle_bool_iff. rewrite Zle_Qle in H. lra.
  - destruct (Qle_bool (inject_Z k) x) eqn:E; [|reflexivity].
    apply Qle_bool_iff in E.
    assert (inject_Z k < inject_Z (Qfloor x + 1))%Q as C by lra.
    rewrite <- Zlt_Qlt in C. lia.
Qed.

(** X21: the durations of the status texts.  For a duration that is not
    negative, the inner [format_time] prints the whole minutes and hours
    of the duration and its seconds rounded to the nearest integer: the
    seconds alone below one minute, minutes and seconds below one hour,
    hours, minutes and seconds from one hour on.  The seconds are rounded
    after the minutes are taken off, so the seconds field is a number
    from 0 to 60: it shows 60 where the next minute is less than half a
    second away. *)
Theorem status_time_text (seconds : Q) :
  (0 <= seconds)%Q ->
  let n := Qfloor seconds in
  let secs := Cli.round_half_even (py_mod seconds 60) in
  (0 <= secs <= 60)%Z
  /\ Cli.format_time seconds
     = if (n <? 60)%Z then
         str_of_int (Cli.round_half_even seconds) ++ py "s"
       else if (n <? 3600)%Z then
         str_of_int (n / 60) ++ py "m " ++ str_of_int secs ++ py "s"
       else
         str_of_int (n / 3600) ++ py "h " ++ str_of_int ((n / 60) mod 60)
         ++ py "m " ++ str_of_int secs ++ py "s".
Proof.
  intros Hs n secs.
  assert (Hn : (0 <= n)%Z).
  { change 0%Z with (Qfloor 0). now apply Qfloor_resp_le. }
  destruct (py_mod_range seconds 60) as [Hm0 Hm1]; [lia|].
  change (inject_Z 60) with 60%Q in *.
  assert (Hsecs : (0 <= secs <= 60)%Z).
  { pose proof (round_half_even_bounds (py_mod seconds 60)) as B.
    fold secs in B.
    assert (0 <= Qfloor (py_mod seconds 60))%Z.
    { change 0%Z with (Qfloor 0). now apply Qfloor_resp_le. }
    assert (Qfloor (py_mod seconds 60) < 60)%Z.
    { rewrite Zlt_Qlt. pose proof (Qfloor_le (py_mod seconds 60)) as F.
      change (inject_Z 60) with 60%Q. lra. }
    lia. }
  split; [exact Hsecs|].
  unfold Cli.format_time.
  change 60%Q with (inject_Z 60) at 1.
  change 3600%Q with (inject_Z 3600) at 1.
  rewrite !Qle_bool_floor. fold n.
  rewrite <- !Z.ltb_antisym.
  destruct (n <? 60)%Z eqn:E1.
  { now rewrite format_0f_nonneg. }
  destruct (n <? 3600)%Z eqn:E2.
  - cbv zeta. unfold py_floordiv.
    change 60%Q with (inject_Z 60) at 1.
    rewrite Qfloor_div_pos by lia. fold n.
    rewrite format_0f_Z by (apply Z.div_pos; lia).
    rewrite (format_0f_nonneg (py_mod seconds 60)) by exact Hm0.
    reflexivity.
  - cbv zeta.
    destruct (time_fields seconds Hs) as (Eh & Em & _ & _).
    fold n in Eh, Em.
    unfold py_floordiv in *. rewrite py_int_inject_Z in Eh, Em.
    rewrite Eh, Em.
    rewrite !format_0f_Z
      by first [apply Z.div_pos; lia | apply Z.mod_pos_bound; lia].
    rewrite (format_0f_nonneg (py_mod seconds 60)) by exact Hm0.
    reflexivity.
Qed.

(** Two minutes less four tenths of a second: one minute and sixty
    seconds. *)
Lemma status_time_text_witness : Cli.format_time 119.6 = py "1m 60s".
Proof.
  rewrite (proj2 (status_time_text 119.6 ltac:(discriminate))).
  reflexivity.
Defined.

(** ** The sanitized text on the delivery channel *)

Lemma safe_latin1 isprintable c : safe isprintable c = true -> c < 0x100.
Proof.
  unfold safe. rewrite !orb_true_iff, andb_true_iff, N.ltb_lt.
  intros [[[[_ H]|H]|H]|H]; [lia| | |];
    unfold str_in, lower_accents, upper_accents, plain_whitespace in H;
    cbn [existsb] in H; revert H; bool_to_prop; lia.
Qed.

Lemma Forall_forallb {A} (f : A -> bool) l :
  forallb f l = true -> Forall (fun c => f c = true) l.
Proof.
  intros H. apply Forall_forall. now apply forallb_forall.
Qed.

(** The result of a run whose three calls into Whisper return and whose
    transcription is not empty: the five entries of [final_result], and
    the path of the saved file when it was written. *)
Lemma transcribe_video_saved_result w video_path model_name language audio
    result :
  Cli.load_model w model_name = Returns tt ->
  Cli.load_audio w video_path = Returns audio ->
  Cli.transcribe w audio (Cli.options language) = Returns result ->
  result <> [] ->
  strip (dict_get result (py "text") []) <> [] ->
  let text :=
    sanitize_for_json (Cli.normalize_NFKD w) (Cli.isprintable w)
      (strip (dict_get result (py "text") [])) in
  let initial :=
    Cli.initial_result w text result model_name (total_duration audio) in
  let path :=
    Cli.path_join w (Cli.path_join w (Cli.getcwd w) (py "transcriptions"))
      (Cli.video_basename w video_path ++ py "_" ++ Cli.now_strftime w
       ++ py ".json") in
  snd (Cli.transcribe_video w video_path model_name language)
  = Returns (Some initial)
  \/ snd (Cli.transcribe_video w video_path model_name language)
     = Returns (Some (initial ++ [(py "saved_file", JStr path)])).
Proof.
  intros Hm Ha Ht Hres Hraw text initial path.
  destruct (transcribe_video_cases w video_path model_name language)
    as [(e & audio' & n & _ & _ & [H|[[_ H]|(_ & H1 & H2)]])
       |(audio' & result' & t & v & _ & H2 & H3 & Hf & E)].
  1-2: congruence.
  { assert (audio' = audio) by congruence. subst audio'. congruence. }
  assert (audio' = audio) by congruence. subst audio'.
  assert (result' = result) by congruence. subst result'.
  rewrite E. cbn [snd].
  destruct (finalize_cases w video_path model_name (total_duration audio)
              result) as [([Hn|Hn] & _)|(_ & _ & ts & fr & E' & Hsave)];
    [contradiction | contradiction |].
  rewrite Hf in E'. assert (v = Some fr) by congruence. subst v.
  destruct Hsave as [Hs|(ts' & e & Hs & -> & _)]; [|now left].
  right.
  match type of Hs with
  | Cli.save_result _ _ ?fr0 = _ =>
      destruct (save_result_cases w video_path fr0)
        as [(e & ts' & Hr & _)|(bytes & _ & _ & _ & _ & Hr)]
  end; rewrite Hs in Hr; [discriminate|].
  injection Hr as _ Hfr. rewrite Hfr. reflexivity.
Qed.

(** X22: the sanitized text never blocks the delivery.  Whatever text the
    model answers and whatever the Unicode tables are, the sanitized text
    holds code points below U+0100 only, so it can be encoded.  A run whose
    three calls into Whisper return a transcription that is not empty
    prints exactly one delivery line, whether the file is saved or not, as
    soon as the other entries of the dict that it sends hold no surrogate
    code point: the language, the timestamp, the model name, the text of
    the duration, and the path of the saved file, which is sent when the
    file was written. *)
Theorem sanitized_text_is_deliverable (w : Cli.world)
    (video_path model_name : str) (language : option str) (audio : N)
    (result : list (str * str)) :
  Cli.load_model w model_name = Returns tt ->
  Cli.load_audio w video_path = Returns audio ->
  Cli.transcribe w audio (Cli.options language) = Returns result ->
  result <> [] ->
  strip (dict_get result (py "text") []) <> [] ->
  Forall (fun c => is_scalar c = true)
    (dict_get result (py "language") (py "unknown")) ->
  Forall (fun c => is_scalar c = true) (Cli.now_isoformat w) ->
  Forall (fun c => is_scalar c = true) model_name ->
  Forall (fun c => is_scalar c = true)
    (Cli.float_repr w (total_duration audio)) ->
  Forall (fun c => is_scalar c = true)
    (Cli.path_join w (Cli.path_join w (Cli.getcwd w) (py "transcriptions"))
       (Cli.video_basename w video_path ++ py "_" ++ Cli.now_strftime w
        ++ py ".json")) ->
  Forall (fun c => c < 0x100)
    (sanitize_for_json (Cli.normalize_NFKD w) (Cli.isprintable w)
       (strip (dict_get result (py "text") [])))
  /\ (exists bytes,
        utf8_encode
          (sanitize_for_json (Cli.normalize_NFKD w) (Cli.isprintable w)
             (strip (dict_get result (py "text") [])))
        = Some bytes)
  /\ Cli.deliveries (fst (Cli.main w video_path model_name language))
     = 1%nat.
Proof.
  intros Hm Ha Ht Hres Hraw Hl Hts Hmn Hd Hp.
  set (text := sanitize_for_json (Cli.normalize_NFKD w) (Cli.isprintable w)
                 (strip (dict_get result (py "text") []))).
  assert (Hlatin : Forall (fun c => c < 0x100) text).
  { eapply Forall_impl; [|apply sanitize_safe]. apply safe_latin1. }
  assert (Hscalar : Forall (fun c => is_scalar c = true) text).
  { eapply Forall_impl; [|exact Hlatin].
    intros c Hc. cbv beta in Hc. unfold is_scalar. bool_to_prop. lia. }
  split; [exact Hlatin|]. split; [now apply utf8_encode_scalar|].
  assert (Hline : forall fr, scalar_dict fr ->
                    exists line, delivery_line fr = Some line).
  { intros fr Hfr. unfold delivery_line.
    destruct (utf8_encode_scalar _ (json_dumps_scalar _ Hfr)) as [bs ->].
    eauto. }
  unfold Cli.deliveries. rewrite main_payloads.
  destruct (transcribe_video_saved_result w video_path model_name language
              audio result Hm Ha Ht Hres Hraw) as [E|E];
    rewrite E; fold text.
  - destruct (Hline (Cli.initial_result w text result model_name
                       (total_duration audio))) as [line ->];
      [|reflexivity].
    unfold Cli.initial_result, scalar_dict.
    repeat (apply Forall_cons;
            [split; [apply Forall_forallb; reflexivity
                    | cbn [snd value_text]; assumption]|]).
    apply Forall_nil.
  - match goal with
    | |- context [delivery_line ?fr] =>
        destruct (Hline fr) as [line ->]; [|reflexivity]
    end.
    unfold Cli.initial_result, scalar_dict. cbn [app].
    repeat (apply Forall_cons;
            [split; [apply Forall_forallb; reflexivity
                    | cbn [snd value_text]; assumption]|]).
    apply Forall_nil.
Qed.

(** The model answers with a text that holds a lone surrogate, a line
    break and an emoji: the sanitizer drops them and the run prints its
    delivery line. *)
Lemma sanitized_text_is_deliverable_witness :
  sanitize_for_json latin1_NFKD ascii_isprintable
    (strip ([0xdcff] ++ py "ol" ++ [0xe1; 0x0a; 0x1f600]))
  = py "ola"
  /\ Cli.deliveries
       (fst (Cli.main
               (example_world true (Returns tt) (Returns 40000)
                  (Returns [ (py "text",
                              [0xdcff] ++ py "ol" ++ [0xe1; 0x0a; 0x1f600]);
                             (py "language", py "pt") ])
                  (Returns tt))
               (py "v.mp4") (py "base") None))
     = 1%nat.
Proof.
  split; [reflexivity|].
  apply (sanitized_text_is_deliverable
           (example_world true (Returns tt) (Returns 40000)
              (Returns [ (py "text",
                          [0xdcff] ++ py "ol" ++ [0xe1; 0x0a; 0x1f600]);
                         (py "language", py "pt") ])
              (Returns tt))
           (py "v.mp4") (py "base") None 40000
           [ (py "text", [0xdcff] ++ py "ol" ++ [0xe1; 0x0a; 0x1f600]);
             (py "language", py "pt") ]);
    try reflexivity; try discriminate;
    apply Forall_forallb; reflexivity.
Defined.
